(** * Signaling relay (server.js): rooms, connections and message relay

    A shallow embedding of the WebSocket signaling server of the
    screen-share repository, and the properties of its room and
    connection registries.

    The two registries of [server.js] are finite maps keyed by strings
    ([gmap]); the participant set of a room is kept as a duplicate-free
    list in insertion order, which is the order [Set.prototype.forEach]
    visits.  Handlers run in a small monad that threads the registries,
    records every [ws.send] and carries JavaScript exceptions.  What the
    runtime supplies enters as an argument: the value [uuid()] returns,
    and [JSON.parse] itself.

    The embedding follows the Node server (the first half of the file,
    where [safeSend] looks at [readyState]); the edge handler that
    follows it has the same handlers word for word. *)

From Stdlib Require Import ZArith SpecFloat Ascii String.
From stdpp Require Import gmap strings list pretty.

#[local] Set Warnings "-register-all".

(** ** JavaScript values *)

(** The values [JSON.parse] can produce, plus [undefined] (a missing
    property).  Numbers are IEEE 754 doubles, in the representation the
    Standard Library specifies floating point with. *)
Inductive JSValue : Type :=
| JUndefined
| JNull
| JBool (b : bool)
| JNumber (x : spec_float)
| JString (s : string)
| JArray (l : list JSValue)
| JObject (l : list (string * JSValue)).

(** [ToBoolean]: what [!v], [v || w] and [v && w] test. *)
Definition truthy (v : JSValue) : bool :=
  match v with
  | JUndefined | JNull => false
  | JBool b => b
  | JNumber (S754_zero _) | JNumber S754_nan => false
  | JNumber _ => true
  | JString s => negb (String.eqb s "")
  | JArray _ | JObject _ => true
  end.

(** [a || b] *)
Definition js_or (a b : JSValue) : JSValue := if truthy a then a else b.

Fixpoint assoc_get (k : string) (l : list (string * JSValue)) : option JSValue :=
  match l with
  | [] => None
  | (k', v) :: l' => if String.eqb k k' then Some v else assoc_get k l'
  end.

Fixpoint assoc_set (k : string) (v : JSValue) (l : list (string * JSValue))
  : list (string * JSValue) :=
  match l with
  | [] => [(k, v)]
  | (k', v') :: l' =>
      if String.eqb k k' then (k', v) :: l' else (k', v') :: assoc_set k v l'
  end.

Fixpoint assoc_remove (k : string) (l : list (string * JSValue))
  : list (string * JSValue) :=
  match l with
  | [] => []
  | (k', v) :: l' =>
      if String.eqb k k' then assoc_remove k l' else (k', v) :: assoc_remove k l'
  end.

(** [o.k] for the field names the handlers read ([type], [roomCode],
    [viewerId], [offer], [adminId], [answer], [target], [candidate]):
    none of them is a property of a primitive, of an array or of
    [Object.prototype], so only an own property of an object answers. *)
Definition get_prop (o : JSValue) (k : string) : JSValue :=
  match o with
  | JObject l => default JUndefined (assoc_get k l)
  | _ => JUndefined
  end.

(** [o?.k] *)
Definition opt_chain (o : JSValue) (k : string) : JSValue :=
  match o with
  | JUndefined | JNull => JUndefined
  | _ => get_prop o k
  end.

(** [{ type, ...payload }]: the literal sets [type], the spread then
    defines each own property of [payload] in order. *)
Definition spread (type : string) (payload : list (string * JSValue)) : JSValue :=
  JObject (fold_left (λ acc kv, assoc_set kv.1 kv.2 acc) payload [("type", JString type)]).

(** ** Strings *)

(** A string is held in its UTF-8 form: one byte for an ASCII character,
    a lead byte and one to three continuation bytes for every other code
    point (a surrogate that stands alone is held in the three bytes of
    its own code).  Two JavaScript strings are equal, empty, or split at
    a dash exactly when their UTF-8 forms are; [trim] and [toUpperCase]
    work on code points, which [code_points] recovers from the bytes. *)

Fixpoint string_forallb (p : ascii → bool) (s : string) : bool :=
  match s with
  | EmptyString => true
  | String c s' => p c && string_forallb p s'
  end.

(** The UTF-8 form of the code point [c]. *)
Definition utf8 (c : N) : string :=
  let byte n := String (ascii_of_N n) EmptyString in
  (if c <? 0x80 then byte c
   else if c <? 0x800 then
     byte (0xC0 + c / 0x40) +:+ byte (0x80 + c mod 0x40)
   else if c <? 0x10000 then
     byte (0xE0 + c / 0x1000) +:+ byte (0x80 + c / 0x40 mod 0x40)
     +:+ byte (0x80 + c mod 0x40)
   else
     byte (0xF0 + c / 0x40000) +:+ byte (0x80 + c / 0x1000 mod 0x40)
     +:+ byte (0x80 + c / 0x40 mod 0x40) +:+ byte (0x80 + c mod 0x40))%N.

(** The bytes 0x80 to 0xBF continue a character; every other byte
    starts one. *)
Definition is_continuation (b : ascii) : bool :=
  let n := nat_of_ascii b in (128 <=? n)%nat && (n <=? 191)%nat.

Definition starts_character (s : string) : bool :=
  match s with
  | EmptyString => true
  | String b _ => negb (is_continuation b)
  end.

(** The code points of a string, each in its UTF-8 form: a byte that
    starts a character, with the continuation bytes that follow it. *)
Fixpoint code_points (s : string) : list string :=
  match s with
  | EmptyString => []
  | String b s' =>
      match code_points s' with
      | [] => [String b EmptyString]
      | u :: r =>
          if starts_character u then String b EmptyString :: u :: r
          else String b u :: r
      end
  end.

Fixpoint join (l : list string) : string :=
  match l with
  | [] => EmptyString
  | u :: r => u +:+ join r
  end.

(** The UTF-8 form of one code point: a first byte and as many
    continuation bytes as the first byte announces. *)
Definition is_character (u : string) : bool :=
  match u with
  | EmptyString => false
  | String b r =>
      let n := nat_of_ascii b in
      string_forallb is_continuation r
      && (if (n <? 128)%nat then (String.length r =? 0)%nat
          else if (n <? 192)%nat then false
          else if (n <? 224)%nat then (String.length r =? 1)%nat
          else if (n <? 240)%nat then (String.length r =? 2)%nat
          else if (n <? 248)%nat then (String.length r =? 3)%nat
          else false)
  end.

(** The strings that are the UTF-8 form of a JavaScript string. *)
Definition is_text (s : string) : bool := forallb is_character (code_points s).

(** What [trim] strips: the [WhiteSpace] and [LineTerminator] code points
    of ECMAScript.  TAB, LF, VT, FF, CR, SPACE, NO-BREAK SPACE, OGHAM
    SPACE MARK, EN QUAD to HAIR SPACE, LINE SEPARATOR, PARAGRAPH
    SEPARATOR, NARROW NO-BREAK SPACE, MEDIUM MATHEMATICAL SPACE,
    IDEOGRAPHIC SPACE and ZERO WIDTH NO-BREAK SPACE. *)
Definition white_space : list N :=
  [0x9; 0xA; 0xB; 0xC; 0xD; 0x20; 0xA0; 0x1680;
   0x2000; 0x2001; 0x2002; 0x2003; 0x2004; 0x2005; 0x2006; 0x2007; 0x2008;
   0x2009; 0x200A; 0x2028; 0x2029; 0x202F; 0x205F; 0x3000; 0xFEFF]%N.

Definition is_white_space (u : string) : bool :=
  existsb (String.eqb u) (utf8 <$> white_space).

(** A string of white space only. *)
Definition is_blank (s : string) : bool := forallb is_white_space (code_points s).

Fixpoint strip_start (l : list string) : list string :=
  match l with
  | [] => []
  | u :: r => if is_white_space u then strip_start r else l
  end.

Fixpoint strip_end (l : list string) : list string :=
  match l with
  | [] => []
  | u :: r =>
      match strip_end r with
      | [] => if is_white_space u then [] else [u]
      | t => u :: t
      end
  end.

(** [s.trim()] *)
Definition trim (s : string) : string :=
  join (strip_end (strip_start (code_points s))).

(** The code points [toUpperCase] changes, each with the code points it
    becomes: the upper-case mappings of the Unicode character database
    (version 14), one code point for most, two or three where
    SpecialCasing gives a longer form regardless of language and context
    (U+00DF to SS, U+FB00 to FF, ...). *)
Definition upper_case : list (N * list N) :=
  [(0x61, [0x41]); (0x62, [0x42]); (0x63, [0x43]); (0x64, [0x44]);
   (0x65, [0x45]); (0x66, [0x46]); (0x67, [0x47]); (0x68, [0x48]);
   (0x69, [0x49]); (0x6A, [0x4A]); (0x6B, [0x4B]); (0x6C, [0x4C]);
   (0x6D, [0x4D]); (0x6E, [0x4E]); (0x6F, [0x4F]); (0x70, [0x50]);
   (0x71, [0x51]); (0x72, [0x52]); (0x73, [0x53]); (0x74, [0x54]);
   (0x75, [0x55]); (0x76, [0x56]); (0x77, [0x57]); (0x78, [0x58]);
   (0x79, [0x59]); (0x7A, [0x5A]); (0xB5, [0x39C]); (0xDF, [0x53; 0x53]);
   (0xE0, [0xC0]); (0xE1, [0xC1]); (0xE2, [0xC2]); (0xE3, [0xC3]);
   (0xE4, [0xC4]); (0xE5, [0xC5]); (0xE6, [0xC6]); (0xE7, [0xC7]);
   (0xE8, [0xC8]); (0xE9, [0xC9]); (0xEA, [0xCA]); (0xEB, [0xCB]);
   (0xEC, [0xCC]); (0xED, [0xCD]); (0xEE, [0xCE]); (0xEF, [0xCF]);
   (0xF0, [0xD0]); (0xF1, [0xD1]); (0xF2, [0xD2]); (0xF3, [0xD3]);
   (0xF4, [0xD4]); (0xF5, [0xD5]); (0xF6, [0xD6]); (0xF8, [0xD8]);
   (0xF9, [0xD9]); (0xFA, [0xDA]); (0xFB, [0xDB]); (0xFC, [0xDC]);
   (0xFD, [0xDD]); (0xFE, [0xDE]); (0xFF, [0x178]); (0x101, [0x100]);
   (0x103, [0x102]); (0x105, [0x104]); (0x107, [0x106]); (0x109, [0x108]);
   (0x10B, [0x10A]); (0x10D, [0x10C]); (0x10F, [0x10E]); (0x111, [0x110]);
   (0x113, [0x112]); (0x115, [0x114]); (0x117, [0x116]); (0x119, [0x118]);
   (0x11B, [0x11A]); (0x11D, [0x11C]); (0x11F, [0x11E]); (0x121, [0x120]);
   (0x123, [0x122]); (0x125, [0x124]); (0x127, [0x126]); (0x129, [0x128]);
   (0x12B, [0x12A]); (0x12D, [0x12C]); (0x12F, [0x12E]); (0x131, [0x49]);
   (0x133, [0x132]); (0x135, [0x134]); (0x137, [0x136]); (0x13A, [0x139]);
   (0x13C, [0x13B]); (0x13E, [0x13D]); (0x140, [0x13F]); (0x142, [0x141]);
   (0x144, [0x143]); (0x146, [0x145]); (0x148, [0x147]);
   (0x149, [0x2BC; 0x4E]); (0x14B, [0x14A]); (0x14D, [0x14C]);
   (0x14F, [0x14E]); (0x151, [0x150]); (0x153, [0x152]); (0x155, [0x154]);
   (0x157, [0x156]); (0x159, [0x158]); (0x15B, [0x15A]); (0x15D, [0x15C]);
   (0x15F, [0x15E]); (0x161, [0x160]); (0x163, [0x162]); (0x165, [0x164]);
   (0x167, [0x166]); (0x169, [0x168]); (0x16B, [0x16A]); (0x16D, [0x16C]);
   (0x16F, [0x16E]); (0x171, [0x170]); (0x173, [0x172]); (0x175, [0x174]);
   (0x177, [0x176]); (0x17A, [0x179]); (0x17C, [0x17B]); (0x17E, [0x17D]);
   (0x17F, [0x53]); (0x180, [0x243]); (0x183, [0x182]); (0x185, [0x184]);
   (0x188, [0x187]); (0x18C, [0x18B]); (0x192, [0x191]); (0x195, [0x1F6]);
   (0x199, [0x198]); (0x19A, [0x23D]); (0x19E, [0x220]); (0x1A1, [0x1A0]);
   (0x1A3, [0x1A2]); (0x1A5, [0x1A4]); (0x1A8, [0x1A7]); (0x1AD, [0x1AC]);
   (0x1B0, [0x1AF]); (0x1B4, [0x1B3]); (0x1B6, [0x1B5]); (0x1B9, [0x1B8]);
   (0x1BD, [0x1BC]); (0x1BF, [0x1F7]); (0x1C5, [0x1C4]); (0x1C6, [0x1C4]);
   (0x1C8, [0x1C7]); (0x1C9, [0x1C7]); (0x1CB, [0x1CA]); (0x1CC, [0x1CA]);
   (0x1CE, [0x1CD]); (0x1D0, [0x1CF]); (0x1D2, [0x1D1]); (0x1D4, [0x1D3]);
   (0x1D6, [0x1D5]); (0x1D8, [0x1D7]); (0x1DA, [0x1D9]); (0x1DC, [0x1DB]);
   (0x1DD, [0x18E]); (0x1DF, [0x1DE]); (0x1E1, [0x1E0]); (0x1E3, [0x1E2]);
   (0x1E5, [0x1E4]); (0x1E7, [0x1E6]); (0x1E9, [0x1E8]); (0x1EB, [0x1EA]);
   (0x1ED, [0x1EC]); (0x1EF, [0x1EE]); (0x1F0, [0x4A; 0x30C]);
   (0x1F2, [0x1F1]); (0x1F3, [0x1F1]); (0x1F5, [0x1F4]); (0x1F9, [0x1F8]);
   (0x1FB, [0x1FA]); (0x1FD, [0x1FC]); (0x1FF, [0x1FE]); (0x201, [0x200]);
   (0x203, [0x202]); (0x205, [0x204]); (0x207, [0x206]); (0x209, [0x208]);
   (0x20B, [0x20A]); (0x20D, [0x20C]); (0x20F, [0x20E]); (0x211, [0x210]);
   (0x213, [0x212]); (0x215, [0x214]); (0x217, [0x216]); (0x219, [0x218]);
   (0x21B, [0x21A]); (0x21D, [0x21C]); (0x21F, [0x21E]); (0x223, [0x222]);
   (0x225, [0x224]); (0x227, [0x226]); (0x229, [0x228]); (0x22B, [0x22A]);
   (0x22D, [0x22C]); (0x22F, [0x22E]); (0x231, [0x230]); (0x233, [0x232]);
   (0x23C, [0x23B]); (0x23F, [0x2C7E]); (0x240, [0x2C7F]); (0x242, [0x241]);
   (0x247, [0x246]); (0x249, [0x248]); (0x24B, [0x24A]); (0x24D, [0x24C]);
   (0x24F, [0x24E]); (0x250, [0x2C6F]); (0x251, [0x2C6D]); (0x252, [0x2C70]);
   (0x253, [0x181]); (0x254, [0x186]); (0x256, [0x189]); (0x257, [0x18A]);
   (0x259, [0x18F]); (0x25B, [0x190]); (0x25C, [0xA7AB]); (0x260, [0x193]);
   (0x261, [0xA7AC]); (0x263, [0x194]); (0x265, [0xA78D]); (0x266, [0xA7AA]);
   (0x268, [0x197]); (0x269, [0x196]); (0x26A, [0xA7AE]); (0x26B, [0x2C62]);
   (0x26C, [0xA7AD]); (0x26F, [0x19C]); (0x271, [0x2C6E]); (0x272, [0x19D]);
   (0x275, [0x19F]); (0x27D, [0x2C64]); (0x280, [0x1A6]); (0x282, [0xA7C5]);
   (0x283, [0x1A9]); (0x287, [0xA7B1]); (0x288, [0x1AE]); (0x289, [0x244]);
   (0x28A, [0x1B1]); (0x28B, [0x1B2]); (0x28C, [0x245]); (0x292, [0x1B7]);
   (0x29D, [0xA7B2]); (0x29E, [0xA7B0]); (0x345, [0x399]); (0x371, [0x370]);
   (0x373, [0x372]); (0x377, [0x376]); (0x37B, [0x3FD]); (0x37C, [0x3FE]);
   (0x37D, [0x3FF]); (0x390, [0x399; 0x308; 0x301]); (0x3AC, [0x386]);
   (0x3AD, [0x388]); (0x3AE, [0x389]); (0x3AF, [0x38A]);
   (0x3B0, [0x3A5; 0x308; 0x301]); (0x3B1, [0x391]); (0x3B2, [0x392]);
   (0x3B3, [0x393]); (0x3B4, [0x394]); (0x3B5, [0x395]); (0x3B6, [0x396]);
   (0x3B7, [0x397]); (0x3B8, [0x398]); (0x3B9, [0x399]); (0x3BA, [0x39A]);
   (0x3BB, [0x39B]); (0x3BC, [0x39C]); (0x3BD, [0x39D]); (0x3BE, [0x39E]);
   (0x3BF, [0x39F]); (0x3C0, [0x3A0]); (0x3C1, [0x3A1]); (0x3C2, [0x3A3]);
   (0x3C3, [0x3A3]); (0x3C4, [0x3A4]); (0x3C5, [0x3A5]); (0x3C6, [0x3A6]);
   (0x3C7, [0x3A7]); (0x3C8, [0x3A8]); (0x3C9, [0x3A9]); (0x3CA, [0x3AA]);
   (0x3CB, [0x3AB]); (0x3CC, [0x38C]); (0x3CD, [0x38E]); (0x3CE, [0x38F]);
   (0x3D0, [0x392]); (0x3D1, [0x398]); (0x3D5, [0x3A6]); (0x3D6, [0x3A0]);
   (0x3D7, [0x3CF]); (0x3D9, [0x3D8]); (0x3DB, [0x3DA]); (0x3DD, [0x3DC]);
   (0x3DF, [0x3DE]); (0x3E1, [0x3E0]); (0x3E3, [0x3E2]); (0x3E5, [0x3E4]);
   (0x3E7, [0x3E6]); (0x3E9, [0x3E8]); (0x3EB, [0x3EA]); (0x3ED, [0x3EC]);
   (0x3EF, [0x3EE]); (0x3F0, [0x39A]); (0x3F1, [0x3A1]); (0x3F2, [0x3F9]);
   (0x3F3, [0x37F]); (0x3F5, [0x395]); (0x3F8, [0x3F7]); (0x3FB, [0x3FA]);
   (0x430, [0x410]); (0x431, [0x411]); (0x432, [0x412]); (0x433, [0x413]);
   (0x434, [0x414]); (0x435, [0x415]); (0x436, [0x416]); (0x437, [0x417]);
   (0x438, [0x418]); (0x439, [0x419]); (0x43A, [0x41A]); (0x43B, [0x41B]);
   (0x43C, [0x41C]); (0x43D, [0x41D]); (0x43E, [0x41E]); (0x43F, [0x41F]);
   (0x440, [0x420]); (0x441, [0x421]); (0x442, [0x422]); (0x443, [0x423]);
   (0x444, [0x424]); (0x445, [0x425]); (0x446, [0x426]); (0x447, [0x427]);
   (0x448, [0x428]); (0x449, [0x429]); (0x44A, [0x42A]); (0x44B, [0x42B]);
   (0x44C, [0x42C]); (0x44D, [0x42D]); (0x44E, [0x42E]); (0x44F, [0x42F]);
   (0x450, [0x400]); (0x451, [0x401]); (0x452, [0x402]); (0x453, [0x403]);
   (0x454, [0x404]); (0x455, [0x405]); (0x456, [0x406]); (0x457, [0x407]);
   (0x458, [0x408]); (0x459, [0x409]); (0x45A, [0x40A]); (0x45B, [0x40B]);
   (0x45C, [0x40C]); (0x45D, [0x40D]); (0x45E, [0x40E]); (0x45F, [0x40F]);
   (0x461, [0x460]); (0x463, [0x462]); (0x465, [0x464]); (0x467, [0x466]);
   (0x469, [0x468]); (0x46B, [0x46A]); (0x46D, [0x46C]); (0x46F, [0x46E]);
   (0x471, [0x470]); (0x473, [0x472]); (0x475, [0x474]); (0x477, [0x476]);
   (0x479, [0x478]); (0x47B, [0x47A]); (0x47D, [0x47C]); (0x47F, [0x47E]);
   (0x481, [0x480]); (0x48B, [0x48A]); (0x48D, [0x48C]); (0x48F, [0x48E]);
   (0x491, [0x490]); (0x493, [0x492]); (0x495, [0x494]); (0x497, [0x496]);
   (0x499, [0x498]); (0x49B, [0x49A]); (0x49D, [0x49C]); (0x49F, [0x49E]);
   (0x4A1, [0x4A0]); (0x4A3, [0x4A2]); (0x4A5, [0x4A4]); (0x4A7, [0x4A6]);
   (0x4A9, [0x4A8]); (0x4AB, [0x4AA]); (0x4AD, [0x4AC]); (0x4AF, [0x4AE]);
   (0x4B1, [0x4B0]); (0x4B3, [0x4B2]); (0x4B5, [0x4B4]); (0x4B7, [0x4B6]);
   (0x4B9, [0x4B8]); (0x4BB, [0x4BA]); (0x4BD, [0x4BC]); (0x4BF, [0x4BE]);
   (0x4C2, [0x4C1]); (0x4C4, [0x4C3]); (0x4C6, [0x4C5]); (0x4C8, [0x4C7]);
   (0x4CA, [0x4C9]); (0x4CC, [0x4CB]); (0x4CE, [0x4CD]); (0x4CF, [0x4C0]);
   (0x4D1, [0x4D0]); (0x4D3, [0x4D2]); (0x4D5, [0x4D4]); (0x4D7, [0x4D6]);
   (0x4D9, [0x4D8]); (0x4DB, [0x4DA]); (0x4DD, [0x4DC]); (0x4DF, [0x4DE]);
   (0x4E1, [0x4E0]); (0x4E3, [0x4E2]); (0x4E5, [0x4E4]); (0x4E7, [0x4E6]);
   (0x4E9, [0x4E8]); (0x4EB, [0x4EA]); (0x4ED, [0x4EC]); (0x4EF, [0x4EE]);
   (0x4F1, [0x4F0]); (0x4F3, [0x4F2]); (0x4F5, [0x4F4]); (0x4F7, [0x4F6]);
   (0x4F9, [0x4F8]); (0x4FB, [0x4FA]); (0x4FD, [0x4FC]); (0x4FF, [0x4FE]);
   (0x501, [0x500]); (0x503, [0x502]); (0x505, [0x504]); (0x507, [0x506]);
   (0x509, [0x508]); (0x50B, [0x50A]); (0x50D, [0x50C]); (0x50F, [0x50E]);
   (0x511, [0x510]); (0x513, [0x512]); (0x515, [0x514]); (0x517, [0x516]);
   (0x519, [0x518]); (0x51B, [0x51A]); (0x51D, [0x51C]); (0x51F, [0x51E]);
   (0x521, [0x520]); (0x523, [0x522]); (0x525, [0x524]); (0x527, [0x526]);
   (0x529, [0x528]); (0x52B, [0x52A]); (0x52D, [0x52C]); (0x52F, [0x52E]);
   (0x561, [0x531]); (0x562, [0x532]); (0x563, [0x533]); (0x564, [0x534]);
   (0x565, [0x535]); (0x566, [0x536]); (0x567, [0x537]); (0x568, [0x538]);
   (0x569, [0x539]); (0x56A, [0x53A]); (0x56B, [0x53B]); (0x56C, [0x53C]);
   (0x56D, [0x53D]); (0x56E, [0x53E]); (0x56F, [0x53F]); (0x570, [0x540]);
   (0x571, [0x541]); (0x572, [0x542]); (0x573, [0x543]); (0x574, [0x544]);
   (0x575, [0x545]); (0x576, [0x546]); (0x577, [0x547]); (0x578, [0x548]);
   (0x579, [0x549]); (0x57A, [0x54A]); (0x57B, [0x54B]); (0x57C, [0x54C]);
   (0x57D, [0x54D]); (0x57E, [0x54E]); (0x57F, [0x54F]); (0x580, [0x550]);
   (0x581, [0x551]); (0x582, [0x552]); (0x583, [0x553]); (0x584, [0x554]);
   (0x585, [0x555]); (0x586, [0x556]); (0x587, [0x535; 0x552]);
   (0x10D0, [0x1C90]); (0x10D1, [0x1C91]); (0x10D2, [0x1C92]);
   (0x10D3, [0x1C93]); (0x10D4, [0x1C94]); (0x10D5, [0x1C95]);
   (0x10D6, [0x1C96]); (0x10D7, [0x1C97]); (0x10D8, [0x1C98]);
   (0x10D9, [0x1C99]); (0x10DA, [0x1C9A]); (0x10DB, [0x1C9B]);
   (0x10DC, [0x1C9C]); (0x10DD, [0x1C9D]); (0x10DE, [0x1C9E]);
   (0x10DF, [0x1C9F]); (0x10E0, [0x1CA0]); (0x10E1, [0x1CA1]);
   (0x10E2, [0x1CA2]); (0x10E3, [0x1CA3]); (0x10E4, [0x1CA4]);
   (0x10E5, [0x1CA5]); (0x10E6, [0x1CA6]); (0x10E7, [0x1CA7]);
   (0x10E8, [0x1CA8]); (0x10E9, [0x1CA9]); (0x10EA, [0x1CAA]);
   (0x10EB, [0x1CAB]); (0x10EC, [0x1CAC]); (0x10ED, [0x1CAD]);
   (0x10EE, [0x1CAE]); (0x10EF, [0x1CAF]); (0x10F0, [0x1CB0]);
   (0x10F1, [0x1CB1]); (0x10F2, [0x1CB2]); (0x10F3, [0x1CB3]);
   (0x10F4, [0x1CB4]); (0x10F5, [0x1CB5]); (0x10F6, [0x1CB6]);
   (0x10F7, [0x1CB7]); (0x10F8, [0x1CB8]); (0x10F9, [0x1CB9]);
   (0x10FA, [0x1CBA]); (0x10FD, [0x1CBD]); (0x10FE, [0x1CBE]);
   (0x10FF, [0x1CBF]); (0x13F8, [0x13F0]); (0x13F9, [0x13F1]);
   (0x13FA, [0x13F2]); (0x13FB, [0x13F3]); (0x13FC, [0x13F4]);
   (0x13FD, [0x13F5]); (0x1C80, [0x412]); (0x1C81, [0x414]);
   (0x1C82, [0x41E]); (0x1C83, [0x421]); (0x1C84, [0x422]); (0x1C85, [0x422]);
   (0x1C86, [0x42A]); (0x1C87, [0x462]); (0x1C88, [0xA64A]);
   (0x1D79, [0xA77D]); (0x1D7D, [0x2C63]); (0x1D8E, [0xA7C6]);
   (0x1E01, [0x1E00]); (0x1E03, [0x1E02]); (0x1E05, [0x1E04]);
   (0x1E07, [0x1E06]); (0x1E09, [0x1E08]); (0x1E0B, [0x1E0A]);
   (0x1E0D, [0x1E0C]); (0x1E0F, [0x1E0E]); (0x1E11, [0x1E10]);
   (0x1E13, [0x1E12]); (0x1E15, [0x1E14]); (0x1E17, [0x1E16]);
   (0x1E19, [0x1E18]); (0x1E1B, [0x1E1A]); (0x1E1D, [0x1E1C]);
   (0x1E1F, [0x1E1E]); (0x1E21, [0x1E20]); (0x1E23, [0x1E22]);
   (0x1E25, [0x1E24]); (0x1E27, [0x1E26]); (0x1E29, [0x1E28]);
   (0x1E2B, [0x1E2A]); (0x1E2D, [0x1E2C]); (0x1E2F, [0x1E2E]);
   (0x1E31, [0x1E30]); (0x1E33, [0x1E32]); (0x1E35, [0x1E34]);
   (0x1E37, [0x1E36]); (0x1E39, [0x1E38]); (0x1E3B, [0x1E3A]);
   (0x1E3D, [0x1E3C]); (0x1E3F, [0x1E3E]); (0x1E41, [0x1E40]);
   (0x1E43, [0x1E42]); (0x1E45, [0x1E44]); (0x1E47, [0x1E46]);
   (0x1E49, [0x1E48]); (0x1E4B, [0x1E4A]); (0x1E4D, [0x1E4C]);
   (0x1E4F, [0x1E4E]); (0x1E51, [0x1E50]); (0x1E53, [0x1E52]);
   (0x1E55, [0x1E54]); (0x1E57, [0x1E56]); (0x1E59, [0x1E58]);
   (0x1E5B, [0x1E5A]); (0x1E5D, [0x1E5C]); (0x1E5F, [0x1E5E]);
   (0x1E61, [0x1E60]); (0x1E63, [0x1E62]); (0x1E65, [0x1E64]);
   (0x1E67, [0x1E66]); (0x1E69, [0x1E68]); (0x1E6B, [0x1E6A]);
   (0x1E6D, [0x1E6C]); (0x1E6F, [0x1E6E]); (0x1E71, [0x1E70]);
   (0x1E73, [0x1E72]); (0x1E75, [0x1E74]); (0x1E77, [0x1E76]);
   (0x1E79, [0x1E78]); (0x1E7B, [0x1E7A]); (0x1E7D, [0x1E7C]);
   (0x1E7F, [0x1E7E]); (0x1E81, [0x1E80]); (0x1E83, [0x1E82]);
   (0x1E85, [0x1E84]); (0x1E87, [0x1E86]); (0x1E89, [0x1E88]);
   (0x1E8B, [0x1E8A]); (0x1E8D, [0x1E8C]); (0x1E8F, [0x1E8E]);
   (0x1E91, [0x1E90]); (0x1E93, [0x1E92]); (0x1E95, [0x1E94]);
   (0x1E96, [0x48; 0x331]); (0x1E97, [0x54; 0x308]); (0x1E98, [0x57; 0x30A]);
   (0x1E99, [0x59; 0x30A]); (0x1E9A, [0x41; 0x2BE]); (0x1E9B, [0x1E60]);
   (0x1EA1, [0x1EA0]); (0x1EA3, [0x1EA2]); (0x1EA5, [0x1EA4]);
   (0x1EA7, [0x1EA6]); (0x1EA9, [0x1EA8]); (0x1EAB, [0x1EAA]);
   (0x1EAD, [0x1EAC]); (0x1EAF, [0x1EAE]); (0x1EB1, [0x1EB0]);
   (0x1EB3, [0x1EB2]); (0x1EB5, [0x1EB4]); (0x1EB7, [0x1EB6]);
   (0x1EB9, [0x1EB8]); (0x1EBB, [0x1EBA]); (0x1EBD, [0x1EBC]);
   (0x1EBF, [0x1EBE]); (0x1EC1, [0x1EC0]); (0x1EC3, [0x1EC2]);
   (0x1EC5, [0x1EC4]); (0x1EC7, [0x1EC6]); (0x1EC9, [0x1EC8]);
   (0x1ECB, [0x1ECA]); (0x1ECD, [0x1ECC]); (0x1ECF, [0x1ECE]);
   (0x1ED1, [0x1ED0]); (0x1ED3, [0x1ED2]); (0x1ED5, [0x1ED4]);
   (0x1ED7, [0x1ED6]); (0x1ED9, [0x1ED8]); (0x1EDB, [0x1EDA]);
   (0x1EDD, [0x1EDC]); (0x1EDF, [0x1EDE]); (0x1EE1, [0x1EE0]);
   (0x1EE3, [0x1EE2]); (0x1EE5, [0x1EE4]); (0x1EE7, [0x1EE6]);
   (0x1EE9, [0x1EE8]); (0x1EEB, [0x1EEA]); (0x1EED, [0x1EEC]);
   (0x1EEF, [0x1EEE]); (0x1EF1, [0x1EF0]); (0x1EF3, [0x1EF2]);
   (0x1EF5, [0x1EF4]); (0x1EF7, [0x1EF6]); (0x1EF9, [0x1EF8]);
   (0x1EFB, [0x1EFA]); (0x1EFD, [0x1EFC]); (0x1EFF, [0x1EFE]);
   (0x1F00, [0x1F08]); (0x1F01, [0x1F09]); (0x1F02, [0x1F0A]);
   (0x1F03, [0x1F0B]); (0x1F04, [0x1F0C]); (0x1F05, [0x1F0D]);
   (0x1F06, [0x1F0E]); (0x1F07, [0x1F0F]); (0x1F10, [0x1F18]);
   (0x1F11, [0x1F19]); (0x1F12, [0x1F1A]); (0x1F13, [0x1F1B]);
   (0x1F14, [0x1F1C]); (0x1F15, [0x1F1D]); (0x1F20, [0x1F28]);
   (0x1F21, [0x1F29]); (0x1F22, [0x1F2A]); (0x1F23, [0x1F2B]);
   (0x1F24, [0x1F2C]); (0x1F25, [0x1F2D]); (0x1F26, [0x1F2E]);
   (0x1F27, [0x1F2F]); (0x1F30, [0x1F38]); (0x1F31, [0x1F39]);
   (0x1F32, [0x1F3A]); (0x1F33, [0x1F3B]); (0x1F34, [0x1F3C]);
   (0x1F35, [0x1F3D]); (0x1F36, [0x1F3E]); (0x1F37, [0x1F3F]);
   (0x1F40, [0x1F48]); (0x1F41, [0x1F49]); (0x1F42, [0x1F4A]);
   (0x1F43, [0x1F4B]); (0x1F44, [0x1F4C]); (0x1F45, [0x1F4D]);
   (0x1F50, [0x3A5; 0x313]); (0x1F51, [0x1F59]);
   (0x1F52, [0x3A5; 0x313; 0x300]); (0x1F53, [0x1F5B]);
   (0x1F54, [0x3A5; 0x313; 0x301]); (0x1F55, [0x1F5D]);
   (0x1F56, [0x3A5; 0x313; 0x342]); (0x1F57, [0x1F5F]); (0x1F60, [0x1F68]);
   (0x1F61, [0x1F69]); (0x1F62, [0x1F6A]); (0x1F63, [0x1F6B]);
   (0x1F64, [0x1F6C]); (0x1F65, [0x1F6D]); (0x1F66, [0x1F6E]);
   (0x1F67, [0x1F6F]); (0x1F70, [0x1FBA]); (0x1F71, [0x1FBB]);
   (0x1F72, [0x1FC8]); (0x1F73, [0x1FC9]); (0x1F74, [0x1FCA]);
   (0x1F75, [0x1FCB]); (0x1F76, [0x1FDA]); (0x1F77, [0x1FDB]);
   (0x1F78, [0x1FF8]); (0x1F79, [0x1FF9]); (0x1F7A, [0x1FEA]);
   (0x1F7B, [0x1FEB]); (0x1F7C, [0x1FFA]); (0x1F7D, [0x1FFB]);
   (0x1F80, [0x1F08; 0x399]); (0x1F81, [0x1F09; 0x399]);
   (0x1F82, [0x1F0A; 0x399]); (0x1F83, [0x1F0B; 0x399]);
   (0x1F84, [0x1F0C; 0x399]); (0x1F85, [0x1F0D; 0x399]);
   (0x1F86, [0x1F0E; 0x399]); (0x1F87, [0x1F0F; 0x399]);
   (0x1F88, [0x1F08; 0x399]); (0x1F89, [0x1F09; 0x399]);
   (0x1F8A, [0x1F0A; 0x399]); (0x1F8B, [0x1F0B; 0x399]);
   (0x1F8C, [0x1F0C; 0x399]); (0x1F8D, [0x1F0D; 0x399]);
   (0x1F8E, [0x1F0E; 0x399]); (0x1F8F, [0x1F0F; 0x399]);
   (0x1F90, [0x1F28; 0x399]); (0x1F91, [0x1F29; 0x399]);
   (0x1F92, [0x1F2A; 0x399]); (0x1F93, [0x1F2B; 0x399]);
   (0x1F94, [0x1F2C; 0x399]); (0x1F95, [0x1F2D; 0x399]);
   (0x1F96, [0x1F2E; 0x399]); (0x1F97, [0x1F2F; 0x399]);
   (0x1F98, [0x1F28; 0x399]); (0x1F99, [0x1F29; 0x399]);
   (0x1F9A, [0x1F2A; 0x399]); (0x1F9B, [0x1F2B; 0x399]);
   (0x1F9C, [0x1F2C; 0x399]); (0x1F9D, [0x1F2D; 0x399]);
   (0x1F9E, [0x1F2E; 0x399]); (0x1F9F, [0x1F2F; 0x399]);
   (0x1FA0, [0x1F68; 0x399]); (0x1FA1, [0x1F69; 0x399]);
   (0x1FA2, [0x1F6A; 0x399]); (0x1FA3, [0x1F6B; 0x399]);
   (0x1FA4, [0x1F6C; 0x399]); (0x1FA5, [0x1F6D; 0x399]);
   (0x1FA6, [0x1F6E; 0x399]); (0x1FA7, [0x1F6F; 0x399]);
   (0x1FA8, [0x1F68; 0x399]); (0x1FA9, [0x1F69; 0x399]);
   (0x1FAA, [0x1F6A; 0x399]); (0x1FAB, [0x1F6B; 0x399]);
   (0x1FAC, [0x1F6C; 0x399]); (0x1FAD, [0x1F6D; 0x399]);
   (0x1FAE, [0x1F6E; 0x399]); (0x1FAF, [0x1F6F; 0x399]); (0x1FB0, [0x1FB8]);
   (0x1FB1, [0x1FB9]); (0x1FB2, [0x1FBA; 0x399]); (0x1FB3, [0x391; 0x399]);
   (0x1FB4, [0x386; 0x399]); (0x1FB6, [0x391; 0x342]);
   (0x1FB7, [0x391; 0x342; 0x399]); (0x1FBC, [0x391; 0x399]);
   (0x1FBE, [0x399]); (0x1FC2, [0x1FCA; 0x399]); (0x1FC3, [0x397; 0x399]);
   (0x1FC4, [0x389; 0x399]); (0x1FC6, [0x397; 0x342]);
   (0x1FC7, [0x397; 0x342; 0x399]); (0x1FCC, [0x397; 0x399]);
   (0x1FD0, [0x1FD8]); (0x1FD1, [0x1FD9]); (0x1FD2, [0x399; 0x308; 0x300]);
   (0x1FD3, [0x399; 0x308; 0x301]); (0x1FD6, [0x399; 0x342]);
   (0x1FD7, [0x399; 0x308; 0x342]); (0x1FE0, [0x1FE8]); (0x1FE1, [0x1FE9]);
   (0x1FE2, [0x3A5; 0x308; 0x300]); (0x1FE3, [0x3A5; 0x308; 0x301]);
   (0x1FE4, [0x3A1; 0x313]); (0x1FE5, [0x1FEC]); (0x1FE6, [0x3A5; 0x342]);
   (0x1FE7, [0x3A5; 0x308; 0x342]); (0x1FF2, [0x1FFA; 0x399]);
   (0x1FF3, [0x3A9; 0x399]); (0x1FF4, [0x38F; 0x399]);
   (0x1FF6, [0x3A9; 0x342]); (0x1FF7, [0x3A9; 0x342; 0x399]);
   (0x1FFC, [0x3A9; 0x399]); (0x214E, [0x2132]); (0x2170, [0x2160]);
   (0x2171, [0x2161]); (0x2172, [0x2162]); (0x2173, [0x2163]);
   (0x2174, [0x2164]); (0x2175, [0x2165]); (0x2176, [0x2166]);
   (0x2177, [0x2167]); (0x2178, [0x2168]); (0x2179, [0x2169]);
   (0x217A, [0x216A]); (0x217B, [0x216B]); (0x217C, [0x216C]);
   (0x217D, [0x216D]); (0x217E, [0x216E]); (0x217F, [0x216F]);
   (0x2184, [0x2183]); (0x24D0, [0x24B6]); (0x24D1, [0x24B7]);
   (0x24D2, [0x24B8]); (0x24D3, [0x24B9]); (0x24D4, [0x24BA]);
   (0x24D5, [0x24BB]); (0x24D6, [0x24BC]); (0x24D7, [0x24BD]);
   (0x24D8, [0x24BE]); (0x24D9, [0x24BF]); (0x24DA, [0x24C0]);
   (0x24DB, [0x24C1]); (0x24DC, [0x24C2]); (0x24DD, [0x24C3]);
   (0x24DE, [0x24C4]); (0x24DF, [0x24C5]); (0x24E0, [0x24C6]);
   (0x24E1, [0x24C7]); (0x24E2, [0x24C8]); (0x24E3, [0x24C9]);
   (0x24E4, [0x24CA]); (0x24E5, [0x24CB]); (0x24E6, [0x24CC]);
   (0x24E7, [0x24CD]); (0x24E8, [0x24CE]); (0x24E9, [0x24CF]);
   (0x2C30, [0x2C00]); (0x2C31, [0x2C01]); (0x2C32, [0x2C02]);
   (0x2C33, [0x2C03]); (0x2C34, [0x2C04]); (0x2C35, [0x2C05]);
   (0x2C36, [0x2C06]); (0x2C37, [0x2C07]); (0x2C38, [0x2C08]);
   (0x2C39, [0x2C09]); (0x2C3A, [0x2C0A]); (0x2C3B, [0x2C0B]);
   (0x2C3C, [0x2C0C]); (0x2C3D, [0x2C0D]); (0x2C3E, [0x2C0E]);
   (0x2C3F, [0x2C0F]); (0x2C40, [0x2C10]); (0x2C41, [0x2C11]);
   (0x2C42, [0x2C12]); (0x2C43, [0x2C13]); (0x2C44, [0x2C14]);
   (0x2C45, [0x2C15]); (0x2C46, [0x2C16]); (0x2C47, [0x2C17]);
   (0x2C48, [0x2C18]); (0x2C49, [0x2C19]); (0x2C4A, [0x2C1A]);
   (0x2C4B, [0x2C1B]); (0x2C4C, [0x2C1C]); (0x2C4D, [0x2C1D]);
   (0x2C4E, [0x2C1E]); (0x2C4F, [0x2C1F]); (0x2C50, [0x2C20]);
   (0x2C51, [0x2C21]); (0x2C52, [0x2C22]); (0x2C53, [0x2C23]);
   (0x2C54, [0x2C24]); (0x2C55, [0x2C25]); (0x2C56, [0x2C26]);
   (0x2C57, [0x2C27]); (0x2C58, [0x2C28]); (0x2C59, [0x2C29]);
   (0x2C5A, [0x2C2A]); (0x2C5B, [0x2C2B]); (0x2C5C, [0x2C2C]);
   (0x2C5D, [0x2C2D]); (0x2C5E, [0x2C2E]); (0x2C5F, [0x2C2F]);
   (0x2C61, [0x2C60]); (0x2C65, [0x23A]); (0x2C66, [0x23E]);
   (0x2C68, [0x2C67]); (0x2C6A, [0x2C69]); (0x2C6C, [0x2C6B]);
   (0x2C73, [0x2C72]); (0x2C76, [0x2C75]); (0x2C81, [0x2C80]);
   (0x2C83, [0x2C82]); (0x2C85, [0x2C84]); (0x2C87, [0x2C86]);
   (0x2C89, [0x2C88]); (0x2C8B, [0x2C8A]); (0x2C8D, [0x2C8C]);
   (0x2C8F, [0x2C8E]); (0x2C91, [0x2C90]); (0x2C93, [0x2C92]);
   (0x2C95, [0x2C94]); (0x2C97, [0x2C96]); (0x2C99, [0x2C98]);
   (0x2C9B, [0x2C9A]); (0x2C9D, [0x2C9C]); (0x2C9F, [0x2C9E]);
   (0x2CA1, [0x2CA0]); (0x2CA3, [0x2CA2]); (0x2CA5, [0x2CA4]);
   (0x2CA7, [0x2CA6]); (0x2CA9, [0x2CA8]); (0x2CAB, [0x2CAA]);
   (0x2CAD, [0x2CAC]); (0x2CAF, [0x2CAE]); (0x2CB1, [0x2CB0]);
   (0x2CB3, [0x2CB2]); (0x2CB5, [0x2CB4]); (0x2CB7, [0x2CB6]);
   (0x2CB9, [0x2CB8]); (0x2CBB, [0x2CBA]); (0x2CBD, [0x2CBC]);
   (0x2CBF, [0x2CBE]); (0x2CC1, [0x2CC0]); (0x2CC3, [0x2CC2]);
   (0x2CC5, [0x2CC4]); (0x2CC7, [0x2CC6]); (0x2CC9, [0x2CC8]);
   (0x2CCB, [0x2CCA]); (0x2CCD, [0x2CCC]); (0x2CCF, [0x2CCE]);
   (0x2CD1, [0x2CD0]); (0x2CD3, [0x2CD2]); (0x2CD5, [0x2CD4]);
   (0x2CD7, [0x2CD6]); (0x2CD9, [0x2CD8]); (0x2CDB, [0x2CDA]);
   (0x2CDD, [0x2CDC]); (0x2CDF, [0x2CDE]); (0x2CE1, [0x2CE0]);
   (0x2CE3, [0x2CE2]); (0x2CEC, [0x2CEB]); (0x2CEE, [0x2CED]);
   (0x2CF3, [0x2CF2]); (0x2D00, [0x10A0]); (0x2D01, [0x10A1]);
   (0x2D02, [0x10A2]); (0x2D03, [0x10A3]); (0x2D04, [0x10A4]);
   (0x2D05, [0x10A5]); (0x2D06, [0x10A6]); (0x2D07, [0x10A7]);
   (0x2D08, [0x10A8]); (0x2D09, [0x10A9]); (0x2D0A, [0x10AA]);
   (0x2D0B, [0x10AB]); (0x2D0C, [0x10AC]); (0x2D0D, [0x10AD]);
   (0x2D0E, [0x10AE]); (0x2D0F, [0x10AF]); (0x2D10, [0x10B0]);
   (0x2D11, [0x10B1]); (0x2D12, [0x10B2]); (0x2D13, [0x10B3]);
   (0x2D14, [0x10B4]); (0x2D15, [0x10B5]); (0x2D16, [0x10B6]);
   (0x2D17, [0x10B7]); (0x2D18, [0x10B8]); (0x2D19, [0x10B9]);
   (0x2D1A, [0x10BA]); (0x2D1B, [0x10BB]); (0x2D1C, [0x10BC]);
   (0x2D1D, [0x10BD]); (0x2D1E, [0x10BE]); (0x2D1F, [0x10BF]);
   (0x2D20, [0x10C0]); (0x2D21, [0x10C1]); (0x2D22, [0x10C2]);
   (0x2D23, [0x10C3]); (0x2D24, [0x10C4]); (0x2D25, [0x10C5]);
   (0x2D27, [0x10C7]); (0x2D2D, [0x10CD]); (0xA641, [0xA640]);
   (0xA643, [0xA642]); (0xA645, [0xA644]); (0xA647, [0xA646]);
   (0xA649, [0xA648]); (0xA64B, [0xA64A]); (0xA64D, [0xA64C]);
   (0xA64F, [0xA64E]); (0xA651, [0xA650]); (0xA653, [0xA652]);
   (0xA655, [0xA654]); (0xA657, [0xA656]); (0xA659, [0xA658]);
   (0xA65B, [0xA65A]); (0xA65D, [0xA65C]); (0xA65F, [0xA65E]);
   (0xA661, [0xA660]); (0xA663, [0xA662]); (0xA665, [0xA664]);
   (0xA667, [0xA666]); (0xA669, [0xA668]); (0xA66B, [0xA66A]);
   (0xA66D, [0xA66C]); (0xA681, [0xA680]); (0xA683, [0xA682]);
   (0xA685, [0xA684]); (0xA687, [0xA686]); (0xA689, [0xA688]);
   (0xA68B, [0xA68A]); (0xA68D, [0xA68C]); (0xA68F, [0xA68E]);
   (0xA691, [0xA690]); (0xA693, [0xA692]); (0xA695, [0xA694]);
   (0xA697, [0xA696]); (0xA699, [0xA698]); (0xA69B, [0xA69A]);
   (0xA723, [0xA722]); (0xA725, [0xA724]); (0xA727, [0xA726]);
   (0xA729, [0xA728]); (0xA72B, [0xA72A]); (0xA72D, [0xA72C]);
   (0xA72F, [0xA72E]); (0xA733, [0xA732]); (0xA735, [0xA734]);
   (0xA737, [0xA736]); (0xA739, [0xA738]); (0xA73B, [0xA73A]);
   (0xA73D, [0xA73C]); (0xA73F, [0xA73E]); (0xA741, [0xA740]);
   (0xA743, [0xA742]); (0xA745, [0xA744]); (0xA747, [0xA746]);
   (0xA749, [0xA748]); (0xA74B, [0xA74A]); (0xA74D, [0xA74C]);
   (0xA74F, [0xA74E]); (0xA751, [0xA750]); (0xA753, [0xA752]);
   (0xA755, [0xA754]); (0xA757, [0xA756]); (0xA759, [0xA758]);
   (0xA75B, [0xA75A]); (0xA75D, [0xA75C]); (0xA75F, [0xA75E]);
   (0xA761, [0xA760]); (0xA763, [0xA762]); (0xA765, [0xA764]);
   (0xA767, [0xA766]); (0xA769, [0xA768]); (0xA76B, [0xA76A]);
   (0xA76D, [0xA76C]); (0xA76F, [0xA76E]); (0xA77A, [0xA779]);
   (0xA77C, [0xA77B]); (0xA77F, [0xA77E]); (0xA781, [0xA780]);
   (0xA783, [0xA782]); (0xA785, [0xA784]); (0xA787, [0xA786]);
   (0xA78C, [0xA78B]); (0xA791, [0xA790]); (0xA793, [0xA792]);
   (0xA794, [0xA7C4]); (0xA797, [0xA796]); (0xA799, [0xA798]);
   (0xA79B, [0xA79A]); (0xA79D, [0xA79C]); (0xA79F, [0xA79E]);
   (0xA7A1, [0xA7A0]); (0xA7A3, [0xA7A2]); (0xA7A5, [0xA7A4]);
   (0xA7A7, [0xA7A6]); (0xA7A9, [0xA7A8]); (0xA7B5, [0xA7B4]);
   (0xA7B7, [0xA7B6]); (0xA7B9, [0xA7B8]); (0xA7BB, [0xA7BA]);
   (0xA7BD, [0xA7BC]); (0xA7BF, [0xA7BE]); (0xA7C1, [0xA7C0]);
   (0xA7C3, [0xA7C2]); (0xA7C8, [0xA7C7]); (0xA7CA, [0xA7C9]);
   (0xA7D1, [0xA7D0]); (0xA7D7, [0xA7D6]); (0xA7D9, [0xA7D8]);
   (0xA7F6, [0xA7F5]); (0xAB53, [0xA7B3]); (0xAB70, [0x13A0]);
   (0xAB71, [0x13A1]); (0xAB72, [0x13A2]); (0xAB73, [0x13A3]);
   (0xAB74, [0x13A4]); (0xAB75, [0x13A5]); (0xAB76, [0x13A6]);
   (0xAB77, [0x13A7]); (0xAB78, [0x13A8]); (0xAB79, [0x13A9]);
   (0xAB7A, [0x13AA]); (0xAB7B, [0x13AB]); (0xAB7C, [0x13AC]);
   (0xAB7D, [0x13AD]); (0xAB7E, [0x13AE]); (0xAB7F, [0x13AF]);
   (0xAB80, [0x13B0]); (0xAB81, [0x13B1]); (0xAB82, [0x13B2]);
   (0xAB83, [0x13B3]); (0xAB84, [0x13B4]); (0xAB85, [0x13B5]);
   (0xAB86, [0x13B6]); (0xAB87, [0x13B7]); (0xAB88, [0x13B8]);
   (0xAB89, [0x13B9]); (0xAB8A, [0x13BA]); (0xAB8B, [0x13BB]);
   (0xAB8C, [0x13BC]); (0xAB8D, [0x13BD]); (0xAB8E, [0x13BE]);
   (0xAB8F, [0x13BF]); (0xAB90, [0x13C0]); (0xAB91, [0x13C1]);
   (0xAB92, [0x13C2]); (0xAB93, [0x13C3]); (0xAB94, [0x13C4]);
   (0xAB95, [0x13C5]); (0xAB96, [0x13C6]); (0xAB97, [0x13C7]);
   (0xAB98, [0x13C8]); (0xAB99, [0x13C9]); (0xAB9A, [0x13CA]);
   (0xAB9B, [0x13CB]); (0xAB9C, [0x13CC]); (0xAB9D, [0x13CD]);
   (0xAB9E, [0x13CE]); (0xAB9F, [0x13CF]); (0xABA0, [0x13D0]);
   (0xABA1, [0x13D1]); (0xABA2, [0x13D2]); (0xABA3, [0x13D3]);
   (0xABA4, [0x13D4]); (0xABA5, [0x13D5]); (0xABA6, [0x13D6]);
   (0xABA7, [0x13D7]); (0xABA8, [0x13D8]); (0xABA9, [0x13D9]);
   (0xABAA, [0x13DA]); (0xABAB, [0x13DB]); (0xABAC, [0x13DC]);
   (0xABAD, [0x13DD]); (0xABAE, [0x13DE]); (0xABAF, [0x13DF]);
   (0xABB0, [0x13E0]); (0xABB1, [0x13E1]); (0xABB2, [0x13E2]);
   (0xABB3, [0x13E3]); (0xABB4, [0x13E4]); (0xABB5, [0x13E5]);
   (0xABB6, [0x13E6]); (0xABB7, [0x13E7]); (0xABB8, [0x13E8]);
   (0xABB9, [0x13E9]); (0xABBA, [0x13EA]); (0xABBB, [0x13EB]);
   (0xABBC, [0x13EC]); (0xABBD, [0x13ED]); (0xABBE, [0x13EE]);
   (0xABBF, [0x13EF]); (0xFB00, [0x46; 0x46]); (0xFB01, [0x46; 0x49]);
   (0xFB02, [0x46; 0x4C]); (0xFB03, [0x46; 0x46; 0x49]);
   (0xFB04, [0x46; 0x46; 0x4C]); (0xFB05, [0x53; 0x54]);
   (0xFB06, [0x53; 0x54]); (0xFB13, [0x544; 0x546]); (0xFB14, [0x544; 0x535]);
   (0xFB15, [0x544; 0x53B]); (0xFB16, [0x54E; 0x546]);
   (0xFB17, [0x544; 0x53D]); (0xFF41, [0xFF21]); (0xFF42, [0xFF22]);
   (0xFF43, [0xFF23]); (0xFF44, [0xFF24]); (0xFF45, [0xFF25]);
   (0xFF46, [0xFF26]); (0xFF47, [0xFF27]); (0xFF48, [0xFF28]);
   (0xFF49, [0xFF29]); (0xFF4A, [0xFF2A]); (0xFF4B, [0xFF2B]);
   (0xFF4C, [0xFF2C]); (0xFF4D, [0xFF2D]); (0xFF4E, [0xFF2E]);
   (0xFF4F, [0xFF2F]); (0xFF50, [0xFF30]); (0xFF51, [0xFF31]);
   (0xFF52, [0xFF32]); (0xFF53, [0xFF33]); (0xFF54, [0xFF34]);
   (0xFF55, [0xFF35]); (0xFF56, [0xFF36]); (0xFF57, [0xFF37]);
   (0xFF58, [0xFF38]); (0xFF59, [0xFF39]); (0xFF5A, [0xFF3A]);
   (0x10428, [0x10400]); (0x10429, [0x10401]); (0x1042A, [0x10402]);
   (0x1042B, [0x10403]); (0x1042C, [0x10404]); (0x1042D, [0x10405]);
   (0x1042E, [0x10406]); (0x1042F, [0x10407]); (0x10430, [0x10408]);
   (0x10431, [0x10409]); (0x10432, [0x1040A]); (0x10433, [0x1040B]);
   (0x10434, [0x1040C]); (0x10435, [0x1040D]); (0x10436, [0x1040E]);
   (0x10437, [0x1040F]); (0x10438, [0x10410]); (0x10439, [0x10411]);
   (0x1043A, [0x10412]); (0x1043B, [0x10413]); (0x1043C, [0x10414]);
   (0x1043D, [0x10415]); (0x1043E, [0x10416]); (0x1043F, [0x10417]);
   (0x10440, [0x10418]); (0x10441, [0x10419]); (0x10442, [0x1041A]);
   (0x10443, [0x1041B]); (0x10444, [0x1041C]); (0x10445, [0x1041D]);
   (0x10446, [0x1041E]); (0x10447, [0x1041F]); (0x10448, [0x10420]);
   (0x10449, [0x10421]); (0x1044A, [0x10422]); (0x1044B, [0x10423]);
   (0x1044C, [0x10424]); (0x1044D, [0x10425]); (0x1044E, [0x10426]);
   (0x1044F, [0x10427]); (0x104D8, [0x104B0]); (0x104D9, [0x104B1]);
   (0x104DA, [0x104B2]); (0x104DB, [0x104B3]); (0x104DC, [0x104B4]);
   (0x104DD, [0x104B5]); (0x104DE, [0x104B6]); (0x104DF, [0x104B7]);
   (0x104E0, [0x104B8]); (0x104E1, [0x104B9]); (0x104E2, [0x104BA]);
   (0x104E3, [0x104BB]); (0x104E4, [0x104BC]); (0x104E5, [0x104BD]);
   (0x104E6, [0x104BE]); (0x104E7, [0x104BF]); (0x104E8, [0x104C0]);
   (0x104E9, [0x104C1]); (0x104EA, [0x104C2]); (0x104EB, [0x104C3]);
   (0x104EC, [0x104C4]); (0x104ED, [0x104C5]); (0x104EE, [0x104C6]);
   (0x104EF, [0x104C7]); (0x104F0, [0x104C8]); (0x104F1, [0x104C9]);
   (0x104F2, [0x104CA]); (0x104F3, [0x104CB]); (0x104F4, [0x104CC]);
   (0x104F5, [0x104CD]); (0x104F6, [0x104CE]); (0x104F7, [0x104CF]);
   (0x104F8, [0x104D0]); (0x104F9, [0x104D1]); (0x104FA, [0x104D2]);
   (0x104FB, [0x104D3]); (0x10597, [0x10570]); (0x10598, [0x10571]);
   (0x10599, [0x10572]); (0x1059A, [0x10573]); (0x1059B, [0x10574]);
   (0x1059C, [0x10575]); (0x1059D, [0x10576]); (0x1059E, [0x10577]);
   (0x1059F, [0x10578]); (0x105A0, [0x10579]); (0x105A1, [0x1057A]);
   (0x105A3, [0x1057C]); (0x105A4, [0x1057D]); (0x105A5, [0x1057E]);
   (0x105A6, [0x1057F]); (0x105A7, [0x10580]); (0x105A8, [0x10581]);
   (0x105A9, [0x10582]); (0x105AA, [0x10583]); (0x105AB, [0x10584]);
   (0x105AC, [0x10585]); (0x105AD, [0x10586]); (0x105AE, [0x10587]);
   (0x105AF, [0x10588]); (0x105B0, [0x10589]); (0x105B1, [0x1058A]);
   (0x105B3, [0x1058C]); (0x105B4, [0x1058D]); (0x105B5, [0x1058E]);
   (0x105B6, [0x1058F]); (0x105B7, [0x10590]); (0x105B8, [0x10591]);
   (0x105B9, [0x10592]); (0x105BB, [0x10594]); (0x105BC, [0x10595]);
   (0x10CC0, [0x10C80]); (0x10CC1, [0x10C81]); (0x10CC2, [0x10C82]);
   (0x10CC3, [0x10C83]); (0x10CC4, [0x10C84]); (0x10CC5, [0x10C85]);
   (0x10CC6, [0x10C86]); (0x10CC7, [0x10C87]); (0x10CC8, [0x10C88]);
   (0x10CC9, [0x10C89]); (0x10CCA, [0x10C8A]); (0x10CCB, [0x10C8B]);
   (0x10CCC, [0x10C8C]); (0x10CCD, [0x10C8D]); (0x10CCE, [0x10C8E]);
   (0x10CCF, [0x10C8F]); (0x10CD0, [0x10C90]); (0x10CD1, [0x10C91]);
   (0x10CD2, [0x10C92]); (0x10CD3, [0x10C93]); (0x10CD4, [0x10C94]);
   (0x10CD5, [0x10C95]); (0x10CD6, [0x10C96]); (0x10CD7, [0x10C97]);
   (0x10CD8, [0x10C98]); (0x10CD9, [0x10C99]); (0x10CDA, [0x10C9A]);
   (0x10CDB, [0x10C9B]); (0x10CDC, [0x10C9C]); (0x10CDD, [0x10C9D]);
   (0x10CDE, [0x10C9E]); (0x10CDF, [0x10C9F]); (0x10CE0, [0x10CA0]);
   (0x10CE1, [0x10CA1]); (0x10CE2, [0x10CA2]); (0x10CE3, [0x10CA3]);
   (0x10CE4, [0x10CA4]); (0x10CE5, [0x10CA5]); (0x10CE6, [0x10CA6]);
   (0x10CE7, [0x10CA7]); (0x10CE8, [0x10CA8]); (0x10CE9, [0x10CA9]);
   (0x10CEA, [0x10CAA]); (0x10CEB, [0x10CAB]); (0x10CEC, [0x10CAC]);
   (0x10CED, [0x10CAD]); (0x10CEE, [0x10CAE]); (0x10CEF, [0x10CAF]);
   (0x10CF0, [0x10CB0]); (0x10CF1, [0x10CB1]); (0x10CF2, [0x10CB2]);
   (0x118C0, [0x118A0]); (0x118C1, [0x118A1]); (0x118C2, [0x118A2]);
   (0x118C3, [0x118A3]); (0x118C4, [0x118A4]); (0x118C5, [0x118A5]);
   (0x118C6, [0x118A6]); (0x118C7, [0x118A7]); (0x118C8, [0x118A8]);
   (0x118C9, [0x118A9]); (0x118CA, [0x118AA]); (0x118CB, [0x118AB]);
   (0x118CC, [0x118AC]); (0x118CD, [0x118AD]); (0x118CE, [0x118AE]);
   (0x118CF, [0x118AF]); (0x118D0, [0x118B0]); (0x118D1, [0x118B1]);
   (0x118D2, [0x118B2]); (0x118D3, [0x118B3]); (0x118D4, [0x118B4]);
   (0x118D5, [0x118B5]); (0x118D6, [0x118B6]); (0x118D7, [0x118B7]);
   (0x118D8, [0x118B8]); (0x118D9, [0x118B9]); (0x118DA, [0x118BA]);
   (0x118DB, [0x118BB]); (0x118DC, [0x118BC]); (0x118DD, [0x118BD]);
   (0x118DE, [0x118BE]); (0x118DF, [0x118BF]); (0x16E60, [0x16E40]);
   (0x16E61, [0x16E41]); (0x16E62, [0x16E42]); (0x16E63, [0x16E43]);
   (0x16E64, [0x16E44]); (0x16E65, [0x16E45]); (0x16E66, [0x16E46]);
   (0x16E67, [0x16E47]); (0x16E68, [0x16E48]); (0x16E69, [0x16E49]);
   (0x16E6A, [0x16E4A]); (0x16E6B, [0x16E4B]); (0x16E6C, [0x16E4C]);
   (0x16E6D, [0x16E4D]); (0x16E6E, [0x16E4E]); (0x16E6F, [0x16E4F]);
   (0x16E70, [0x16E50]); (0x16E71, [0x16E51]); (0x16E72, [0x16E52]);
   (0x16E73, [0x16E53]); (0x16E74, [0x16E54]); (0x16E75, [0x16E55]);
   (0x16E76, [0x16E56]); (0x16E77, [0x16E57]); (0x16E78, [0x16E58]);
   (0x16E79, [0x16E59]); (0x16E7A, [0x16E5A]); (0x16E7B, [0x16E5B]);
   (0x16E7C, [0x16E5C]); (0x16E7D, [0x16E5D]); (0x16E7E, [0x16E5E]);
   (0x16E7F, [0x16E5F]); (0x1E922, [0x1E900]); (0x1E923, [0x1E901]);
   (0x1E924, [0x1E902]); (0x1E925, [0x1E903]); (0x1E926, [0x1E904]);
   (0x1E927, [0x1E905]); (0x1E928, [0x1E906]); (0x1E929, [0x1E907]);
   (0x1E92A, [0x1E908]); (0x1E92B, [0x1E909]); (0x1E92C, [0x1E90A]);
   (0x1E92D, [0x1E90B]); (0x1E92E, [0x1E90C]); (0x1E92F, [0x1E90D]);
   (0x1E930, [0x1E90E]); (0x1E931, [0x1E90F]); (0x1E932, [0x1E910]);
   (0x1E933, [0x1E911]); (0x1E934, [0x1E912]); (0x1E935, [0x1E913]);
   (0x1E936, [0x1E914]); (0x1E937, [0x1E915]); (0x1E938, [0x1E916]);
   (0x1E939, [0x1E917]); (0x1E93A, [0x1E918]); (0x1E93B, [0x1E919]);
   (0x1E93C, [0x1E91A]); (0x1E93D, [0x1E91B]); (0x1E93E, [0x1E91C]);
   (0x1E93F, [0x1E91D]); (0x1E940, [0x1E91E]); (0x1E941, [0x1E91F]);
   (0x1E942, [0x1E920]); (0x1E943, [0x1E921])]%N.

Definition upper_forms : list (string * list string) :=
  Eval vm_compute in (λ e : N * list N, (utf8 e.1, utf8 <$> e.2)) <$> upper_case.

Definition upper_code_points (u : string) : list string :=
  match find (λ e, String.eqb e.1 u) upper_forms with
  | Some e => e.2
  | None => [u]
  end.

(** [s.toUpperCase()] *)
Definition toUpperCase (s : string) : string :=
  join (code_points s ≫= upper_code_points).

Arguments trim : simpl never.
Arguments toUpperCase : simpl never.

(** A first byte followed by continuation bytes only; and such a
    string whose first byte starts a character. *)
Definition is_point (u : string) : bool :=
  match u with
  | EmptyString => false
  | String _ r => string_forallb is_continuation r
  end.

Definition is_good (u : string) : bool := is_point u && starts_character u.

(** The lists [code_points] returns: only the first element can begin
    with a stray continuation byte. *)
Definition proper (l : list string) : Prop :=
  match l with
  | [] => True
  | u :: r => is_point u = true ∧ Forall (λ v, is_good v = true) r
  end.

(** What holds of every entry of the table: the code point is one well
    delimited character and not white space, and its upper-case form is a
    non-empty list of such characters, none of which has an entry. *)
Definition upper_entry_ok (e : string * list string) : bool :=
  is_good e.1
  && negb (is_white_space e.1)
  && negb (forallb (λ v, false) e.2)
  && forallb (λ v, is_good v && negb (is_white_space v)
                   && negb (existsb (λ e', String.eqb e'.1 v) upper_forms)) e.2.

Definition is_ascii (c : ascii) : bool := (nat_of_ascii c <? 128)%nat.

(** Upper case within ASCII: [a] to [z] become [A] to [Z]. *)
Definition upper_ascii (c : ascii) : ascii :=
  let n := nat_of_ascii c in
  if (97 <=? n)%nat && (n <=? 122)%nat then ascii_of_nat (n - 32) else c.

Fixpoint string_map (f : ascii → ascii) (s : string) : string :=
  match s with
  | EmptyString => EmptyString
  | String c s' => String (f c) (string_map f s')
  end.

(** [s.split(sep)] for a one-character separator: the pieces between
    separators; always at least one piece. *)
Fixpoint split (sep : ascii) (s : string) : list string :=
  match s with
  | EmptyString => [EmptyString]
  | String c s' =>
      if Ascii.eqb c sep then EmptyString :: split sep s'
      else match split sep s' with
           | p :: ps => String c p :: ps
           | [] => [String c EmptyString]
           end
  end.

(** ** UUIDs *)

(** The textual form [uuid()] and [crypto.randomUUID()] return: groups of
    8, 4, 4, 4 and 12 lower-case hexadecimal digits joined by dashes. *)
Definition is_lower_hex (c : ascii) : bool :=
  let n := nat_of_ascii c in
  ((48 <=? n)%nat && (n <=? 57)%nat) || ((97 <=? n)%nat && (n <=? 102)%nat).

Definition is_upper_hex (c : ascii) : bool :=
  let n := nat_of_ascii c in
  ((48 <=? n)%nat && (n <=? 57)%nat) || ((65 <=? n)%nat && (n <=? 70)%nat).

(** [hex_group n gs s]: [s] starts with exactly [n] hex digits, followed
    by the end of the string when [gs] is empty, and otherwise by a dash
    and the groups [gs]. *)
Fixpoint hex_group (n : nat) (gs : list nat) (s : string) {struct s} : bool :=
  match n, s with
  | O, EmptyString => match gs with [] => true | _ => false end
  | O, String c s' =>
      match gs with
      | [] => false
      | g :: gs' => Ascii.eqb c "-" && hex_group g gs' s'
      end
  | S n', String c s' => is_lower_hex c && hex_group n' gs s'
  | S _, EmptyString => false
  end.

Definition is_uuid (u : string) : bool := hex_group 8 [4; 4; 4; 12]%nat u.

(** [shortRoomCode], applied to the value [uuid()] returned. *)
Definition shortRoomCode (u : string) : string :=
  match split "-" u with
  | g :: _ => toUpperCase g
  | [] => EmptyString
  end.

(** ** The registries *)

Inductive ReadyState := CONNECTING | OPEN | CLOSING | CLOSED.

(** A [ws] channel, as far as the server looks at it. *)
Record WebSocket := { readyState : ReadyState }.

Inductive Role := admin | viewer.

(** [sockets]: socketId -> { ws, roomCode, role }; [None] is [null]. *)
Record SocketEntry := {
  ws : WebSocket;
  roomCode : option string;
  role : option Role
}.

(** [rooms]: roomCode -> { adminId, participants: Set<socketId> }. *)
Record Room := {
  adminId : string;
  participants : list string
}.

Record State := {
  rooms : gmap string Room;
  sockets : gmap string SocketEntry
}.

Definition initial : State := {| rooms := ∅; sockets := ∅ |}.

(** [Set.prototype.add], [delete] and [has] on the insertion-ordered
    participant list. *)
Definition Set_add (x : string) (s : list string) : list string :=
  if bool_decide (x ∈ s) then s else s ++ [x].

Definition Set_delete (x : string) (s : list string) : list string :=
  filter (λ y, y ≠ x) s.

(** [Map.prototype.get] and [Set.prototype.has] with a key that is any
    JavaScript value: every key stored is a string, and only an equal
    string finds it. *)
Definition Map_get {V} (m : gmap string V) (k : JSValue) : option (string * V) :=
  match k with
  | JString s => (λ v, (s, v)) <$> m !! s
  | _ => None
  end.

Definition Set_has (s : list string) (k : JSValue) : bool :=
  match k with
  | JString x => bool_decide (x ∈ s)
  | _ => false
  end.

(** [entry.roomCode] as an operand of [&&]: [null] and the empty string
    are falsy. *)
Definition code_truthy (c : option string) : bool :=
  match c with
  | Some s => negb (String.eqb s "")
  | None => false
  end.

(** ** The handler monad *)

Inductive JSError := TypeError (what : string).

Inductive Completion (A : Type) : Type :=
| Normal (a : A)
| Abrupt (e : JSError).
Arguments Normal {A} a.
Arguments Abrupt {A} e.

(** One [ws.send(JSON.stringify(message))]: the id under which the
    channel is registered, and [message]. *)
Definition Sent : Type := string * JSValue.

(** A computation reads and writes the registries, appends to the list
    of messages written, and completes normally or throws. *)
Definition M (A : Type) : Type := State → Completion A * State * list Sent.

#[export] Instance M_ret : MRet M := λ A a st, (Normal a, st, []).

#[export] Instance M_bind : MBind M := λ A B f m st,
  match m st with
  | (Normal a, st1, out1) =>
      match f a st1 with
      | (c, st2, out2) => (c, st2, out1 ++ out2)
      end
  | (Abrupt e, st1, out1) => (Abrupt e, st1, out1)
  end.

Definition gets {A} (f : State → A) : M A := λ st, (Normal (f st), st, []).
Definition modify (f : State → State) : M unit := λ st, (Normal (), f st, []).
Definition emit (to : string) (message : JSValue) : M unit :=
  λ st, (Normal (), st, [(to, message)]).
Definition throw {A} (e : JSError) : M A := λ st, (Abrupt e, st, []).

Definition set_sockets (f : gmap string SocketEntry → gmap string SocketEntry)
  (st : State) : State :=
  {| rooms := rooms st; sockets := f (sockets st) |}.

Definition set_rooms (f : gmap string Room → gmap string Room)
  (st : State) : State :=
  {| rooms := f (rooms st); sockets := sockets st |}.

(** [l.forEach(f)] *)
Fixpoint forEach {A} (l : list A) (f : A → M unit) : M unit :=
  match l with
  | [] => mret ()
  | x :: l' => f x;; forEach l' f
  end.

(** ** server.js *)

Definition safeSend (to : string) (w : WebSocket) (message : JSValue) : M unit :=
  match readyState w with
  | OPEN => emit to message
  | _ => mret ()
  end.

Definition sendToSocket (socketId : JSValue) (type : string)
  (payload : list (string * JSValue)) : M unit :=
  entry ← gets (λ st, Map_get (sockets st) socketId);
  match entry with
  | None => mret ()
  | Some (id, entry) => safeSend id (ws entry) (spread type payload)
  end.

(** [participant.roomCode = null; participant.role = null] *)
Definition detach (e : SocketEntry) : SocketEntry :=
  {| ws := ws e; roomCode := None; role := None |}.

(** [roomCode && rooms.has(roomCode)], and then [rooms.get(roomCode)]. *)
Definition current_room (st : State) (entry : SocketEntry) : option (string * Room) :=
  if code_truthy (roomCode entry)
  then roomCode entry ≫= λ c, (λ r, (c, r)) <$> rooms st !! c
  else None.

Definition cleanupSocket (socketId : string) : M unit :=
  entry ← gets (λ st, sockets st !! socketId);
  match entry with
  | None => mret ()
  | Some entry =>
      room ← gets (λ st, current_room st entry);
      match room with
      | Some (code, room) =>
          if bool_decide (adminId room = socketId) then
            forEach (participants room) (λ participantId,
              sendToSocket (JString participantId) "room_closed" [];;
              modify (set_sockets (alter detach participantId)));;
            modify (set_rooms (delete code))
          else
            modify (set_rooms (alter (λ r,
              {| adminId := adminId r;
                 participants := Set_delete socketId (participants r) |}) code))
      | None => mret ()
      end;;
      modify (set_sockets (delete socketId))
  end.

(** [u] is the value the call of [uuid()] inside [shortRoomCode] returns. *)
Definition handleCreateRoom (u : string) (socketId : string) : M unit :=
  entry ← gets (λ st, sockets st !! socketId);
  match entry with
  | None => mret ()
  | Some _ =>
      let code := shortRoomCode u in
      modify (set_rooms (insert code {| adminId := socketId; participants := [] |}));;
      modify (set_sockets (alter (λ e,
        {| ws := ws e; roomCode := Some code; role := Some admin |}) socketId));;
      sendToSocket (JString socketId) "room_created" [("roomCode", JString code)]
  end.

(** [v.trim().toUpperCase()]: only a string has the method. *)
Definition trim_toUpperCase (v : JSValue) : M string :=
  match v with
  | JString s => mret (toUpperCase (trim s))
  | _ => throw (TypeError "trim is not a function")
  end.

Definition handleJoinRoom (socketId : string) (payload : JSValue) : M unit :=
  entry ← gets (λ st, sockets st !! socketId);
  match entry with
  | None => mret ()
  | Some _ =>
      requestedCode ← trim_toUpperCase (js_or (opt_chain payload "roomCode") (JString ""));
      room ← gets (λ st, rooms st !! requestedCode);
      match (if String.eqb requestedCode "" then None else room) with
      | None =>
          sendToSocket (JString socketId) "room_error"
            [("message", JString "Room does not exist")]
      | Some room =>
          modify (set_rooms (alter (λ r,
            {| adminId := adminId r;
               participants := Set_add socketId (participants r) |}) requestedCode));;
          modify (set_sockets (alter (λ e,
            {| ws := ws e; roomCode := Some requestedCode; role := Some viewer |})
            socketId));;
          sendToSocket (JString socketId) "room_joined"
            [("roomCode", JString requestedCode)];;
          sendToSocket (JString (adminId room)) "viewer_joined"
            [("viewerId", JString socketId)]
      end
  end.

(** [const { a, b } = payload || {}] reads [a] and [b] off the payload,
    or off an empty object. *)
Definition payload_field (payload : JSValue) (k : string) : JSValue :=
  get_prop (js_or payload (JObject [])) k.

Definition handleOffer (socketId : string) (payload : JSValue) : M unit :=
  entry ← gets (λ st, sockets st !! socketId);
  match entry with
  | Some {| role := Some admin; roomCode := code |} =>
      let viewerId := payload_field payload "viewerId" in
      let offer := payload_field payload "offer" in
      if negb (truthy viewerId) || negb (truthy offer) then mret ()
      else
        room ← gets (λ st, code ≫= λ c, rooms st !! c);
        match room with
        | None => mret ()
        | Some room =>
            if Set_has (participants room) viewerId then
              sendToSocket viewerId "receive_offer"
                [("offer", offer); ("adminId", JString socketId)]
            else mret ()
        end
  | _ => mret ()
  end.

Definition handleAnswer (socketId : string) (payload : JSValue) : M unit :=
  let adminId := payload_field payload "adminId" in
  let answer := payload_field payload "answer" in
  if negb (truthy adminId) || negb (truthy answer) then mret ()
  else sendToSocket adminId "receive_answer"
         [("viewerId", JString socketId); ("answer", answer)].

Definition handleIceCandidate (socketId : string) (payload : JSValue) : M unit :=
  let target := payload_field payload "target" in
  let candidate := payload_field payload "candidate" in
  if negb (truthy target) || negb (truthy candidate) then mret ()
  else sendToSocket target "ice_candidate"
         [("candidate", candidate); ("from", JString socketId)].

(** [const { type, ...rest } = parsed]: [null] and [undefined] cannot be
    destructured; a primitive is boxed, so [type] is [undefined] and
    [rest] holds its own enumerable properties (the indices of a string
    or of an array). *)
Definition indexed (l : list JSValue) : list (string * JSValue) :=
  imap (λ i v, (pretty i, v)) l.

Definition destructure_type_rest (parsed : JSValue) : M (JSValue * JSValue) :=
  match parsed with
  | JUndefined | JNull => throw (TypeError "Cannot destructure property 'type'")
  | JObject l => mret (default JUndefined (assoc_get "type" l),
                       JObject (assoc_remove "type" l))
  | JArray l => mret (JUndefined, JObject (indexed l))
  | JString s =>
      mret (JUndefined,
            JObject (indexed ((λ c, JString (String c EmptyString)) <$>
                              list_ascii_of_string s)))
  | JBool _ | JNumber _ => mret (JUndefined, JObject [])
  end.

(** The body of [handleMessage] after [JSON.parse] returned [parsed]. *)
Definition dispatch (u : string) (socketId : string) (parsed : JSValue) : M unit :=
  '(type, rest) ← destructure_type_rest parsed;
  match type with
  | JString t =>
      if String.eqb t "create_room" then handleCreateRoom u socketId
      else if String.eqb t "join_room" then handleJoinRoom socketId rest
      else if String.eqb t "send_offer" then handleOffer socketId rest
      else if String.eqb t "send_answer" then handleAnswer socketId rest
      else if String.eqb t "ice_candidate" then handleIceCandidate socketId rest
      else mret ()
  | _ => mret ()
  end.

Section Router.

(** [JSON.parse] belongs to the runtime: [None] when it throws a
    [SyntaxError], the value otherwise. *)
Variable JSON_parse : string → option JSValue.

Definition handleMessage (u : string) (socketId : string) (data : string) : M unit :=
  match JSON_parse data with
  | None => mret ()
  | Some parsed => dispatch u socketId parsed
  end.

End Router.

(** [wss.on("connection", ...)], with [u] the id [uuid()] returns. *)
Definition on_connection (u : string) : M unit :=
  let w := {| readyState := OPEN |} in
  modify (set_sockets (insert u {| ws := w; roomCode := None; role := None |}));;
  safeSend u w (JObject [("type", JString "socket_id"); ("socketId", JString u)]).

(** ** The server as a transition system *)

(** What the event loop delivers: a new connection, a text message that
    parsed to a value, the close or error of a channel, and the runtime
    moving a channel to another ready state. *)
Inductive Event :=
| connection (u : string)
| message (socketId : string) (u : string) (parsed : JSValue)
| close (socketId : string)
| ready (socketId : string) (s : ReadyState).

Definition handle_event (ev : Event) : M unit :=
  match ev with
  | connection u => on_connection u
  | message socketId u parsed => dispatch u socketId parsed
  | close socketId => cleanupSocket socketId
  | ready socketId s =>
      modify (set_sockets (alter (λ e,
        {| ws := {| readyState := s |}; roomCode := roomCode e; role := role e |})
        socketId))
  end.

(** Every id drawn is a UUID. *)
Definition event_ok (ev : Event) : bool :=
  match ev with
  | connection u => is_uuid u
  | message _ u _ => is_uuid u
  | close _ | ready _ _ => true
  end.

(** The states the server reaches from the empty registries through
    events that [ok] admits, none of which throws. *)
Inductive reachable_by (ok : State → Event → bool) : State → Prop :=
| reachable_initial : reachable_by ok initial
| reachable_step st ev st' out :
    reachable_by ok st →
    ok st ev = true →
    handle_event ev st = (Normal (), st', out) →
    reachable_by ok st'.

Definition reachable : State → Prop := reachable_by (λ _ ev, event_ok ev).

(** The state after a list of events, when [ok] admits each of them and
    none throws. *)
Fixpoint run_events_by (ok : State → Event → bool) (evs : list Event) (st : State)
  : option State :=
  match evs with
  | [] => Some st
  | ev :: evs' =>
      if ok st ev then
        match handle_event ev st with
        | (Normal _, st', _) => run_events_by ok evs' st'
        | (Abrupt _, _, _) => None
        end
      else None
  end.

Definition run_events : list Event → State → option State :=
  run_events_by (λ _ ev, event_ok ev).

(** The client messages of the protocol, as [JSON.parse] returns them. *)
Definition msg_create_room : JSValue := JObject [("type", JString "create_room")].
Definition msg_join_room (code : JSValue) : JSValue :=
  JObject [("type", JString "join_room"); ("roomCode", code)].
Definition msg_send_offer (viewerId offer : JSValue) : JSValue :=
  JObject [("type", JString "send_offer"); ("viewerId", viewerId); ("offer", offer)].
Definition msg_send_answer (adminId answer : JSValue) : JSValue :=
  JObject [("type", JString "send_answer"); ("adminId", adminId); ("answer", answer)].
Definition msg_ice_candidate (target candidate : JSValue) : JSValue :=
  JObject [("type", JString "ice_candidate"); ("target", target); ("candidate", candidate)].

(** ** Sample connections, rooms and states *)

Definition idA : string := "aaaaaaaa-0000-4000-8000-000000000001".
Definition idB : string := "bbbbbbbb-0000-4000-8000-000000000002".
Definition idC : string := "cccccccc-0000-4000-8000-000000000003".
Definition uuidR : string := "0000ab12-0000-4000-8000-000000000004".
Definition uuidS : string := "0000cd34-0000-4000-8000-000000000005".

Definition open_ws : WebSocket := {| readyState := OPEN |}.

(** The number 5 as a double: 5 * 2^50 * 2^-50. *)
Definition number_5 : spec_float := S754_finite false 5629499534213120 (-50).

(** A and B connected; A created room 0000AB12; B joined it. *)
Definition trace_room : list Event :=
  [connection idA; connection idB;
   message idA uuidR msg_create_room;
   message idB uuidS (msg_join_room (JString " 0000ab12 "))].

Definition st_room : State :=
  {| rooms := <["0000AB12" := {| adminId := idA; participants := [idB] |}]> ∅;
     sockets :=
       <[idA := {| ws := open_ws; roomCode := Some "0000AB12"; role := Some admin |}]>
       (<[idB := {| ws := open_ws; roomCode := Some "0000AB12"; role := Some viewer |}]> ∅) |}.

(** A and B connected; A created room 0000AB12; B is still unassigned. *)
Definition trace_open_room : list Event :=
  [connection idA; connection idB; message idA uuidR msg_create_room].

Definition unassigned_entry : SocketEntry :=
  {| ws := open_ws; roomCode := None; role := None |}.

Definition st_open_room : State :=
  {| rooms := <["0000AB12" := {| adminId := idA; participants := [] |}]> ∅;
     sockets :=
       <[idA := {| ws := open_ws; roomCode := Some "0000AB12"; role := Some admin |}]>
       (<[idB := unassigned_entry]> ∅) |}.

(** A and B connected, no room yet. *)
Definition st_lobby : State :=
  {| rooms := ∅;
     sockets := <[idA := unassigned_entry]> (<[idB := unassigned_entry]> ∅) |}.

(** A created room 0000AB12 and then room 0000CD34. *)
Definition trace_orphan : list Event :=
  [connection idA;
   message idA uuidR msg_create_room;
   message idA uuidS msg_create_room].

Definition st_orphan : State :=
  {| rooms :=
       <["0000AB12" := {| adminId := idA; participants := [] |}]>
       (<["0000CD34" := {| adminId := idA; participants := [] |}]> ∅);
     sockets :=
       <[idA := {| ws := open_ws; roomCode := Some "0000CD34"; role := Some admin |}]> ∅ |}.

(** A created room 0000AB12 and then joined it. *)
Definition trace_self : list Event :=
  [connection idA;
   message idA uuidR msg_create_room;
   message idA uuidS (msg_join_room (JString "0000ab12"))].

Definition st_self : State :=
  {| rooms := <["0000AB12" := {| adminId := idA; participants := [idA] |}]> ∅;
     sockets :=
       <[idA := {| ws := open_ws; roomCode := Some "0000AB12"; role := Some viewer |}]> ∅ |}.

(** A created room 0000AB12, C created room 0000CD34; B joined the
    first and then the second. *)
Definition trace_moved : list Event :=
  [connection idA; connection idB; connection idC;
   message idA uuidR msg_create_room;
   message idC uuidS msg_create_room;
   message idB uuidR (msg_join_room (JString "0000AB12"));
   message idB uuidR (msg_join_room (JString "0000CD34"))].

Definition st_moved : State :=
  {| rooms :=
       <["0000AB12" := {| adminId := idA; participants := [idB] |}]>
       (<["0000CD34" := {| adminId := idC; participants := [idB] |}]> ∅);
     sockets :=
       <[idA := {| ws := open_ws; roomCode := Some "0000AB12"; role := Some admin |}]>
       (<[idB := {| ws := open_ws; roomCode := Some "0000CD34"; role := Some viewer |}]>
       (<[idC := {| ws := open_ws; roomCode := Some "0000CD34"; role := Some admin |}]> ∅)) |}.

(** What one [sendToSocket] call writes: one message on the channel
    registered under the target id if that channel is open, nothing if
    the id is unknown or the channel is not open. *)
Definition delivered (socks : gmap string SocketEntry) (target : JSValue)
  (message : JSValue) : list Sent :=
  match Map_get socks target with
  | Some (id, e) =>
      match readyState (ws e) with
      | OPEN => [(id, message)]
      | _ => []
      end
  | None => []
  end.

(** The code [handleJoinRoom] looks up: [(payload?.roomCode || "")],
    trimmed and upper-cased; there is none when that value is not a
    string. *)
Definition requested_code (payload : JSValue) : option string :=
  match js_or (opt_chain payload "roomCode") (JString "") with
  | JString s => Some (toUpperCase (trim s))
  | _ => None
  end.

(** When [send_offer] is relayed: the sender is registered with role
    admin, both fields are present and truthy, the sender's room exists
    and the viewer is one of its participants. *)
Definition offer_allowed (st : State) (socketId : string) (payload : JSValue) : bool :=
  match sockets st !! socketId with
  | Some e =>
      match role e, roomCode e ≫= (λ c, rooms st !! c) with
      | Some admin, Some room =>
          truthy (payload_field payload "viewerId")
          && truthy (payload_field payload "offer")
          && Set_has (participants room) (payload_field payload "viewerId")
      | _, _ => false
      end
  | None => false
  end.

(** The registry after the [forEach] of [cleanupSocket] visited [ps]. *)
Definition detach_all (ps : list string) (socks : gmap string SocketEntry)
  : gmap string SocketEntry :=
  foldl (λ m p, alter detach p m) socks ps.

Definition created (u socketId : string) (st : State) : State :=
  {| rooms := <[shortRoomCode u := {| adminId := socketId; participants := [] |}]> (rooms st);
     sockets := alter (λ e, {| ws := ws e; roomCode := Some (shortRoomCode u);
                               role := Some admin |}) socketId (sockets st) |}.

Definition joined (code socketId : string) (st : State) : State :=
  {| rooms := alter (λ r, {| adminId := adminId r;
                             participants := Set_add socketId (participants r) |})
                code (rooms st);
     sockets := alter (λ e, {| ws := ws e; roomCode := Some code; role := Some viewer |})
                  socketId (sockets st) |}.

Definition connected (u : string) (st : State) : State :=
  set_sockets (insert u {| ws := {| readyState := OPEN |}; roomCode := None;
                           role := None |}) st.

(** The three outcomes of [cleanupSocket] on the registries. *)
Definition closed_room (code socketId : string) (room : Room) (st : State) : State :=
  {| rooms := delete code (rooms st);
     sockets := delete socketId (detach_all (participants room) (sockets st)) |}.

Definition left_room (code socketId : string) (st : State) : State :=
  {| rooms := alter (λ r, {| adminId := adminId r;
                             participants := Set_delete socketId (participants r) |})
                code (rooms st);
     sockets := delete socketId (sockets st) |}.

Definition unregistered (socketId : string) (st : State) : State :=
  {| rooms := rooms st; sockets := delete socketId (sockets st) |}.

Definition ready_changed (socketId : string) (s : ReadyState) (st : State) : State :=
  set_sockets (alter (λ e, {| ws := {| readyState := s |}; roomCode := roomCode e;
                              role := role e |}) socketId) st.

(** Clients that follow the connection state machine: a connection
    sends [create_room] or [join_room] only while it is unassigned, and
    no id is handed out twice. *)
Definition is_lifecycle (parsed : JSValue) : bool :=
  match get_prop parsed "type" with
  | JString t => String.eqb t "create_room" || String.eqb t "join_room"
  | _ => false
  end.

Definition unassigned (st : State) (socketId : string) : bool :=
  match sockets st !! socketId with
  | Some e => match role e with None => true | Some _ => false end
  | None => true
  end.

Definition disciplined (st : State) (ev : Event) : bool :=
  match ev with
  | connection u => bool_decide (sockets st !! u = None)
  | message socketId _ parsed => negb (is_lifecycle parsed) || unassigned st socketId
  | close _ | ready _ _ => true
  end.

Definition reachable_disciplined : State → Prop :=
  reachable_by (λ st ev, event_ok ev && disciplined st ev).

(** The effect of one event on the registries; under [D] the event
    came from a client that follows the state machine. *)
Inductive transition (D : Prop) (st : State) : State → Prop :=
| tr_same : transition D st st
| tr_connected u :
    is_uuid u = true → (D → sockets st !! u = None) →
    transition D st (connected u st)
| tr_created u socketId e :
    is_uuid u = true → sockets st !! socketId = Some e → (D → role e = None) →
    transition D st (created u socketId st)
| tr_joined code socketId e room :
    sockets st !! socketId = Some e → (D → role e = None) →
    code ≠ "" → rooms st !! code = Some room →
    transition D st (joined code socketId st)
| tr_closed_room code socketId e room :
    sockets st !! socketId = Some e → roomCode e = Some code → code ≠ "" →
    rooms st !! code = Some room → adminId room = socketId →
    transition D st (closed_room code socketId room st)
| tr_left_room code socketId e room :
    sockets st !! socketId = Some e → roomCode e = Some code → code ≠ "" →
    rooms st !! code = Some room → adminId room ≠ socketId →
    transition D st (left_room code socketId st)
| tr_unregistered socketId e :
    sockets st !! socketId = Some e → current_room st e = None →
    transition D st (unregistered socketId st)
| tr_ready socketId s :
    transition D st (ready_changed socketId s st).

(** The ids in the registries of [st] are among [ids]. *)
Definition ids_among (ids : string → Prop) (st : State) : Prop :=
  (∀ p, is_Some (sockets st !! p) → ids p)
  ∧ (∀ R room, rooms st !! R = Some room →
       ids (adminId room) ∧ ∀ p, p ∈ participants room → ids p).

(** A room code as [shortRoomCode] makes them. *)
Definition is_room_code (code : string) : Prop :=
  String.length code = 8%nat ∧ string_forallb is_upper_hex code = true.

(** [p] is registered with role [r] and its room field names [R]. *)
Definition attached (st : State) (p : string) (r : Role) (R : string) : Prop :=
  ∃ e, sockets st !! p = Some e ∧ role e = Some r ∧ roomCode e = Some R.

(** Every participant of every room is a registered connection with
    role viewer whose room field names that room. *)
Definition participants_attached (st : State) : Prop :=
  ∀ R room p, rooms st !! R = Some room → p ∈ participants room →
    attached st p viewer R.

(** The admin of every room is a registered connection with role admin
    whose room field names that room. *)
Definition admins_attached (st : State) : Prop :=
  ∀ R room, rooms st !! R = Some room → attached st (adminId room) admin R.

(** [p] belongs to [room] in role [r]. *)
Definition member (room : Room) (p : string) (r : Role) : Prop :=
  match r with
  | admin => adminId room = p
  | viewer => p ∈ participants room
  end.

Definition members_attached (st : State) : Prop :=
  ∀ R room p r, rooms st !! R = Some room → member room p r → attached st p r R.

(** A participant that is still registered, with its room field still
    naming the room, has role viewer. *)
Definition participants_viewers (st : State) : Prop :=
  ∀ R room p e, rooms st !! R = Some room → p ∈ participants room →
    sockets st !! p = Some e → roomCode e = Some R → role e = Some viewer.

(** [JSON.parse] on the three literal texts; enough to run the router on
    them. *)
Definition parse_literal (data : string) : option JSValue :=
  if String.eqb data "null" then Some JNull
  else if String.eqb data "true" then Some (JBool true)
  else if String.eqb data "false" then Some (JBool false)
  else None.

(** The two ways [handleMessage] throws after a successful parse: the
    text was [null], or a registered connection sent [join_room] with a
    truthy [roomCode] that is not a string. *)
Definition is_join_room (parsed : JSValue) : bool :=
  match get_prop parsed "type" with
  | JString t => String.eqb t "join_room"
  | _ => false
  end.

Definition rest_of (parsed : JSValue) : JSValue :=
  match parsed with
  | JObject l => JObject (assoc_remove "type" l)
  | _ => JObject []
  end.

Definition dispatch_throws (st : State) (socketId : string) (parsed : JSValue) : bool :=
  match parsed with
  | JUndefined | JNull => true
  | _ =>
      is_join_room parsed
      && bool_decide (is_Some (sockets st !! socketId))
      && bool_decide (requested_code (rest_of parsed) = None)
  end.

(** The nine message types the server writes. *)
Definition server_types : list string :=
  ["socket_id"; "room_created"; "room_joined"; "room_error"; "viewer_joined";
   "receive_offer"; "receive_answer"; "ice_candidate"; "room_closed"].

(** The five message types the router recognizes. *)
Definition client_types : list string :=
  ["create_room"; "join_room"; "send_offer"; "send_answer"; "ice_candidate"].

(** [socketId] is registered and its channel is open. *)
Definition open_channel (socks : gmap string SocketEntry) (socketId : string) : Prop :=
  ∃ e, socks !! socketId = Some e ∧ readyState (ws e) = OPEN.

(** What a written message is: one of the nine server types, on a
    channel that is registered and open. *)
Definition well_addressed (socks : gmap string SocketEntry) (sent : Sent) : Prop :=
  open_channel socks sent.1
  ∧ ∃ t, get_prop sent.2 "type" = JString t ∧ t ∈ server_types.

(** The field of a relayed message that names its sender. *)
Definition sender_field (type : string) : option string :=
  if String.eqb type "receive_offer" then Some "adminId"
  else if String.eqb type "receive_answer" then Some "viewerId"
  else if String.eqb type "ice_candidate" then Some "from"
  else if String.eqb type "viewer_joined" then Some "viewerId"
  else None.

(** * The page (public/script.js) *)

(** The signaling client of the page and the part of the page that runs
    without waiting for the browser's peer connection: creating the
    channel, queueing and sending, routing what arrives, asking to join a
    room, and buffering the viewer's candidates until the admin is known. *)
Module Client.

(** What the page does to the world. *)
Inductive Action :=
| ws_send (message : JSValue)          (* ws.send(JSON.stringify(message)) *)
| alert (text : JSValue)
| peer_new                             (* new RTCPeerConnection(iceServers) *)
| peer_close                           (* viewerPeer.close() *)
| setRemoteDescription (offer : JSValue)
| show_code (text : JSValue).          (* codeEl.innerText = createdCode *)

(** The variables [createSignalingClient] closes over.  A handler is
    known by a number: the listener only stores and calls it. *)
Record Socket := {
  isOpen : bool;
  readyState : ReadyState;             (* ws.readyState *)
  queuedMessages : list JSValue;
  listeners : gmap string (list nat)   (* type -> Set of handlers *)
}.

(** The globals of the page that the functions below use; [viewerPeer]
    is [true] when it holds a peer connection and [false] when [null]. *)
Record Globals := {
  mySocketId : JSValue;
  roomCode : JSValue;
  isAdmin : bool;
  viewerPeer : bool;
  viewerAdminId : JSValue;
  bufferedViewerCandidates : list JSValue
}.

Record Page := { socket : Socket; globals : Globals }.

(** The page as the script leaves it when it has loaded. *)
Definition loaded : Page :=
  {| socket := {| isOpen := false; readyState := CONNECTING; queuedMessages := [];
                  listeners := ∅ |};
     globals := {| mySocketId := JNull; roomCode := JNull; isAdmin := false;
                   viewerPeer := false; viewerAdminId := JNull;
                   bufferedViewerCandidates := [] |} |}.

Definition P (A : Type) : Type := Page → Completion A * Page * list Action.

#[local] Instance P_ret : MRet P := λ A a pg, (Normal a, pg, []).

#[local] Instance P_bind : MBind P := λ A B f m pg,
  match m pg with
  | (Normal a, pg1, acts1) =>
      match f a pg1 with
      | (c, pg2, acts2) => (c, pg2, acts1 ++ acts2)
      end
  | (Abrupt e, pg1, acts1) => (Abrupt e, pg1, acts1)
  end.

Definition read {A} (f : Page → A) : P A := λ pg, (Normal (f pg), pg, []).
Definition act (a : Action) : P unit := λ pg, (Normal (), pg, [a]).
Definition raise {A} (e : JSError) : P A := λ pg, (Abrupt e, pg, []).
Definition update_socket (f : Socket → Socket) : P unit :=
  λ pg, (Normal (), {| socket := f (socket pg); globals := globals pg |}, []).
Definition update_globals (f : Globals → Globals) : P unit :=
  λ pg, (Normal (), {| socket := socket pg; globals := f (globals pg) |}, []).

Fixpoint each {A} (l : list A) (f : A → P unit) : P unit :=
  match l with
  | [] => mret ()
  | x :: l' => f x;; each l' f
  end.

(** [===] between a value just parsed and a stored one: two objects are
    never the same object. *)
Definition strict_eq (a b : JSValue) : bool :=
  match a, b with
  | JUndefined, JUndefined | JNull, JNull => true
  | JBool x, JBool y => Bool.eqb x y
  | JNumber x, JNumber y => SFeqb x y
  | JString x, JString y => String.eqb x y
  | _, _ => false
  end.

(** ** createSignalingClient *)

Definition sendable (s : Socket) : bool :=
  isOpen s && match readyState s with OPEN => true | _ => false end.

Definition emit (type : string) (payload : list (string * JSValue)) : P unit :=
  let message := spread type payload in
  s ← read socket;
  if sendable s then act (ws_send message)
  else update_socket (λ s, {| isOpen := isOpen s; readyState := readyState s;
                              queuedMessages := queuedMessages s ++ [message];
                              listeners := listeners s |}).

(** The [open] listener: [while (queuedMessages.length)
    ws.send(queuedMessages.shift())]. *)
Definition on_open : P unit :=
  queued ← read (λ pg, queuedMessages (socket pg));
  update_socket (λ s, {| isOpen := true; readyState := readyState s;
                         queuedMessages := []; listeners := listeners s |});;
  each queued (λ message, act (ws_send message)).

Definition add_handler (handler : nat) (handlers : list nat) : list nat :=
  if bool_decide (handler ∈ handlers) then handlers else handlers ++ [handler].

Definition on (type : string) (handler : nat) : P unit :=
  update_socket (λ s, {| isOpen := isOpen s; readyState := readyState s;
                         queuedMessages := queuedMessages s;
                         listeners := <[type := add_handler handler
                                                  (default [] (listeners s !! type))]>
                                        (listeners s) |}).

(** The [message] listener after [JSON.parse] returned [payload]: the
    calls [handler(rest)] it makes, in order. *)
Definition on_message (payload : JSValue) : P (list (nat * JSValue)) :=
  match payload with
  | JUndefined | JNull => raise (TypeError "Cannot destructure property 'type'")
  | _ =>
      let type := get_prop payload "type" in
      let rest := match payload with
                  | JObject l => JObject (assoc_remove "type" l)
                  | JArray l => JObject (indexed l)
                  | JString str =>
                      JObject (indexed ((λ c, JString (String c EmptyString)) <$>
                                        list_ascii_of_string str))
                  | _ => JObject []
                  end in
      handlers ← read (λ pg, Map_get (listeners (socket pg)) type);
      mret (match handlers with
            | Some (_, handlers) => (λ handler, (handler, rest)) <$> handlers
            | None => []
            end)
  end.

(** ** Creating and joining a room *)

Definition startViewerWebRTC : P unit :=
  g ← read globals;
  if viewerPeer g then mret ()
  else
    act peer_new;;
    update_globals (λ g, {| mySocketId := mySocketId g; roomCode := roomCode g;
                            isAdmin := isAdmin g; viewerPeer := true;
                            viewerAdminId := viewerAdminId g;
                            bufferedViewerCandidates := bufferedViewerCandidates g |}).

Definition resetViewerPeer : P unit :=
  g ← read globals;
  (if viewerPeer g then act peer_close else mret ());;
  update_globals (λ g, {| mySocketId := mySocketId g; roomCode := roomCode g;
                          isAdmin := isAdmin g; viewerPeer := false;
                          viewerAdminId := JNull;
                          bufferedViewerCandidates := [] |}).

Definition createRoom : P unit :=
  g ← read globals;
  if truthy (roomCode g) then mret ()
  else
    update_globals (λ g, {| mySocketId := mySocketId g; roomCode := roomCode g;
                            isAdmin := true; viewerPeer := viewerPeer g;
                            viewerAdminId := viewerAdminId g;
                            bufferedViewerCandidates := bufferedViewerCandidates g |});;
    emit "create_room" [].

(** [joinInput] is the value of the input element, if the element exists. *)
Definition joinRoom (joinInput : option string) : P unit :=
  let code := match joinInput with Some value => trim value | None => EmptyString end in
  if String.eqb code "" then act (alert (JString "Enter room code first!"))
  else
    update_globals (λ g, {| mySocketId := mySocketId g;
                            roomCode := JString (toUpperCase code);
                            isAdmin := false; viewerPeer := viewerPeer g;
                            viewerAdminId := viewerAdminId g;
                            bufferedViewerCandidates := bufferedViewerCandidates g |});;
    resetViewerPeer;;
    emit "join_room" [("roomCode", JString (toUpperCase code))].

(** [viewerPeer.onicecandidate], with [event.candidate]. *)
Definition onicecandidate (candidate : JSValue) : P unit :=
  if truthy candidate then
    target ← read (λ pg, viewerAdminId (globals pg));
    if truthy target then emit "ice_candidate" [("target", target); ("candidate", candidate)]
    else update_globals (λ g,
           {| mySocketId := mySocketId g; roomCode := roomCode g; isAdmin := isAdmin g;
              viewerPeer := viewerPeer g; viewerAdminId := viewerAdminId g;
              bufferedViewerCandidates := bufferedViewerCandidates g ++ [candidate] |})
  else mret ().

Definition flushBufferedViewerCandidates : P unit :=
  target ← read (λ pg, viewerAdminId (globals pg));
  buffered ← read (λ pg, bufferedViewerCandidates (globals pg));
  if truthy target && negb (bool_decide (buffered = [])) then
    update_globals (λ g,
      {| mySocketId := mySocketId g; roomCode := roomCode g; isAdmin := isAdmin g;
         viewerPeer := viewerPeer g; viewerAdminId := viewerAdminId g;
         bufferedViewerCandidates := [] |});;
    each buffered (λ candidate,
      emit "ice_candidate" [("target", target); ("candidate", candidate)])
  else mret ().

(** ** Handlers of the page, applied to the rest of a message *)

(** [codeEl]: whether the page has the element that shows the code. *)
Definition on_room_created (codeEl : bool) (rest : JSValue) : P unit :=
  g ← read globals;
  if negb (isAdmin g) then mret ()
  else
    update_globals (λ g, {| mySocketId := mySocketId g;
                            roomCode := get_prop rest "roomCode";
                            isAdmin := isAdmin g; viewerPeer := viewerPeer g;
                            viewerAdminId := viewerAdminId g;
                            bufferedViewerCandidates := bufferedViewerCandidates g |});;
    if codeEl then act (show_code (get_prop rest "roomCode")) else mret ().

Definition on_room_joined (rest : JSValue) : P unit :=
  g ← read globals;
  if isAdmin g || negb (strict_eq (get_prop rest "roomCode") (roomCode g)) then mret ()
  else startViewerWebRTC.

Definition on_room_error (rest : JSValue) : P unit :=
  g ← read globals;
  if isAdmin g then mret ()
  else act (alert (js_or (get_prop rest "message") (JString "Unable to join room"))).

(** The [receive_offer] handler up to its first [await]: the call of
    [viewerPeer.setRemoteDescription(offer)]. *)
Definition on_receive_offer (rest : JSValue) : P unit :=
  g ← read globals;
  if isAdmin g then mret ()
  else
    (if viewerPeer g then mret () else startViewerWebRTC);;
    update_globals (λ g,
      {| mySocketId := mySocketId g; roomCode := roomCode g; isAdmin := isAdmin g;
         viewerPeer := viewerPeer g; viewerAdminId := get_prop rest "adminId";
         bufferedViewerCandidates := bufferedViewerCandidates g |});;
    flushBufferedViewerCandidates;;
    act (setRemoteDescription (get_prop rest "offer")).

(** ** The channel of the page as a transition system *)

(** The page calls [emit]; the browser opens the channel (once, from
    CONNECTING) and later closes it. *)
Inductive Event :=
| emits (type : string) (payload : list (string * JSValue))
| opens
| closing
| closed.

Definition set_ready (r : ReadyState) : P unit :=
  update_socket (λ s, {| isOpen := isOpen s; readyState := r;
                         queuedMessages := queuedMessages s; listeners := listeners s |}).

(** [None]: the browser never delivers this event in this state. *)
Definition step (ev : Event) (pg : Page) : option (Page * list Action) :=
  match ev with
  | emits type payload =>
      match emit type payload pg with (_, pg', acts) => Some (pg', acts) end
  | opens =>
      match readyState (socket pg) with
      | CONNECTING =>
          match (set_ready OPEN;; on_open) pg with (_, pg', acts) => Some (pg', acts) end
      | _ => None
      end
  | closing =>
      match readyState (socket pg) with
      | CONNECTING | OPEN =>
          match set_ready CLOSING pg with (_, pg', acts) => Some (pg', acts) end
      | _ => None
      end
  | closed =>
      match readyState (socket pg) with
      | CLOSED => None
      | _ => match set_ready CLOSED pg with (_, pg', acts) => Some (pg', acts) end
      end
  end.

Fixpoint run (evs : list Event) (pg : Page) : option (Page * list Action) :=
  match evs with
  | [] => Some (pg, [])
  | ev :: evs' =>
      '(pg1, acts1) ← step ev pg;
      '(pg2, acts2) ← run evs' pg1;
      Some (pg2, acts1 ++ acts2)
  end.

(** The messages written to the channel, and the messages [emit] was
    called with. *)
Definition sent (acts : list Action) : list JSValue :=
  omap (λ a, match a with ws_send m => Some m | _ => None end) acts.

Definition emitted (evs : list Event) : list JSValue :=
  omap (λ ev, match ev with emits t p => Some (spread t p) | _ => None end) evs.

End Client.

(** The page once its channel has opened. *)
Definition page_open : Client.Page :=
  {| Client.socket := {| Client.isOpen := true; Client.readyState := OPEN;
                         Client.queuedMessages := []; Client.listeners := ∅ |};
     Client.globals := Client.globals Client.loaded |}.

(** Before the channel has opened it is not OPEN, and while it is OPEN
    nothing waits in the queue. *)
Definition queue_settled (s : Client.Socket) : Prop :=
  (Client.isOpen s = false → Client.readyState s ≠ OPEN)
  ∧ (Client.readyState s = OPEN → Client.queuedMessages s = []).

(** The [ice_candidate] message the page sends for a candidate. *)
Definition candidate_message (target candidate : JSValue) : JSValue :=
  JObject [("type", JString "ice_candidate"); ("target", target);
           ("candidate", candidate)].

Definition with_buffer (buffered : list JSValue) (target : JSValue) (pg : Client.Page)
  : Client.Page :=
  {| Client.socket := Client.socket pg;
     Client.globals :=
       {| Client.mySocketId := Client.mySocketId (Client.globals pg);
          Client.roomCode := Client.roomCode (Client.globals pg);
          Client.isAdmin := Client.isAdmin (Client.globals pg);
          Client.viewerPeer := Client.viewerPeer (Client.globals pg);
          Client.viewerAdminId := target;
          Client.bufferedViewerCandidates := buffered |} |}.

(** A viewer's page: the channel is open and the peer connection exists,
    the admin is not yet known. *)
Definition page_viewer : Client.Page :=
  {| Client.socket := Client.socket page_open;
     Client.globals :=
       {| Client.mySocketId := JString idB; Client.roomCode := JString "0000AB12";
          Client.isAdmin := false; Client.viewerPeer := true;
          Client.viewerAdminId := JNull; Client.bufferedViewerCandidates := [] |} |}.

(** The handlers registered for a type, in the order they are called. *)
Definition handlers_of (pg : Client.Page) (type : string) : list nat :=
  default [] (Client.listeners (Client.socket pg) !! type).

(** * Properties *)

(** ** Strings and code points *)

Lemma append_nil_r s : s +:+ "" = s.
Proof.
  induction s as [|c s IH]; [done|].
  change (String c (s +:+ "") = String c s). by rewrite IH.
Qed.

Lemma append_assoc (a b c : string) : (a +:+ b) +:+ c = a +:+ (b +:+ c).
Proof.
  induction a as [|x a IH]; [done|].
  change (String x ((a +:+ b) +:+ c) = String x (a +:+ (b +:+ c))). by rewrite IH.
Qed.

Lemma join_app l1 l2 : join (l1 ++ l2) = join l1 +:+ join l2.
Proof.
  induction l1 as [|u l1 IH]; [done|].
  simpl. by rewrite IH, append_assoc.
Qed.

Lemma join_code_points s : join (code_points s) = s.
Proof.
  induction s as [|b s IH]; [done|]. simpl.
  destruct (code_points s) as [|u r]; simpl in *.
  - by rewrite <- IH.
  - destruct (starts_character u); simpl; by rewrite <- IH.
Qed.

Lemma good_proper l : Forall (λ v, is_good v = true) l → proper l.
Proof.
  destruct l as [|u r]; [done|]. intros H.
  apply Forall_cons in H as [[Hu _]%andb_prop Hr]. by split.
Qed.

Lemma code_points_proper s :
  proper (code_points s)
  ∧ match code_points s with
    | [] => s = ""
    | u :: _ => starts_character u = starts_character s
    end.
Proof.
  induction s as [|b s [IH Hhd]]; [done|]. simpl.
  destruct (code_points s) as [|u r].
  - split; [by split|done].
  - destruct IH as [Hu Hr].
    destruct (starts_character u) eqn:Hstart.
    + split; [|done]. split; [done|]. constructor; [|done].
      unfold is_good. by rewrite Hu, Hstart.
    + split; [|done]. split; [|done]. simpl.
      destruct u as [|c u]; [done|]. simpl in *.
      apply negb_false_iff in Hstart. by rewrite Hstart.
Qed.

Lemma code_points_continuation r :
  string_forallb is_continuation r = true →
  code_points r = match r with EmptyString => [] | _ => [r] end.
Proof.
  induction r as [|c r IH]; [done|]. simpl.
  intros [Hc Hr]%andb_prop. rewrite (IH Hr).
  destruct r as [|d r]; [done|].
  simpl in Hr. apply andb_prop in Hr as [Hd _]. simpl. by rewrite Hd.
Qed.

Lemma code_points_point u : is_point u = true → code_points u = [u].
Proof.
  destruct u as [|b r]; [done|]. simpl. intros Hr.
  rewrite (code_points_continuation r Hr).
  destruct r as [|d r]; [done|].
  simpl in Hr. apply andb_prop in Hr as [Hd _]. simpl. by rewrite Hd.
Qed.

Lemma code_points_app a b :
  starts_character b = true →
  code_points (a +:+ b) = code_points a ++ code_points b.
Proof.
  intros Hb. induction a as [|x a IH]; [done|].
  change (code_points (String x (a +:+ b)) = code_points (String x a) ++ code_points b).
  simpl. rewrite IH.
  destruct (code_points a) as [|u r]; simpl.
  - destruct (code_points_proper b) as [_ Hhd].
    destruct (code_points b) as [|v t]; [done|]. by rewrite Hhd, Hb.
  - by destruct (starts_character u).
Qed.

Lemma good_starts_join l :
  Forall (λ v, is_good v = true) l → starts_character (join l) = true.
Proof.
  destruct l as [|u r]; [done|]. intros H.
  apply Forall_cons in H as [[Hp Hs]%andb_prop _].
  destruct u; [done|]. done.
Qed.

Lemma code_points_join l : proper l → code_points (join l) = l.
Proof.
  assert (∀ r, Forall (λ v, is_good v = true) r → code_points (join r) = r) as Hgood.
  { induction r as [|v r IH]; [done|]. intros H.
    pose proof (good_starts_join _ (Forall_inv_tail H)) as Hs.
    apply Forall_cons in H as [[Hp _]%andb_prop Hr].
    simpl. rewrite code_points_app by done.
    by rewrite (code_points_point v Hp), IH. }
  destruct l as [|u r]; [done|]. intros [Hu Hr]. simpl.
  rewrite code_points_app by by apply good_starts_join.
  by rewrite (code_points_point u Hu), Hgood.
Qed.

(** *** White space *)

Lemma white_space_good u : is_white_space u = true → is_good u = true.
Proof.
  unfold is_white_space. intros H. apply existsb_exists in H as (w & Hin & Heq).
  apply String.eqb_eq in Heq as <-.
  assert (forallb is_good (utf8 <$> white_space) = true) as Hall by (vm_compute; reflexivity).
  rewrite forallb_forall in Hall. by apply Hall.
Qed.

Lemma strip_start_suffix l : ∃ k, l = k ++ strip_start l.
Proof.
  induction l as [|u r [k IH]]; [by exists []|]. simpl.
  destruct (is_white_space u); [|by exists []].
  exists (u :: k). simpl. by rewrite <- IH.
Qed.

Lemma strip_end_prefix l : ∃ k, l = strip_end l ++ k.
Proof.
  induction l as [|u r [k IH]]; [by exists []|]. simpl.
  destruct (strip_end r) as [|v t].
  - destruct (is_white_space u); [by exists (u :: r)|].
    exists r. done.
  - exists k. simpl. f_equal. exact IH.
Qed.

Lemma proper_suffix k l : proper (k ++ l) → proper l.
Proof.
  destruct k as [|u k]; [done|]. intros [_ H]. apply Forall_app in H as [_ H].
  by apply good_proper.
Qed.

Lemma proper_prefix l k : proper (l ++ k) → proper l.
Proof.
  destruct l as [|u l]; [done|]. intros [Hu H]. apply Forall_app in H as [H _]. by split.
Qed.

Lemma proper_strip l : proper l → proper (strip_end (strip_start l)).
Proof.
  intros H. destruct (strip_start_suffix l) as [k Hk].
  rewrite Hk in H. apply proper_suffix in H.
  destruct (strip_end_prefix (strip_start l)) as [k' Hk'].
  rewrite Hk' in H. by apply proper_prefix in H.
Qed.

Lemma strip_start_head l :
  match strip_start l with
  | [] => True
  | u :: _ => is_white_space u = false
  end.
Proof.
  induction l as [|u r IH]; [done|]. simpl.
  by destruct (is_white_space u) eqn:Hu; [|simpl].
Qed.

Lemma strip_end_cons u r :
  is_white_space u = false → ∃ t, strip_end (u :: r) = u :: t.
Proof. intros Hu. simpl. rewrite Hu. destruct (strip_end r); eauto. Qed.

Lemma strip_end_idem l : strip_end (strip_end l) = strip_end l.
Proof.
  induction l as [|u r IH]; [done|]. simpl.
  destruct (strip_end r) as [|v t] eqn:Hr.
  - destruct (is_white_space u) eqn:Hu; simpl; [done|]. by rewrite Hu.
  - simpl in *. by rewrite IH.
Qed.

Lemma strip_idem l :
  strip_end (strip_start (strip_end (strip_start l))) = strip_end (strip_start l).
Proof.
  pose proof (strip_start_head l) as Hhd.
  destruct (strip_start l) as [|u r]; [done|].
  destruct (strip_end_cons u r Hhd) as [t Ht]. rewrite Ht.
  change (strip_start (u :: t)) with (if is_white_space u then strip_start t else u :: t).
  rewrite Hhd, <- Ht. apply strip_end_idem.
Qed.

Lemma strip_start_blank w l :
  forallb is_white_space w = true → strip_start (w ++ l) = strip_start l.
Proof.
  induction w as [|u w IH]; [done|]. simpl.
  intros [Hu Hw]%andb_prop. rewrite Hu. auto.
Qed.

Lemma strip_end_blank l w :
  forallb is_white_space w = true → strip_end (l ++ w) = strip_end l.
Proof.
  intros Hw.
  assert (strip_end w = []) as Hnil.
  { induction w as [|u w IH]; [done|]. simpl in *.
    apply andb_prop in Hw as [Hu Hw]. by rewrite (IH Hw), Hu. }
  induction l as [|u l IH]; simpl; [done|]. by rewrite IH.
Qed.

Lemma strip_padded l w :
  forallb is_white_space w = true →
  strip_end (strip_start (l ++ w)) = strip_end (strip_start l).
Proof.
  intros Hw. induction l as [|u r IH].
  - simpl. rewrite <- (app_nil_r w). by rewrite strip_start_blank.
  - change (strip_start ((u :: r) ++ w))
      with (if is_white_space u then strip_start (r ++ w) else (u :: r) ++ w).
    change (strip_start (u :: r))
      with (if is_white_space u then strip_start r else u :: r).
    destruct (is_white_space u); [done|]. by apply strip_end_blank.
Qed.

(** *** Upper case *)

Lemma upper_forms_ok : forallb upper_entry_ok upper_forms = true.
Proof. vm_compute. reflexivity. Qed.

Lemma find_none_existsb u :
  find (λ e : string * list string, String.eqb e.1 u) upper_forms = None ↔
  existsb (λ e : string * list string, String.eqb e.1 u) upper_forms = false.
Proof.
  induction upper_forms as [|e l IH]; simpl; [done|].
  destruct (String.eqb e.1 u); simpl; [split; discriminate|done].
Qed.

Lemma upper_code_points_entry u :
  upper_code_points u = [u]
  ∨ ∃ e, In e upper_forms ∧ e.1 = u ∧ upper_code_points u = e.2.
Proof.
  unfold upper_code_points.
  destruct (find _ upper_forms) as [e|] eqn:Hfind; [right|by left].
  apply find_some in Hfind as [Hin Heq]. apply String.eqb_eq in Heq. eauto.
Qed.

Lemma upper_code_points_key v :
  existsb (λ e : string * list string, String.eqb e.1 v) upper_forms = false →
  upper_code_points v = [v].
Proof.
  intros H. apply find_none_existsb in H. unfold upper_code_points. by rewrite H.
Qed.

(** A code point either keeps its form, or has an entry: its upper-case
    form is then a non-empty list of code points none of which is white
    space or has an entry itself. *)
Lemma upper_code_points_cases u :
  upper_code_points u = [u]
  ∨ (is_good u = true ∧ is_white_space u = false
     ∧ upper_code_points u ≠ []
     ∧ Forall (λ v, is_good v = true ∧ is_white_space v = false
                    ∧ upper_code_points v = [v]) (upper_code_points u)).
Proof.
  destruct (upper_code_points_entry u) as [E|(e & Hin & <- & ->)]; [by left|right].
  pose proof upper_forms_ok as Hok. rewrite forallb_forall in Hok.
  specialize (Hok e Hin). unfold upper_entry_ok in Hok.
  apply andb_prop in Hok as [[[Hg Hw]%andb_prop Hne]%andb_prop Hall].
  split; [done|]. split; [by apply negb_true_iff|]. split.
  { intros E. rewrite E in Hne. done. }
  apply Forall_forall. intros v Hv. rewrite forallb_forall in Hall.
  apply list_elem_of_In in Hv. specialize (Hall v Hv).
  apply andb_prop in Hall as [[Hgv Hwv]%andb_prop Hkey].
  split; [done|]. split; [by apply negb_true_iff|].
  by apply upper_code_points_key, negb_true_iff.
Qed.

Lemma upper_code_points_idem u :
  upper_code_points u ≫= upper_code_points = upper_code_points u.
Proof.
  destruct (upper_code_points_cases u) as [E|(_ & _ & _ & Hall)].
  - rewrite E. simpl. by rewrite E.
  - induction Hall as [|v l (_ & _ & Hv) _ IH]; [done|].
    rewrite bind_cons, Hv, IH. done.
Qed.

Lemma upper_code_points_nonempty u : upper_code_points u ≠ [].
Proof. destruct (upper_code_points_cases u) as [E|(_ & _ & H & _)]; [by rewrite E|done]. Qed.

Lemma upper_white_space u : is_white_space u = true → upper_code_points u = [u].
Proof. intros Hu. destruct (upper_code_points_cases u) as [E|(_ & H & _)]; congruence. Qed.

Lemma upper_not_white_space u :
  is_white_space u = false → Forall (λ v, is_white_space v = false) (upper_code_points u).
Proof.
  intros Hu. destruct (upper_code_points_cases u) as [E|(_ & _ & _ & Hall)].
  - rewrite E. by constructor.
  - eapply Forall_impl; [exact Hall|]. by intros v (_ & H & _).
Qed.

Lemma upper_good u : is_good u = true → Forall (λ v, is_good v = true) (upper_code_points u).
Proof.
  intros Hu. destruct (upper_code_points_cases u) as [E|(_ & _ & _ & Hall)].
  - rewrite E. by constructor.
  - eapply Forall_impl; [exact Hall|]. by intros v (H & _).
Qed.

Lemma proper_upper l : proper l → proper (l ≫= upper_code_points).
Proof.
  assert (∀ r, Forall (λ v, is_good v = true) r →
               Forall (λ v, is_good v = true) (r ≫= upper_code_points)) as Hgood.
  { intros r Hr. apply Forall_bind. eapply Forall_impl; [exact Hr|].
    intros v Hv. by apply upper_good. }
  destruct l as [|u r]; [done|]. intros [Hu Hr]. rewrite bind_cons.
  destruct (upper_code_points_cases u) as [E|(Hg & _)].
  - rewrite E. simpl. split; [done|]. by apply Hgood.
  - apply good_proper. apply Forall_app. split; [by apply upper_good | by apply Hgood].
Qed.

Lemma bind_upper_nil l : l ≫= upper_code_points = [] → l = [].
Proof.
  destruct l as [|u r]; [done|]. rewrite bind_cons. intros H.
  apply app_eq_nil in H as [H _]. by apply upper_code_points_nonempty in H.
Qed.

Lemma strip_start_upper l :
  strip_start (l ≫= upper_code_points) = strip_start l ≫= upper_code_points.
Proof.
  induction l as [|u r IH]; [done|]. rewrite bind_cons. simpl.
  destruct (is_white_space u) eqn:Hu.
  - rewrite (upper_white_space u Hu). simpl. by rewrite Hu.
  - rewrite bind_cons. pose proof (upper_not_white_space u Hu) as Hall.
    pose proof (upper_code_points_nonempty u) as Hne.
    destruct (upper_code_points u) as [|v t]; [done|].
    apply Forall_cons in Hall as [Hv _]. simpl. by rewrite Hv.
Qed.

Lemma strip_end_app a b :
  strip_end (a ++ b) =
  match strip_end b with [] => strip_end a | t => a ++ t end.
Proof.
  induction a as [|u a IH]; simpl.
  - by destruct (strip_end b).
  - rewrite IH. destruct (strip_end b) as [|v t]; [done|].
    by destruct a.
Qed.

Lemma strip_end_all l : Forall (λ v, is_white_space v = false) l → strip_end l = l.
Proof.
  induction 1 as [|u l Hu _ IH]; [done|]. simpl. rewrite IH, Hu. by destruct l.
Qed.

Lemma strip_end_upper l :
  strip_end (l ≫= upper_code_points) = strip_end l ≫= upper_code_points.
Proof.
  induction l as [|u r IH]; [done|]. rewrite bind_cons, strip_end_app, IH. simpl.
  destruct (strip_end r) as [|v t] eqn:Hr.
  - simpl. destruct (is_white_space u) eqn:Hu.
    + rewrite (upper_white_space u Hu). simpl. by rewrite Hu.
    + rewrite bind_cons. simpl. rewrite app_nil_r.
      by apply strip_end_all, upper_not_white_space.
  - rewrite !bind_cons.
    pose proof (upper_code_points_nonempty v) as Hne.
    destruct (upper_code_points v ++ t ≫= upper_code_points) as [|x y] eqn:E; [|done].
    apply app_eq_nil in E as [E _]. done.
Qed.

(** *** [trim] and [toUpperCase] *)

Lemma code_points_trim s : code_points (trim s) = strip_end (strip_start (code_points s)).
Proof. apply code_points_join, proper_strip, code_points_proper. Qed.

Lemma code_points_toUpperCase s :
  code_points (toUpperCase s) = code_points s ≫= upper_code_points.
Proof. apply code_points_join, proper_upper, code_points_proper. Qed.

Lemma toUpperCase_idem s : toUpperCase (toUpperCase s) = toUpperCase s.
Proof.
  unfold toUpperCase at 1. rewrite code_points_toUpperCase. unfold toUpperCase. f_equal.
  induction (code_points s) as [|u r IH]; [done|].
  by rewrite !bind_cons, bind_app, upper_code_points_idem, IH.
Qed.

Lemma trim_upper s : trim (toUpperCase s) = toUpperCase (trim s).
Proof.
  unfold trim at 1. rewrite code_points_toUpperCase.
  unfold toUpperCase. rewrite code_points_trim.
  by rewrite strip_start_upper, strip_end_upper.
Qed.

Lemma trim_idem s : trim (trim s) = trim s.
Proof. unfold trim at 1. rewrite code_points_trim. unfold trim. by rewrite strip_idem. Qed.

Lemma toUpperCase_empty s : toUpperCase s = "" → s = "".
Proof.
  intros H. assert (code_points (toUpperCase s) = []) as E by by rewrite H.
  rewrite code_points_toUpperCase in E. apply bind_upper_nil in E.
  by rewrite <- (join_code_points s), E.
Qed.

Lemma is_blank_starts w : is_blank w = true → starts_character w = true.
Proof.
  unfold is_blank. intros H. destruct (code_points_proper w) as [_ Hhd].
  destruct (code_points w) as [|u r]; [by subst w|].
  simpl in H. apply andb_prop in H as [Hu _]. rewrite <- Hhd.
  apply white_space_good in Hu. by apply andb_prop in Hu as [_ Hu].
Qed.

Lemma is_text_starts s : is_text s = true → starts_character s = true.
Proof.
  unfold is_text. intros H. destruct (code_points_proper s) as [_ Hhd].
  destruct (code_points s) as [|u r]; [by subst s|].
  simpl in H. apply andb_prop in H as [Hu _]. rewrite <- Hhd.
  destruct u as [|b u]; [done|]. simpl in *.
  apply andb_prop in Hu as [_ Hu]. unfold is_continuation.
  destruct (nat_of_ascii b <? 128)%nat eqn:H1.
  { apply Nat.ltb_lt in H1. apply negb_true_iff, andb_false_iff. left.
    apply Nat.leb_gt. lia. }
  destruct (nat_of_ascii b <? 192)%nat eqn:H2; [done|].
  apply Nat.ltb_ge in H2. apply negb_true_iff, andb_false_iff. right.
  apply Nat.leb_gt. lia.
Qed.

Lemma starts_character_app a b :
  starts_character a = true → starts_character b = true →
  starts_character (a +:+ b) = true.
Proof. by destruct a. Qed.

Lemma trim_blank s : is_blank s = true → trim s = "".
Proof.
  unfold is_blank, trim. intros H.
  rewrite <- (app_nil_r (code_points s)), strip_start_blank by done. done.
Qed.

Lemma trim_padded w1 s w2 :
  is_blank w1 = true → is_blank w2 = true → starts_character s = true →
  trim (w1 +:+ s +:+ w2) = trim s.
Proof.
  intros H1 H2 Hs. unfold trim.
  rewrite !code_points_app.
  - rewrite strip_start_blank by done. f_equal. by apply strip_padded.
  - by apply is_blank_starts.
  - by apply starts_character_app, is_blank_starts.
Qed.

Lemma upper_code_points_ascii c :
  is_ascii c = true →
  upper_code_points (String c "") = [String (upper_ascii c) ""].
Proof. destruct c as [[] [] [] [] [] [] [] []]; first [discriminate | reflexivity]. Qed.

Lemma code_points_ascii s :
  string_forallb is_ascii s = true →
  code_points s = (λ c, String c "") <$> list_ascii_of_string s.
Proof.
  induction s as [|c s IH]; [done|]. simpl. intros [Hc Hs]%andb_prop.
  rewrite (IH Hs). destruct s as [|d s]; [done|]. simpl.
  simpl in Hs. apply andb_prop in Hs as [Hd _].
  assert (is_continuation d = false) as ->; [|done].
  unfold is_ascii in Hd. apply Nat.ltb_lt in Hd. unfold is_continuation.
  apply andb_false_iff. left. apply Nat.leb_gt. lia.
Qed.

Lemma toUpperCase_ascii s :
  string_forallb is_ascii s = true → toUpperCase s = string_map upper_ascii s.
Proof.
  intros H. unfold toUpperCase. rewrite (code_points_ascii s H).
  induction s as [|c s IH]; [done|]. simpl in H. apply andb_prop in H as [Hc Hs].
  cbn [list_ascii_of_string fmap list_fmap string_map]. rewrite bind_cons, join_app.
  by rewrite (upper_code_points_ascii c Hc), (IH Hs).
Qed.

(** White space and letters beyond ASCII: [trim] strips a no-break
    space, a line separator and a byte order mark, and leaves a zero
    width space, which is not white space; [toUpperCase] turns the
    ligature U+FB00 into FF, the sharp s into SS and a Deseret letter of
    the supplementary plane into its capital. *)
Lemma trim_toUpperCase_beyond_ascii :
  trim (utf8 0xA0 +:+ utf8 0x2028 +:+ "0000ab12" +:+ utf8 0xFEFF) = "0000ab12"
  ∧ trim (" a b" +:+ utf8 0x200B +:+ " ") = "a b" +:+ utf8 0x200B
  ∧ toUpperCase ("ab" +:+ utf8 0xFB00) = "ABFF"
  ∧ toUpperCase (utf8 0xDF +:+ utf8 0xE9 +:+ utf8 0x10428)
    = "SS" +:+ utf8 0xC9 +:+ utf8 0x10400.
Proof. vm_compute. by split_and!. Qed.

(** ** Room codes *)

Lemma lower_hex_not_dash c : is_lower_hex c = true → Ascii.eqb c "-" = false.
Proof. destruct c as [[] [] [] [] [] [] [] []]; first [discriminate | reflexivity]. Qed.

Lemma upper_of_lower_hex c : is_lower_hex c = true → is_upper_hex (upper_ascii c) = true.
Proof. destruct c as [[] [] [] [] [] [] [] []]; first [discriminate | reflexivity]. Qed.

(** The first piece of a string that starts with a group of [n] hex
    digits and a dash is that group. *)
Lemma split_hex_group n g gs s :
  hex_group n (g :: gs) s = true →
  ∃ p ps rest, split "-" s = p :: ps ∧ s = p +:+ "-" +:+ rest
               ∧ String.length p = n ∧ string_forallb is_lower_hex p = true.
Proof.
  revert s. induction n as [|n IH]; intros [|c s] H; simpl in H; try discriminate.
  - apply andb_prop in H as [Hc _]. simpl. rewrite Hc.
    apply Ascii.eqb_eq in Hc as ->.
    destruct (split "-" s); by eexists "", _, s.
  - apply andb_prop in H as [Hc Hs].
    destruct (IH s Hs) as (p & ps & rest & Hsp & -> & Hlen & Hall).
    exists (String c p), ps, rest. simpl.
    rewrite (lower_hex_not_dash c Hc), Hsp, Hc, Hall, Hlen. auto.
Qed.

Lemma lower_hex_ascii s :
  string_forallb is_lower_hex s = true → string_forallb is_ascii s = true.
Proof.
  induction s as [|c s IH]; [done|]. simpl. intros [Hc Hs]%andb_prop.
  rewrite (IH Hs), andb_true_r. revert Hc.
  destruct c as [[] [] [] [] [] [] [] []]; first [discriminate | reflexivity].
Qed.

Lemma string_map_length f s : String.length (string_map f s) = String.length s.
Proof. induction s; simpl; congruence. Qed.

Lemma upper_hex_digits s :
  string_forallb is_lower_hex s = true →
  string_forallb is_upper_hex (string_map upper_ascii s) = true.
Proof.
  induction s as [|c s IH]; simpl; [done|].
  intros [Hc Hs]%andb_prop. by rewrite (upper_of_lower_hex c Hc), IH.
Qed.

(** The room code is the first group of the UUID with [a] to [f] turned
    into [A] to [F]. *)
Lemma shortRoomCode_group u :
  is_uuid u = true →
  ∃ group rest,
    u = group +:+ "-" +:+ rest
    ∧ String.length group = 8%nat
    ∧ string_forallb is_lower_hex group = true
    ∧ shortRoomCode u = toUpperCase group
    ∧ toUpperCase group = string_map upper_ascii group.
Proof.
  intros H.
  destruct (split_hex_group _ _ _ _ H) as (p & ps & rest & Hsp & Hu & Hlen & Hall).
  exists p, rest. unfold shortRoomCode. rewrite Hsp.
  split_and!; try done. by apply toUpperCase_ascii, lower_hex_ascii.
Qed.

Lemma shortRoomCode_shape u :
  is_uuid u = true →
  String.length (shortRoomCode u) = 8%nat
  ∧ string_forallb is_upper_hex (shortRoomCode u) = true.
Proof.
  intros H.
  destruct (shortRoomCode_group u H) as (g & rest & _ & Hlen & Hall & -> & ->).
  split; [by rewrite string_map_length | by apply upper_hex_digits].
Qed.

Lemma shortRoomCode_nonempty u : is_uuid u = true → shortRoomCode u ≠ "".
Proof.
  intros H E. destruct (shortRoomCode_shape u H) as [Hlen _].
  rewrite E in Hlen. discriminate.
Qed.

(** ** Running computations *)

Lemma run_bind {A B} (m : M A) (f : A → M B) st :
  (m ≫= f) st =
  match m st with
  | (Normal a, st1, out1) =>
      match f a st1 with
      | (c, st2, out2) => (c, st2, out1 ++ out2)
      end
  | (Abrupt e, st1, out1) => (Abrupt e, st1, out1)
  end.
Proof. reflexivity. Qed.

Lemma run_bind_gets {A B} (g : State → A) (f : A → M B) st :
  (gets g ≫= f) st = f (g st) st.
Proof. rewrite run_bind. unfold gets. by destruct (f (g st) st) as [[??]?]. Qed.

Lemma run_bind_modify {B} (g : State → State) (f : unit → M B) st :
  (modify g ≫= f) st = f () (g st).
Proof. rewrite run_bind. unfold modify. by destruct (f () (g st)) as [[??]?]. Qed.

Lemma run_bind_ret {A B} (a : A) (f : A → M B) st :
  (mret a ≫= f) st = f a st.
Proof. rewrite run_bind. unfold mret, M_ret. by destruct (f a st) as [[??]?]. Qed.

Lemma run_ret {A} (a : A) st : (mret a : M A) st = (Normal a, st, []).
Proof. reflexivity. Qed.

Lemma sendToSocket_run target type payload st :
  sendToSocket target type payload st =
  (Normal (), st, delivered (sockets st) target (spread type payload)).
Proof.
  unfold sendToSocket, delivered. rewrite run_bind_gets.
  destruct (Map_get (sockets st) target) as [[id e]|]; [|done].
  unfold safeSend. by destruct (readyState (ws e)).
Qed.

Lemma delivered_open socks id e message :
  socks !! id = Some e → readyState (ws e) = OPEN →
  delivered socks (JString id) message = [(id, message)].
Proof. intros H Ho. unfold delivered. simpl. by rewrite H; simpl; rewrite Ho. Qed.

Lemma delivered_unknown socks id message :
  socks !! id = None → delivered socks (JString id) message = [].
Proof. intros H. unfold delivered. simpl. by rewrite H. Qed.

(** A field that is absent from the payload reads as [undefined], which
    is falsy, like [null], [false], [0], [NaN] and the empty string. *)
Lemma payload_field_missing l k :
  assoc_get k l = None → payload_field (JObject l) k = JUndefined.
Proof. intros H. unfold payload_field, js_or. simpl. by rewrite H. Qed.

Lemma handleAnswer_run socketId payload st :
  handleAnswer socketId payload st =
  if truthy (payload_field payload "adminId") && truthy (payload_field payload "answer")
  then sendToSocket (payload_field payload "adminId") "receive_answer"
         [("viewerId", JString socketId); ("answer", payload_field payload "answer")] st
  else (Normal (), st, []).
Proof.
  unfold handleAnswer.
  by destruct (truthy (payload_field payload "adminId")),
              (truthy (payload_field payload "answer")).
Qed.

Lemma handleIceCandidate_run socketId payload st :
  handleIceCandidate socketId payload st =
  if truthy (payload_field payload "target") && truthy (payload_field payload "candidate")
  then sendToSocket (payload_field payload "target") "ice_candidate"
         [("candidate", payload_field payload "candidate"); ("from", JString socketId)] st
  else (Normal (), st, []).
Proof.
  unfold handleIceCandidate.
  by destruct (truthy (payload_field payload "target")),
              (truthy (payload_field payload "candidate")).
Qed.

(** ** The handlers, run *)

Lemma handleOffer_run socketId payload st :
  handleOffer socketId payload st =
  (Normal (), st,
   if offer_allowed st socketId payload
   then delivered (sockets st) (payload_field payload "viewerId")
          (spread "receive_offer"
             [("offer", payload_field payload "offer"); ("adminId", JString socketId)])
   else []).
Proof.
  unfold handleOffer, offer_allowed. rewrite run_bind_gets.
  destruct (sockets st !! socketId) as [[w code [[]|]]|]; simpl; try done.
  destruct (truthy (payload_field payload "viewerId")),
           (truthy (payload_field payload "offer")); simpl;
    try by destruct (code ≫= _).
  rewrite run_bind_gets.
  destruct (code ≫= _) as [room|]; [|done].
  destruct (Set_has _ _); [|done]. apply sendToSocket_run.
Qed.

Lemma handleCreateRoom_run u socketId st :
  handleCreateRoom u socketId st =
  match sockets st !! socketId with
  | None => (Normal (), st, [])
  | Some _ =>
      (Normal (), created u socketId st,
       delivered (sockets (created u socketId st)) (JString socketId)
         (spread "room_created" [("roomCode", JString (shortRoomCode u))]))
  end.
Proof.
  unfold handleCreateRoom. rewrite run_bind_gets.
  destruct (sockets st !! socketId); [|done].
  rewrite !run_bind_modify. apply sendToSocket_run.
Qed.

Lemma handleJoinRoom_run socketId payload st :
  handleJoinRoom socketId payload st =
  match sockets st !! socketId with
  | None => (Normal (), st, [])
  | Some _ =>
      match requested_code payload with
      | None => (Abrupt (TypeError "trim is not a function"), st, [])
      | Some code =>
          match (if String.eqb code "" then None else rooms st !! code) with
          | None =>
              (Normal (), st,
               delivered (sockets st) (JString socketId)
                 (spread "room_error" [("message", JString "Room does not exist")]))
          | Some room =>
              (Normal (), joined code socketId st,
               delivered (sockets (joined code socketId st)) (JString socketId)
                 (spread "room_joined" [("roomCode", JString code)])
               ++ delivered (sockets (joined code socketId st)) (JString (adminId room))
                    (spread "viewer_joined" [("viewerId", JString socketId)]))
          end
      end
  end.
Proof.
  unfold handleJoinRoom, requested_code. rewrite run_bind_gets.
  destruct (sockets st !! socketId); [|done].
  destruct (js_or _ _) as [| |?|?|str|?|?]; try done.
  unfold trim_toUpperCase. rewrite run_bind_ret, run_bind_gets.
  destruct (if String.eqb _ _ then _ else _) as [room|].
  - rewrite !run_bind_modify, run_bind, !sendToSocket_run. done.
  - apply sendToSocket_run.
Qed.

Lemma delivered_alter_ws f p socks target message :
  (∀ e, ws (f e) = ws e) →
  delivered (alter f p socks) target message = delivered socks target message.
Proof.
  intros Hf. unfold delivered, Map_get. destruct target; try done.
  rewrite lookup_alter. case_decide as Heq; [|done]. rewrite Heq.
  destruct (socks !! _); simpl; [by rewrite Hf | done].
Qed.

Lemma forEach_room_closed ps st :
  forEach ps (λ participantId,
    sendToSocket (JString participantId) "room_closed" [];;
    modify (set_sockets (alter detach participantId))) st =
  (Normal (), set_sockets (detach_all ps) st,
   flat_map (λ p, delivered (sockets st) (JString p) (spread "room_closed" [])) ps).
Proof.
  revert st. induction ps as [|p ps IH]; intros st.
  - by destruct st.
  - simpl. rewrite run_bind, run_bind, sendToSocket_run. simpl.
    rewrite IH. simpl. rewrite app_nil_r. do 2 f_equal.
    apply flat_map_ext. intros q. by apply delivered_alter_ws.
Qed.

Lemma cleanupSocket_run socketId st :
  cleanupSocket socketId st =
  match sockets st !! socketId with
  | None => (Normal (), st, [])
  | Some entry =>
      match current_room st entry with
      | Some (code, room) =>
          if bool_decide (adminId room = socketId) then
            (Normal (), closed_room code socketId room st,
             flat_map (λ p, delivered (sockets st) (JString p) (spread "room_closed" []))
               (participants room))
          else (Normal (), left_room code socketId st, [])
      | None => (Normal (), unregistered socketId st, [])
      end
  end.
Proof.
  unfold cleanupSocket. rewrite run_bind_gets.
  destruct (sockets st !! socketId) as [entry|]; [|done].
  rewrite run_bind_gets.
  destruct (current_room st entry) as [[code room]|]; [|done].
  case_bool_decide.
  - rewrite run_bind, run_bind, forEach_room_closed. simpl.
    by rewrite !app_nil_r.
  - done.
Qed.

Lemma detach_all_lookup ps socks q :
  detach_all ps socks !! q =
  if bool_decide (q ∈ ps) then detach <$> socks !! q else socks !! q.
Proof.
  revert socks. induction ps as [|p ps IH]; intros socks; [done|].
  unfold detach_all in *. simpl. rewrite IH, lookup_alter.
  destruct (decide (p = q)) as [->|Hne].
  - rewrite (bool_decide_eq_true_2 (q ∈ q :: ps)) by set_solver.
    case_bool_decide; [|done]. by destruct (socks !! q).
  - case_bool_decide.
    + by rewrite (bool_decide_eq_true_2 (q ∈ p :: ps)) by set_solver.
    + rewrite (bool_decide_eq_false_2 (q ∈ p :: ps)); [done|].
      by intros [?|?]%elem_of_cons.
Qed.

Lemma current_room_Some st entry code room :
  current_room st entry = Some (code, room) ↔
  roomCode entry = Some code ∧ code ≠ "" ∧ rooms st !! code = Some room.
Proof.
  unfold current_room, code_truthy. destruct (roomCode entry) as [c|]; simpl.
  - destruct (String.eqb_spec c ""); simpl.
    + split; [done|]. intros (? & ? & ?). congruence.
    + destruct (rooms st !! c) eqn:E; simpl; split.
      * intros [= <- <-]. done.
      * intros ([= <-] & _ & H). rewrite E in H. by injection H as <-.
      * done.
      * intros ([= <-] & _ & H). congruence.
  - split; [done|]. by intros ([=] & _).
Qed.

(** ** Events as transitions *)

Lemma cleanupSocket_transition D socketId st st' out :
  cleanupSocket socketId st = (Normal (), st', out) → transition D st st'.
Proof.
  rewrite cleanupSocket_run.
  destruct (sockets st !! socketId) as [e|] eqn:He.
  - destruct (current_room st e) as [[code room]|] eqn:Hr.
    + apply current_room_Some in Hr as (Hc & Hne & Hroom).
      case_bool_decide; intros [= <- _]; by econstructor.
    + intros [= <- _]. by econstructor.
  - intros [= <- _]. constructor.
Qed.

Lemma handleCreateRoom_transition (D : Prop) u socketId st st' out :
  is_uuid u = true → (D → unassigned st socketId = true) →
  handleCreateRoom u socketId st = (Normal (), st', out) → transition D st st'.
Proof.
  intros Hu Hd. rewrite handleCreateRoom_run. unfold unassigned in Hd.
  destruct (sockets st !! socketId) as [e|] eqn:He; intros [= <- _]; [|constructor].
  econstructor; [done..|]. intros d. specialize (Hd d). by destruct (role e).
Qed.

Lemma handleJoinRoom_transition (D : Prop) socketId payload st st' out :
  (D → unassigned st socketId = true) →
  handleJoinRoom socketId payload st = (Normal (), st', out) → transition D st st'.
Proof.
  intros Hd. rewrite handleJoinRoom_run. unfold unassigned in Hd.
  destruct (sockets st !! socketId) as [e|] eqn:He; [|intros [= <- _]; constructor].
  destruct (requested_code payload) as [code|]; [|done].
  destruct (String.eqb_spec code ""); [intros [= <- _]; constructor|].
  destruct (rooms st !! code) as [room|] eqn:Hr; intros [= <- _]; [|constructor].
  econstructor; [done| |done..]. intros d. specialize (Hd d). by destruct (role e).
Qed.

Lemma dispatch_transition (D : Prop) u socketId parsed st st' out :
  is_uuid u = true →
  (D → negb (is_lifecycle parsed) || unassigned st socketId = true) →
  dispatch u socketId parsed st = (Normal (), st', out) → transition D st st'.
Proof.
  intros Hu Hd. unfold dispatch.
  destruct parsed as [| |b|x|str|l|l]; simpl; try done;
    rewrite run_bind_ret; try (intros [= <- _]; constructor).
  unfold is_lifecycle in Hd. simpl in Hd.
  destruct (default JUndefined (assoc_get "type" l)) as [| |?|?|t|?|?];
    try (intros [= <- _]; constructor).
  destruct (String.eqb t "create_room") eqn:E1.
  { apply handleCreateRoom_transition; [done|]. intros d. by apply Hd. }
  destruct (String.eqb t "join_room") eqn:E2.
  { apply handleJoinRoom_transition. intros d. by apply Hd. }
  destruct (String.eqb t "send_offer").
  { rewrite handleOffer_run. intros [= <- _]. constructor. }
  destruct (String.eqb t "send_answer").
  { rewrite handleAnswer_run.
    destruct (_ && _); [rewrite sendToSocket_run|]; intros [= <- _]; constructor. }
  destruct (String.eqb t "ice_candidate").
  { rewrite handleIceCandidate_run.
    destruct (_ && _); [rewrite sendToSocket_run|]; intros [= <- _]; constructor. }
  intros [= <- _]. constructor.
Qed.

Lemma handle_event_transition (D : Prop) ev st st' out :
  event_ok ev = true → (D → disciplined st ev = true) →
  handle_event ev st = (Normal (), st', out) → transition D st st'.
Proof.
  intros Hok Hd. destruct ev as [u|socketId u parsed|socketId|socketId s]; simpl in *.
  - unfold on_connection. rewrite run_bind_modify. unfold safeSend. simpl.
    intros [= <- _]. constructor; [done|]. intros d. specialize (Hd d). by case_bool_decide.
  - by apply dispatch_transition.
  - apply cleanupSocket_transition.
  - intros [= <- _]. constructor.
Qed.

(** An invariant of the transitions holds in every reachable state. *)
Lemma reachable_ind_transition (P : State → Prop) :
  P initial →
  (∀ st st', P st → transition False st st' → P st') →
  ∀ st, reachable st → P st.
Proof.
  intros H0 Hstep st Hr. induction Hr as [|st ev st' out _ IH Hok Hrun]; [done|].
  apply (Hstep st); [done|]. eapply handle_event_transition; [done| |done]. done.
Qed.

Lemma reachable_disciplined_ind_transition (P : State → Prop) :
  P initial →
  (∀ st st', P st → transition True st st' → P st') →
  ∀ st, reachable_disciplined st → P st.
Proof.
  intros H0 Hstep st Hr. induction Hr as [|st ev st' out _ IH Hok Hrun]; [done|].
  apply andb_prop in Hok as [Hok Hd].
  apply (Hstep st); [done|]. eapply handle_event_transition; [done| |done]. done.
Qed.

Lemma reachable_disciplined_reachable st : reachable_disciplined st → reachable st.
Proof.
  induction 1 as [|st ev st' out _ IH Hok Hrun]; [constructor|].
  apply andb_prop in Hok as [Hok _]. by econstructor.
Qed.

(** ** Sample states are reachable *)

Lemma run_events_by_reachable ok evs st st' :
  reachable_by ok st → run_events_by ok evs st = Some st' → reachable_by ok st'.
Proof.
  revert st. induction evs as [|ev evs IH]; intros st Hr; simpl.
  - by intros [= <-].
  - destruct (ok st ev) eqn:Hok; [|done].
    destruct (handle_event ev st) as [[[[]|?] st1] out] eqn:Hrun; [|done].
    apply IH. by econstructor.
Qed.

Lemma run_events_reachable evs st st' :
  reachable st → run_events evs st = Some st' → reachable st'.
Proof. apply run_events_by_reachable. Qed.

Lemma st_room_run : run_events trace_room initial = Some st_room.
Proof. vm_compute. reflexivity. Qed.

Lemma st_self_run : run_events trace_self initial = Some st_self.
Proof. vm_compute. reflexivity. Qed.

Lemma st_moved_run : run_events trace_moved initial = Some st_moved.
Proof. vm_compute. reflexivity. Qed.

Lemma st_room_reachable : reachable st_room.
Proof. exact (run_events_reachable _ _ _ (reachable_initial _) st_room_run). Qed.

Lemma st_self_reachable : reachable st_self.
Proof. exact (run_events_reachable _ _ _ (reachable_initial _) st_self_run). Qed.

Lemma st_moved_reachable : reachable st_moved.
Proof. exact (run_events_reachable _ _ _ (reachable_initial _) st_moved_run). Qed.

(** ** Invariants of the registries *)

Lemma is_room_code_nonempty code : is_room_code code → code ≠ "".
Proof. intros [Hlen _] ->. discriminate. Qed.

Lemma transition_rooms D st st' R room' :
  transition D st st' → rooms st' !! R = Some room' →
  (∃ u, is_uuid u = true ∧ R = shortRoomCode u) ∨ is_Some (rooms st !! R).
Proof.
  intros Ht Hl. destruct Ht; simpl in Hl; eauto.
  - apply lookup_insert_Some in Hl as [[<- _]|[_ Hl]]; eauto.
  - apply lookup_alter_Some in Hl as [(_ & r & Hr & _)|[_ Hl]]; eauto.
  - apply lookup_delete_Some in Hl as [_ Hl]. eauto.
  - apply lookup_alter_Some in Hl as [(_ & r & Hr & _)|[_ Hl]]; eauto.
Qed.

(** Every key of the room registry is eight upper-case hex digits. *)
Lemma reachable_room_codes st :
  reachable st → ∀ R room, rooms st !! R = Some room → is_room_code R.
Proof.
  intros Hr. induction Hr as [|st st' IH Ht] using reachable_ind_transition.
  - intros R room H. simpl in H. by rewrite lookup_empty in H.
  - intros R room H.
    destruct (transition_rooms _ _ _ _ _ Ht H) as [(u & Hu & ->)|[r Hr]].
    + by apply shortRoomCode_shape.
    + by eapply IH.
Qed.

Lemma reachable_room_nonempty st R room :
  reachable st → rooms st !! R = Some room → R ≠ "".
Proof. intros Hr H. eapply is_room_code_nonempty, reachable_room_codes; eauto. Qed.

Lemma st_open_room_run : run_events trace_open_room initial = Some st_open_room.
Proof. vm_compute. reflexivity. Qed.

Lemma st_open_room_reachable : reachable st_open_room.
Proof. exact (run_events_reachable _ _ _ (reachable_initial _) st_open_room_run). Qed.

Lemma st_lobby_run : run_events [connection idA; connection idB] initial = Some st_lobby.
Proof. vm_compute. reflexivity. Qed.

(** ** Room creation *)

(** C10: every room code [create_room] generates is the first
    dash-separated group of the UUID drawn, upper-cased: the UUID is that
    group of eight lower-case hexadecimal digits, a dash and the rest, and
    the code is the group with [a] to [f] turned into [A] to [F].  So it
    is exactly eight characters long and consists of upper-case
    hexadecimal digits only, whatever UUID the generator draws; the room
    is stored under that code and the requester becomes its admin. *)
Theorem create_room_code u socketId e st :
  is_uuid u = true →
  sockets st !! socketId = Some e →
  ∃ group rest st' out,
    u = group +:+ "-" +:+ rest
    ∧ String.length group = 8%nat
    ∧ string_forallb is_lower_hex group = true
    ∧ shortRoomCode u = toUpperCase group
    ∧ toUpperCase group = string_map upper_ascii group
    ∧ handleCreateRoom u socketId st = (Normal (), st', out)
    ∧ String.length (shortRoomCode u) = 8%nat
    ∧ string_forallb is_upper_hex (shortRoomCode u) = true
    ∧ rooms st' !! shortRoomCode u = Some {| adminId := socketId; participants := [] |}
    ∧ sockets st' !! socketId =
        Some {| ws := ws e; roomCode := Some (shortRoomCode u); role := Some admin |}
    ∧ out = delivered (sockets st) (JString socketId)
              (JObject [("type", JString "room_created");
                        ("roomCode", JString (shortRoomCode u))]).
Proof.
  intros Hu He. rewrite handleCreateRoom_run, He.
  destruct (shortRoomCode_shape u Hu) as [Hlen Hhex].
  destruct (shortRoomCode_group u Hu) as (group & rest & Hsplit & Hg & Hlower & Hcode & Hup).
  exists group, rest. eexists _, _. do 5 (split; [done|]).
  split; [reflexivity|]. repeat split; try done.
  - simpl. apply lookup_insert_eq.
  - simpl. by rewrite lookup_alter_eq, He.
  - simpl. by apply delivered_alter_ws.
Qed.

(** The UUID 0000ab12-0000-4000-8000-000000000004 gives the code
    0000AB12. *)
Lemma create_room_code_witness :
  is_uuid uuidR = true
  ∧ sockets st_lobby !! idA = Some unassigned_entry
  ∧ shortRoomCode uuidR = "0000AB12"
  ∧ ∃ group rest st' out,
      uuidR = group +:+ "-" +:+ rest
      ∧ String.length group = 8%nat
      ∧ string_forallb is_lower_hex group = true
      ∧ "0000AB12" = toUpperCase group
      ∧ toUpperCase group = string_map upper_ascii group
      ∧ handleCreateRoom uuidR idA st_lobby = (Normal (), st', out)
      ∧ String.length "0000AB12" = 8%nat
      ∧ string_forallb is_upper_hex "0000AB12" = true
      ∧ rooms st' !! "0000AB12" = Some {| adminId := idA; participants := [] |}
      ∧ sockets st' !! idA =
          Some {| ws := ws unassigned_entry; roomCode := Some "0000AB12";
                  role := Some admin |}
      ∧ out = delivered (sockets st_lobby) (JString idA)
                (JObject [("type", JString "room_created");
                          ("roomCode", JString "0000AB12")]).
Proof.
  split; [reflexivity|]. split; [reflexivity|]. split; [reflexivity|].
  apply (create_room_code uuidR idA unassigned_entry st_lobby); reflexivity.
Defined.

(** ** Relaying answers and candidates *)

(** C9: a [send_answer] whose [adminId] or [answer] is missing or falsy,
    and an [ice_candidate] whose [target] or [candidate] is missing or
    falsy, sends nothing and changes no state. *)
Theorem relay_needs_both_fields socketId payload st :
  (truthy (payload_field payload "adminId") = false
   ∨ truthy (payload_field payload "answer") = false →
   handleAnswer socketId payload st = (Normal (), st, []))
  ∧ (truthy (payload_field payload "target") = false
     ∨ truthy (payload_field payload "candidate") = false →
     handleIceCandidate socketId payload st = (Normal (), st, [])).
Proof.
  split; intros H.
  - rewrite handleAnswer_run.
    destruct H as [-> | ->]; [done|]. by rewrite andb_false_r.
  - rewrite handleIceCandidate_run.
    destruct H as [-> | ->]; [done|]. by rewrite andb_false_r.
Qed.

Lemma relay_needs_both_fields_witness :
  let payload := JObject [("adminId", JString idA); ("candidate", JNull)] in
  (truthy (payload_field payload "adminId") = false
   ∨ truthy (payload_field payload "answer") = false)
  ∧ (truthy (payload_field payload "target") = false
     ∨ truthy (payload_field payload "candidate") = false)
  ∧ handleAnswer idB payload st_room = (Normal (), st_room, [])
  ∧ handleIceCandidate idB payload st_room = (Normal (), st_room, []).
Proof.
  intros payload.
  assert (Ha : truthy (payload_field payload "adminId") = false
               ∨ truthy (payload_field payload "answer") = false)
    by (right; reflexivity).
  assert (Hc : truthy (payload_field payload "target") = false
               ∨ truthy (payload_field payload "candidate") = false)
    by (left; reflexivity).
  split; [exact Ha|]. split; [exact Hc|]. split.
  - exact (proj1 (relay_needs_both_fields idB payload st_room) Ha).
  - exact (proj2 (relay_needs_both_fields idB payload st_room) Hc).
Defined.

(** C6, as the code has it: when both fields are present and truthy,
    [send_answer] and [ice_candidate] hand the message to the target id
    as supplied; neither the sender's entry nor any room is consulted, so
    the outcome depends on the target's channel alone. *)
Theorem relay_to_literal_target socketId payload st :
  (truthy (payload_field payload "adminId") = true →
   truthy (payload_field payload "answer") = true →
   handleAnswer socketId payload st =
   (Normal (), st,
    delivered (sockets st) (payload_field payload "adminId")
      (JObject [("type", JString "receive_answer");
                ("viewerId", JString socketId);
                ("answer", payload_field payload "answer")])))
  ∧ (truthy (payload_field payload "target") = true →
     truthy (payload_field payload "candidate") = true →
     handleIceCandidate socketId payload st =
     (Normal (), st,
      delivered (sockets st) (payload_field payload "target")
        (JObject [("type", JString "ice_candidate");
                  ("candidate", payload_field payload "candidate");
                  ("from", JString socketId)]))).
Proof.
  split; intros H1 H2.
  - by rewrite handleAnswer_run, H1, H2, sendToSocket_run.
  - by rewrite handleIceCandidate_run, H1, H2, sendToSocket_run.
Qed.

(** C sits in no room and is not even registered in [st_room]; its
    answer and its candidate reach A all the same. *)
Lemma relay_to_literal_target_witness :
  let payload := JObject [("adminId", JString idA); ("answer", JString "sdp");
                          ("target", JString idA); ("candidate", JString "c")] in
  truthy (payload_field payload "adminId") = true
  ∧ truthy (payload_field payload "answer") = true
  ∧ truthy (payload_field payload "target") = true
  ∧ truthy (payload_field payload "candidate") = true
  ∧ handleAnswer idC payload st_room =
    (Normal (), st_room,
     delivered (sockets st_room) (payload_field payload "adminId")
       (JObject [("type", JString "receive_answer");
                 ("viewerId", JString idC);
                 ("answer", payload_field payload "answer")]))
  ∧ handleIceCandidate idC payload st_room =
    (Normal (), st_room,
     delivered (sockets st_room) (payload_field payload "target")
       (JObject [("type", JString "ice_candidate");
                 ("candidate", payload_field payload "candidate");
                 ("from", JString idC)])).
Proof.
  intros payload. do 4 (split; [reflexivity|]). split.
  - apply (proj1 (relay_to_literal_target idC payload st_room)); reflexivity.
  - apply (proj2 (relay_to_literal_target idC payload st_room)); reflexivity.
Defined.

(** C6 as stated fails: a [send_answer] that names A, registered with an
    open channel, but carries no [answer], is dropped; the delivery the
    claim promises would have written one message to A. *)
Lemma send_answer_without_answer_not_attempted :
  let payload := JObject [("adminId", JString idA)] in
  payload_field payload "adminId" = JString idA
  ∧ sockets st_room !! idA =
      Some {| ws := open_ws; roomCode := Some "0000AB12"; role := Some admin |}
  ∧ handleAnswer idB payload st_room = (Normal (), st_room, [])
  ∧ sendToSocket (JString idA) "receive_answer"
      [("viewerId", JString idB); ("answer", payload_field payload "answer")] st_room
    = (Normal (), st_room,
       [(idA, JObject [("type", JString "receive_answer");
                       ("viewerId", JString idB); ("answer", JUndefined)])])
  ∧ handleAnswer idB payload st_room
    ≠ sendToSocket (JString idA) "receive_answer"
        [("viewerId", JString idB); ("answer", payload_field payload "answer")] st_room.
Proof.
  intros payload. do 4 (split; [reflexivity|]).
  intros H. vm_compute in H. discriminate H.
Qed.

(** ** Relaying offers *)

Lemma offer_allowed_true st socketId payload :
  offer_allowed st socketId payload = true ↔
  ∃ e code room v,
    sockets st !! socketId = Some e ∧ role e = Some admin
    ∧ roomCode e = Some code ∧ rooms st !! code = Some room
    ∧ payload_field payload "viewerId" = JString v ∧ v ≠ "" ∧ v ∈ participants room
    ∧ truthy (payload_field payload "offer") = true.
Proof.
  unfold offer_allowed. split.
  - destruct (sockets st !! socketId) as [e|]; [|done].
    destruct (role e) as [[]|] eqn:Hrole; try done.
    destruct (roomCode e) as [code|] eqn:Hcode; [|done]. simpl.
    destruct (rooms st !! code) as [room|] eqn:Hroom; [|done].
    intros [[Hv Ho]%andb_prop Hp]%andb_prop.
    destruct (payload_field payload "viewerId") as [| |?|?|v|?|?]; try done.
    simpl in Hv, Hp. apply bool_decide_eq_true in Hp.
    exists e, code, room, v. repeat split; try done.
    intros ->. done.
  - intros (e & code & room & v & -> & -> & -> & Hr & -> & Hne & Hin & ->). simpl.
    rewrite Hr. simpl. rewrite (bool_decide_eq_true_2 _ Hin).
    by destruct (String.eqb_spec v "").
Qed.

Lemma delivered_not_open socks id message :
  ¬ open_channel socks id → delivered socks (JString id) message = [].
Proof.
  unfold open_channel, delivered. simpl. intros Hno.
  destruct (socks !! id) as [e|] eqn:He; [|done]. simpl.
  destruct (readyState (ws e)) eqn:Hr; try done. destruct Hno. eauto.
Qed.

(** C2, as the code has it: [send_offer] never changes the registries.
    It writes nothing when the sender is not registered with role admin,
    when its room does not exist, when [viewerId] is not in the
    participant set of that room, or when [viewerId] or [offer] is missing
    or falsy.  In every other case it makes one [sendToSocket] of
    [receive_offer], carrying the offer and the sender's id as [adminId],
    to [viewerId]: that writes exactly one message when [viewerId] is
    registered with an open channel, and nothing when it is not (the id
    of a connection that is gone can remain in a participant set, and a
    channel can be closing). *)
Theorem send_offer_gated socketId payload st :
  handleOffer socketId payload st =
  (Normal (), st,
   if offer_allowed st socketId payload
   then delivered (sockets st) (payload_field payload "viewerId")
          (JObject [("type", JString "receive_offer");
                    ("offer", payload_field payload "offer");
                    ("adminId", JString socketId)])
   else [])
  ∧ (offer_allowed st socketId payload = true ↔
     ∃ e code room v,
       sockets st !! socketId = Some e ∧ role e = Some admin
       ∧ roomCode e = Some code ∧ rooms st !! code = Some room
       ∧ payload_field payload "viewerId" = JString v ∧ v ≠ "" ∧ v ∈ participants room
       ∧ truthy (payload_field payload "offer") = true)
  ∧ (∀ v, offer_allowed st socketId payload = true →
       payload_field payload "viewerId" = JString v →
       (open_channel (sockets st) v →
        handleOffer socketId payload st =
        (Normal (), st,
         [(v, JObject [("type", JString "receive_offer");
                       ("offer", payload_field payload "offer");
                       ("adminId", JString socketId)])]))
       ∧ (¬ open_channel (sockets st) v →
          handleOffer socketId payload st = (Normal (), st, []))).
Proof.
  split_and!; [apply handleOffer_run | apply offer_allowed_true |].
  intros v Hok Hv. rewrite handleOffer_run, Hok, Hv. split.
  - intros (ev & Hev & Ho). by rewrite (delivered_open _ _ ev).
  - intros Hno. by rewrite delivered_not_open.
Qed.

Lemma send_offer_gated_witness :
  let payload := JObject [("viewerId", JString idB); ("offer", JString "sdp")] in
  offer_allowed st_room idA payload = true
  ∧ payload_field payload "viewerId" = JString idB
  ∧ open_channel (sockets st_room) idB
  ∧ handleOffer idA payload st_room =
    (Normal (), st_room,
     [(idB, JObject [("type", JString "receive_offer");
                     ("offer", payload_field payload "offer");
                     ("adminId", JString idA)])]).
Proof.
  intros payload.
  assert (open_channel (sockets st_room) idB) as Hopen.
  { exists {| ws := open_ws; roomCode := Some "0000AB12"; role := Some viewer |}.
    split; reflexivity. }
  do 2 (split; [reflexivity|]). split; [exact Hopen|].
  exact (proj1 (proj2 (proj2 (send_offer_gated idA payload st_room)) idB
                  eq_refl eq_refl) Hopen).
Defined.

(** The other outcome of the last case: B joined A's room, then created
    a room of its own and closed.  B's id is still in the participant set
    of A's room, so A's offer for B passes every test of [handleOffer],
    and the [sendToSocket] finds no connection to write to. *)
Lemma send_offer_to_departed_participant :
  let payload := JObject [("viewerId", JString idB); ("offer", JString "sdp")] in
  ∃ st,
    run_events [connection idA; connection idB;
                message idA uuidR msg_create_room;
                message idB uuidS (msg_join_room (JString "0000ab12"));
                message idB uuidS msg_create_room;
                close idB] initial = Some st
    ∧ offer_allowed st idA payload = true
    ∧ sockets st !! idB = None
    ∧ handleOffer idA payload st = (Normal (), st, []).
Proof.
  intros payload. eexists. split; [vm_compute; reflexivity|].
  split; [vm_compute; reflexivity|]. split; [vm_compute; reflexivity|].
  vm_compute. reflexivity.
Qed.

(** C2 as stated fails: A has role admin, its room exists and B is a
    participant with an open channel, yet a [send_offer] for B that
    carries no [offer] produces no message. *)
Lemma send_offer_without_offer_dropped :
  let payload := JObject [("viewerId", JString idB)] in
  sockets st_room !! idA =
    Some {| ws := open_ws; roomCode := Some "0000AB12"; role := Some admin |}
  ∧ rooms st_room !! "0000AB12" = Some {| adminId := idA; participants := [idB] |}
  ∧ payload_field payload "viewerId" = JString idB
  ∧ sockets st_room !! idB =
      Some {| ws := open_ws; roomCode := Some "0000AB12"; role := Some viewer |}
  ∧ handleOffer idA payload st_room = (Normal (), st_room, []).
Proof. repeat split. Qed.

(** ** Joining a room *)



Lemma Set_add_elem_iff x y s : y ∈ Set_add x s ↔ y = x ∨ y ∈ s.
Proof.
  unfold Set_add. case_bool_decide as Hin.
  - split; [by right | by intros [->|?]].
  - rewrite elem_of_app, list_elem_of_singleton. tauto.
Qed.

Lemma Set_add_elem x s : x ∈ Set_add x s.
Proof. apply Set_add_elem_iff. by left. Qed.

Lemma Set_delete_elem_iff x y s : y ∈ Set_delete x s ↔ y ≠ x ∧ y ∈ s.
Proof. unfold Set_delete. by rewrite list_elem_of_filter. Qed.

(** C5: a [join_room] whose code, trimmed and upper-cased, names an
    existing room adds the requester to that room's participants, makes
    it a viewer of the room, sends [room_joined] with the normalized code
    to the requester and [viewer_joined] with the requester's id to the
    room's admin; nothing else changes. *)
Theorem join_existing_room socketId e payload code room st :
  reachable st →
  sockets st !! socketId = Some e →
  requested_code payload = Some code →
  rooms st !! code = Some room →
  ∃ st' out,
    handleJoinRoom socketId payload st = (Normal (), st', out)
    ∧ rooms st' !! code =
        Some {| adminId := adminId room;
                participants := Set_add socketId (participants room) |}
    ∧ socketId ∈ Set_add socketId (participants room)
    ∧ sockets st' !! socketId =
        Some {| ws := ws e; roomCode := Some code; role := Some viewer |}
    ∧ out = delivered (sockets st) (JString socketId)
              (JObject [("type", JString "room_joined"); ("roomCode", JString code)])
            ++ delivered (sockets st) (JString (adminId room))
                 (JObject [("type", JString "viewer_joined");
                           ("viewerId", JString socketId)])
    ∧ (∀ ea, readyState (ws e) = OPEN →
         sockets st !! adminId room = Some ea → readyState (ws ea) = OPEN →
         out = [(socketId, JObject [("type", JString "room_joined");
                                    ("roomCode", JString code)]);
                (adminId room, JObject [("type", JString "viewer_joined");
                                        ("viewerId", JString socketId)])])
    ∧ (∀ R, R ≠ code → rooms st' !! R = rooms st !! R)
    ∧ (∀ q, q ≠ socketId → sockets st' !! q = sockets st !! q).
Proof.
  intros Hreach He Hc Hroom. rewrite handleJoinRoom_run, He, Hc.
  pose proof (reachable_room_nonempty _ _ _ Hreach Hroom) as Hne.
  destruct (String.eqb_spec code ""); [done|]. rewrite Hroom.
  eexists _, _. split; [reflexivity|]. simpl. split_and!.
  - by rewrite lookup_alter_eq, Hroom.
  - apply Set_add_elem.
  - by rewrite lookup_alter_eq, He.
  - by rewrite !delivered_alter_ws.
  - intros ea Ho Hea Hoa. rewrite !delivered_alter_ws by done.
    by rewrite (delivered_open _ _ e), (delivered_open _ _ ea).
  - intros R HR. by rewrite lookup_alter_ne.
  - intros q Hq. by rewrite lookup_alter_ne.
Qed.

(** B asks for the code in lower case, with a no-break space before it
    and a space after it. *)
Lemma join_existing_room_witness :
  let payload := JObject [("roomCode", JString (utf8 0xA0 +:+ "0000ab12 "))] in
  let room := {| adminId := idA; participants := [] |} in
  reachable st_open_room
  ∧ sockets st_open_room !! idB = Some unassigned_entry
  ∧ requested_code payload = Some "0000AB12"
  ∧ rooms st_open_room !! "0000AB12" = Some room
  ∧ ∃ st' out,
      handleJoinRoom idB payload st_open_room = (Normal (), st', out)
      ∧ rooms st' !! "0000AB12" =
          Some {| adminId := adminId room;
                  participants := Set_add idB (participants room) |}
      ∧ idB ∈ Set_add idB (participants room)
      ∧ sockets st' !! idB =
          Some {| ws := ws unassigned_entry; roomCode := Some "0000AB12";
                  role := Some viewer |}
      ∧ out = delivered (sockets st_open_room) (JString idB)
                (JObject [("type", JString "room_joined");
                          ("roomCode", JString "0000AB12")])
              ++ delivered (sockets st_open_room) (JString (adminId room))
                   (JObject [("type", JString "viewer_joined");
                             ("viewerId", JString idB)])
      ∧ (∀ ea, readyState (ws unassigned_entry) = OPEN →
           sockets st_open_room !! adminId room = Some ea → readyState (ws ea) = OPEN →
           out = [(idB, JObject [("type", JString "room_joined");
                                 ("roomCode", JString "0000AB12")]);
                  (adminId room, JObject [("type", JString "viewer_joined");
                                          ("viewerId", JString idB)])])
      ∧ (∀ R, R ≠ "0000AB12" → rooms st' !! R = rooms st_open_room !! R)
      ∧ (∀ q, q ≠ idB → sockets st' !! q = sockets st_open_room !! q).
Proof.
  intros payload room.
  split; [exact st_open_room_reachable|]. do 3 (split; [reflexivity|]).
  apply (join_existing_room idB unassigned_entry payload "0000AB12" room st_open_room);
    [exact st_open_room_reachable | reflexivity | reflexivity | reflexivity].
Defined.

(** The scenario of the protocol: A creates a room, B joins it writing
    the code in lower case; each gets its confirmation and A is told of
    the viewer. *)
Lemma scenario_create_then_join :
  snd (forEach trace_room handle_event initial) =
  [(idA, JObject [("type", JString "socket_id"); ("socketId", JString idA)]);
   (idB, JObject [("type", JString "socket_id"); ("socketId", JString idB)]);
   (idA, JObject [("type", JString "room_created"); ("roomCode", JString "0000AB12")]);
   (idB, JObject [("type", JString "room_joined"); ("roomCode", JString "0000AB12")]);
   (idA, JObject [("type", JString "viewer_joined"); ("viewerId", JString idB)])].
Proof. vm_compute. reflexivity. Qed.

(** ** Disconnecting *)

Lemma current_room_reachable st e R room :
  reachable st → roomCode e = Some R → rooms st !! R = Some room →
  current_room st e = Some (R, room).
Proof.
  intros Hreach Hc Hroom. apply current_room_Some.
  repeat split; try done. by eapply reachable_room_nonempty.
Qed.

(** C1, as the code has it: when the connection [C] whose room field
    names the existing room [R] is [R]'s admin, [cleanupSocket C] sends [room_closed] to
    every participant of [R] (in the order they joined), resets role and
    room of every participant, removes [R] from the room registry and [C]
    from the connection registry, and leaves every other room and
    connection alone; running it again does nothing. *)
Theorem admin_cleanup_closes_room st C e R room :
  reachable st →
  sockets st !! C = Some e →
  roomCode e = Some R →
  rooms st !! R = Some room →
  adminId room = C →
  ∃ st' out,
    cleanupSocket C st = (Normal (), st', out)
    ∧ out = flat_map (λ p, delivered (sockets st) (JString p)
                             (JObject [("type", JString "room_closed")]))
              (participants room)
    ∧ (∀ p ep, p ∈ participants room → sockets st !! p = Some ep →
         readyState (ws ep) = OPEN →
         (p, JObject [("type", JString "room_closed")]) ∈ out)
    ∧ rooms st' = delete R (rooms st)
    ∧ (∀ p e', p ∈ participants room → sockets st' !! p = Some e' →
         role e' = None ∧ roomCode e' = None)
    ∧ (∀ p, p ∈ participants room → p ≠ C →
         sockets st' !! p = detach <$> sockets st !! p)
    ∧ sockets st' !! C = None
    ∧ (∀ q, q ∉ participants room → q ≠ C → sockets st' !! q = sockets st !! q)
    ∧ cleanupSocket C st' = (Normal (), st', []).
Proof.
  intros Hreach He Hc Hroom Hadmin.
  rewrite cleanupSocket_run, He, (current_room_reachable _ _ _ _ Hreach Hc Hroom).
  rewrite (bool_decide_eq_true_2 _ Hadmin).
  eexists _, _. split; [reflexivity|]. split; [reflexivity|]. simpl.
  split_and!.
  - intros p ep Hp Hep Hopen. apply list_elem_of_In, in_flat_map.
    exists p. split; [by apply list_elem_of_In|].
    rewrite (delivered_open _ _ ep) by done. by left.
  - done.
  - intros p e' Hp. destruct (decide (C = p)) as [->|Hne].
    + by rewrite lookup_delete_eq.
    + rewrite lookup_delete_ne, detach_all_lookup, (bool_decide_eq_true_2 _ Hp) by done.
      destruct (sockets st !! p); [|done]. by intros [= <-].
  - intros p Hp Hne.
    by rewrite lookup_delete_ne, detach_all_lookup, (bool_decide_eq_true_2 _ Hp).
  - apply lookup_delete_eq.
  - intros q Hq Hne.
    by rewrite lookup_delete_ne, detach_all_lookup, (bool_decide_eq_false_2 _ Hq).
  - rewrite cleanupSocket_run. simpl. by rewrite lookup_delete_eq.
Qed.

Lemma admin_cleanup_closes_room_witness :
  let e := {| ws := open_ws; roomCode := Some "0000AB12"; role := Some admin |} in
  let room := {| adminId := idA; participants := [idB] |} in
  reachable st_room
  ∧ sockets st_room !! idA = Some e
  ∧ roomCode e = Some "0000AB12"
  ∧ rooms st_room !! "0000AB12" = Some room
  ∧ adminId room = idA
  ∧ ∃ st' out,
      cleanupSocket idA st_room = (Normal (), st', out)
      ∧ out = flat_map (λ p, delivered (sockets st_room) (JString p)
                               (JObject [("type", JString "room_closed")]))
                (participants room)
      ∧ (∀ p ep, p ∈ participants room → sockets st_room !! p = Some ep →
           readyState (ws ep) = OPEN →
           (p, JObject [("type", JString "room_closed")]) ∈ out)
      ∧ rooms st' = delete "0000AB12" (rooms st_room)
      ∧ (∀ p e', p ∈ participants room → sockets st' !! p = Some e' →
           role e' = None ∧ roomCode e' = None)
      ∧ (∀ p, p ∈ participants room → p ≠ idA →
           sockets st' !! p = detach <$> sockets st_room !! p)
      ∧ sockets st' !! idA = None
      ∧ (∀ q, q ∉ participants room → q ≠ idA →
           sockets st' !! q = sockets st_room !! q)
      ∧ cleanupSocket idA st' = (Normal (), st', []).
Proof.
  intros e room.
  split; [exact st_room_reachable|]. do 4 (split; [reflexivity|]).
  apply (admin_cleanup_closes_room st_room idA e "0000AB12" room);
    [exact st_room_reachable | reflexivity | reflexivity | reflexivity | reflexivity].
Defined.

(** C1 as stated fails: A created room 0000AB12 and then room
    0000CD34; both have A as [adminId], A's room field names the second,
    and A's cleanup removes the second only. *)
Lemma admin_cleanup_keeps_orphaned_room :
  run_events trace_orphan initial = Some st_orphan
  ∧ sockets st_orphan !! idA =
      Some {| ws := open_ws; roomCode := Some "0000CD34"; role := Some admin |}
  ∧ rooms st_orphan !! "0000AB12" = Some {| adminId := idA; participants := [] |}
  ∧ ∃ st',
      cleanupSocket idA st_orphan = (Normal (), st', [])
      ∧ rooms st' !! "0000AB12" = Some {| adminId := idA; participants := [] |}
      ∧ rooms st' !! "0000CD34" = None
      ∧ sockets st' !! idA = None.
Proof.
  split; [vm_compute; reflexivity|]. do 2 (split; [reflexivity|]).
  eexists. split; [vm_compute; reflexivity|]. repeat split.
Qed.

(** The scenario of the protocol: A's channel closes, B is told, and a
    third connection that asks for the room afterwards gets [room_error]. *)
Lemma scenario_admin_leaves :
  snd (forEach [close idA; connection idC;
                message idC uuidS (msg_join_room (JString "0000AB12"))]
         handle_event st_room) =
  [(idB, JObject [("type", JString "room_closed")]);
   (idC, JObject [("type", JString "socket_id"); ("socketId", JString idC)]);
   (idC, JObject [("type", JString "room_error");
                  ("message", JString "Room does not exist")])].
Proof. vm_compute. reflexivity. Qed.

(** C7, as the code has it: when the connection [C], a viewer whose
    room field names the existing room [R], is not [R]'s admin,
    [cleanupSocket C] removes [C] from [R]'s participants and from the
    connection registry, sends nothing, and changes nothing else: [R]
    keeps its admin and its other participants, and every other room and
    connection is as before. *)
Theorem viewer_cleanup_leaves_room st C e R room :
  reachable st →
  sockets st !! C = Some e →
  role e = Some viewer →
  roomCode e = Some R →
  rooms st !! R = Some room →
  adminId room ≠ C →
  ∃ st',
    cleanupSocket C st = (Normal (), st', [])
    ∧ rooms st' !! R =
        Some {| adminId := adminId room;
                participants := Set_delete C (participants room) |}
    ∧ (C ∉ Set_delete C (participants room))
    ∧ (∀ p, p ≠ C → (p ∈ Set_delete C (participants room) ↔ p ∈ participants room))
    ∧ (∀ R', R' ≠ R → rooms st' !! R' = rooms st !! R')
    ∧ sockets st' !! C = None
    ∧ (∀ q, q ≠ C → sockets st' !! q = sockets st !! q).
Proof.
  intros Hreach He _ Hc Hroom Hadmin.
  rewrite cleanupSocket_run, He, (current_room_reachable _ _ _ _ Hreach Hc Hroom).
  rewrite (bool_decide_eq_false_2 _ Hadmin).
  eexists. split; [reflexivity|]. simpl. split_and!.
  - by rewrite lookup_alter_eq, Hroom.
  - rewrite Set_delete_elem_iff. tauto.
  - intros p Hp. rewrite Set_delete_elem_iff. tauto.
  - intros R' HR. by rewrite lookup_alter_ne.
  - apply lookup_delete_eq.
  - intros q Hq. by rewrite lookup_delete_ne.
Qed.

Lemma viewer_cleanup_leaves_room_witness :
  let e := {| ws := open_ws; roomCode := Some "0000AB12"; role := Some viewer |} in
  let room := {| adminId := idA; participants := [idB] |} in
  reachable st_room
  ∧ sockets st_room !! idB = Some e
  ∧ role e = Some viewer
  ∧ roomCode e = Some "0000AB12"
  ∧ rooms st_room !! "0000AB12" = Some room
  ∧ adminId room ≠ idB
  ∧ ∃ st',
      cleanupSocket idB st_room = (Normal (), st', [])
      ∧ rooms st' !! "0000AB12" =
          Some {| adminId := adminId room;
                  participants := Set_delete idB (participants room) |}
      ∧ (idB ∉ Set_delete idB (participants room))
      ∧ (∀ p, p ≠ idB →
           (p ∈ Set_delete idB (participants room) ↔ p ∈ participants room))
      ∧ (∀ R', R' ≠ "0000AB12" → rooms st' !! R' = rooms st_room !! R')
      ∧ sockets st' !! idB = None
      ∧ (∀ q, q ≠ idB → sockets st' !! q = sockets st_room !! q).
Proof.
  intros e room.
  assert (Hadmin : adminId room ≠ idB) by (simpl; discriminate).
  split; [exact st_room_reachable|]. do 4 (split; [reflexivity|]).
  split; [exact Hadmin|].
  apply (viewer_cleanup_leaves_room st_room idB e "0000AB12" room);
    [exact st_room_reachable | reflexivity | reflexivity | reflexivity
    | reflexivity | exact Hadmin].
Defined.

(** C7 as stated fails: after A created room 0000AB12 and joined it, A
    has role viewer of that room; its cleanup takes the admin branch and
    deletes the room. *)
Lemma viewer_cleanup_can_close_room :
  run_events trace_self initial = Some st_self
  ∧ sockets st_self !! idA =
      Some {| ws := open_ws; roomCode := Some "0000AB12"; role := Some viewer |}
  ∧ rooms st_self !! "0000AB12" = Some {| adminId := idA; participants := [idA] |}
  ∧ cleanupSocket idA st_self =
      (Normal (), initial, [(idA, JObject [("type", JString "room_closed")])])
  ∧ rooms initial !! "0000AB12" = None.
Proof.
  split; [exact st_self_run|]. do 2 (split; [reflexivity|]).
  split; [vm_compute; reflexivity | reflexivity].
Qed.

(** ** The room invariant *)

(** C8 as stated fails: B joined room 0000AB12 and then room 0000CD34;
    it is still a participant of the first while its room field names
    the second. *)
Lemma participant_moved_on :
  run_events trace_moved initial = Some st_moved
  ∧ reachable st_moved
  ∧ rooms st_moved !! "0000AB12" = Some {| adminId := idA; participants := [idB] |}
  ∧ sockets st_moved !! idB =
      Some {| ws := open_ws; roomCode := Some "0000CD34"; role := Some viewer |}
  ∧ ¬ participants_attached st_moved.
Proof.
  split; [exact st_moved_run|]. split; [exact st_moved_reachable|].
  do 2 (split; [reflexivity|]).
  intros H.
  destruct (H "0000AB12" {| adminId := idA; participants := [idB] |} idB)
    as (e & He & _ & Hcode); [reflexivity | by left |].
  vm_compute in He. injection He as <-. discriminate Hcode.
Qed.

Lemma transition_participants_viewers D st st' :
  transition D st st' → participants_viewers st → participants_viewers st'.
Proof.
  intros Ht IH. destruct Ht as
    [ | u Hu _ | u socketId e0 Hu He0 _ | code socketId e0 room0 He0 _ Hne Hroom0
    | code socketId e0 room0 He0 Hc Hne Hroom0 Hadmin
    | code socketId e0 room0 He0 Hc Hne Hroom0 Hadmin
    | socketId e0 He0 Hnone | socketId s ];
    intros R room p e; simpl.
  - apply IH.
  - intros Hr Hp He Hcode.
    apply lookup_insert_Some in He as [[_ <-]|[_ He]]; [done|]. by eapply IH.
  - intros Hr Hp He Hcode.
    apply lookup_insert_Some in Hr as [[<- <-]|[HR Hr]].
    { by apply elem_of_nil in Hp. }
    apply lookup_alter_Some in He as [(<- & e1 & He1 & ->)|[_ He]].
    { simpl in Hcode. congruence. }
    by eapply IH.
  - intros Hr Hp He Hcode.
    apply lookup_alter_Some in He as [(<- & e1 & He1 & ->)|[Hsock He]]; [done|].
    apply lookup_alter_Some in Hr as [(<- & r1 & Hr1 & ->)|[_ Hr]].
    + simpl in Hp. apply Set_add_elem_iff in Hp as [->|Hp]; [done|]. by eapply IH.
    + by eapply IH.
  - intros Hr Hp He Hcode.
    apply lookup_delete_Some in Hr as [_ Hr].
    apply lookup_delete_Some in He as [_ He].
    rewrite detach_all_lookup in He. case_bool_decide.
    + destruct (sockets st !! p); [|done]. by injection He as <-.
    + by eapply IH.
  - intros Hr Hp He Hcode.
    apply lookup_delete_Some in He as [_ He].
    apply lookup_alter_Some in Hr as [(<- & r1 & Hr1 & ->)|[_ Hr]].
    + simpl in Hp. apply Set_delete_elem_iff in Hp as [_ Hp]. by eapply IH.
    + by eapply IH.
  - intros Hr Hp He Hcode.
    apply lookup_delete_Some in He as [_ He]. by eapply IH.
  - intros Hr Hp He Hcode.
    apply lookup_alter_Some in He as [(<- & e1 & He1 & ->)|[_ He]];
      simpl in *; by eapply IH.
Qed.

(** C8, as the code has it: in every reachable state a room code maps
    to one admin id, and every participant of a room that is still
    registered with its room field naming that room has role viewer.  A
    participant set can also hold the id of a connection that has since
    created or joined another room, or that was removed after doing so:
    nothing takes a connection out of the room it leaves behind. *)
Theorem room_invariant st :
  reachable st →
  (∀ R r1 r2, rooms st !! R = Some r1 → rooms st !! R = Some r2 →
     adminId r1 = adminId r2)
  ∧ participants_viewers st.
Proof.
  intros Hreach. split; [intros R r1 r2 H1 H2; congruence|].
  induction Hreach as [|st st' IH Ht] using reachable_ind_transition.
  - intros R room p e Hr. simpl in Hr. by rewrite lookup_empty in Hr.
  - by eapply transition_participants_viewers.
Qed.

Lemma room_invariant_witness :
  reachable st_moved
  ∧ (∀ R r1 r2, rooms st_moved !! R = Some r1 → rooms st_moved !! R = Some r2 →
       adminId r1 = adminId r2)
  ∧ participants_viewers st_moved.
Proof.
  split; [exact st_moved_reachable|].
  apply (room_invariant st_moved). exact st_moved_reachable.
Defined.

(** *** Clients that follow the connection state machine *)

Lemma members_attached_split st :
  members_attached st ↔ participants_attached st ∧ admins_attached st.
Proof.
  split.
  - intros H. split.
    + intros R room p Hr Hp. by apply (H R room p viewer).
    + intros R room Hr. by apply (H R room (adminId room) admin).
  - intros [Hp Ha] R room p [] Hr Hm; simpl in Hm.
    + subst p. by apply Ha.
    + by eapply Hp.
Qed.

(** A member of a room is a member of no other room, and in one role. *)
Lemma member_unique st R room p r e :
  members_attached st → rooms st !! R = Some room → member room p r →
  sockets st !! p = Some e → role e = Some r ∧ roomCode e = Some R.
Proof.
  intros H Hr Hm He. destruct (H R room p r Hr Hm) as (e' & He' & ? & ?).
  rewrite He in He'. by injection He' as <-.
Qed.

Lemma transition_members_attached st st' :
  (∀ R room, rooms st !! R = Some room → R ≠ "") →
  transition True st st' → members_attached st → members_attached st'.
Proof.
  intros Hcodes Ht IH. destruct Ht as
    [ | u Hu Hfresh | u socketId e0 Hu He0 Hrole | code socketId e0 room0 He0 Hrole Hne Hroom0
    | code socketId e0 room0 He0 Hc Hne Hroom0 Hadmin
    | code socketId e0 room0 He0 Hc Hne Hroom0 Hadmin
    | socketId e0 He0 Hnone | socketId s ];
    intros R room p r Hr Hm; simpl in Hr; unfold attached; simpl.
  - exact (IH R room p r Hr Hm).
  - (* a fresh connection belongs to no room *)
    destruct (IH R room p r Hr Hm) as (e & He & ? & ?).
    exists e. rewrite lookup_insert_ne; [done|]. intros ->.
    rewrite (Hfresh I) in He. done.
  - (* create_room by an unassigned connection *)
    apply lookup_insert_Some in Hr as [[<- <-]|[HR Hr]].
    + destruct r; simpl in Hm; [subst p | by apply elem_of_nil in Hm].
      eexists. by rewrite lookup_alter_eq, He0.
    + destruct (IH R room p r Hr Hm) as (e & He & Her & Hec).
      exists e. rewrite lookup_alter_ne; [done|]. intros ->.
      rewrite He0 in He. injection He as <-. rewrite (Hrole I) in Her. done.
  - (* join_room by an unassigned connection *)
    assert (∀ room1 r1 R1, rooms st !! R1 = Some room1 → member room1 p r1 →
              ∃ e, alter (λ e, {| ws := ws e; roomCode := Some code;
                                  role := Some viewer |}) socketId (sockets st) !! p
                   = Some e ∧ role e = Some r1 ∧ roomCode e = Some R1) as Hold.
    { intros room1 r1 R1 Hr1 Hm1.
      destruct (IH R1 room1 p r1 Hr1 Hm1) as (e & He & Her & Hec).
      exists e. rewrite lookup_alter_ne; [done|]. intros ->.
      rewrite He0 in He. injection He as <-. rewrite (Hrole I) in Her. done. }
    apply lookup_alter_Some in Hr as [(<- & r1 & Hr1 & ->)|[HR Hr]]; [|by eapply Hold].
    destruct r; simpl in Hm; [by apply (Hold r1 admin code)|].
    apply Set_add_elem_iff in Hm as [->|Hm]; [|by apply (Hold r1 viewer code)].
    eexists. by rewrite lookup_alter_eq, He0.
  - (* the admin of a room leaves: the room goes, its participants are detached *)
    apply lookup_delete_Some in Hr as [HR Hr].
    destruct (IH R room p r Hr Hm) as (e & He & Her & Hec).
    exists e. split; [|done].
    rewrite lookup_delete_ne.
    + rewrite detach_all_lookup, bool_decide_eq_false_2; [done|]. intros Hp.
      destruct (member_unique st code room0 p viewer e IH Hroom0 Hp He) as [_ Hec'].
      congruence.
    + intros ->. rewrite He0 in He. injection He as <-. congruence.
  - (* a viewer leaves *)
    assert (∀ room1 r1 R1, rooms st !! R1 = Some room1 → member room1 p r1 →
              p ≠ socketId →
              ∃ e, delete socketId (sockets st) !! p = Some e
                   ∧ role e = Some r1 ∧ roomCode e = Some R1) as Hold.
    { intros room1 r1 R1 Hr1 Hm1 Hp.
      destruct (IH R1 room1 p r1 Hr1 Hm1) as (e & He & Her & Hec).
      exists e. by rewrite lookup_delete_ne. }
    apply lookup_alter_Some in Hr as [(<- & r1 & Hr1 & ->)|[HR Hr]].
    + rewrite Hroom0 in Hr1. injection Hr1 as <-.
      destruct r; simpl in Hm.
      * apply (Hold room0 admin code); [done..|]. congruence.
      * apply Set_delete_elem_iff in Hm as [Hp Hm]. by apply (Hold room0 viewer code).
    + apply (Hold room r R); [done..|]. intros ->.
      destruct (member_unique st R room socketId r e0 IH Hr Hm He0) as [_ Hec].
      congruence.
  - (* a connection without a room leaves *)
    destruct (IH R room p r Hr Hm) as (e & He & Her & Hec).
    exists e. rewrite lookup_delete_ne; [done|]. intros ->.
    rewrite He0 in He. injection He as <-.
    assert (current_room st e0 = Some (R, room)) as Hcur.
    { apply current_room_Some. repeat split; try done. by eapply Hcodes. }
    congruence.
  - (* the channel changes its ready state *)
    destruct (IH R room p r Hr Hm) as (e & He & Her & Hec).
    destruct (decide (socketId = p)) as [->|Hp].
    + eexists. by rewrite lookup_alter_eq, He.
    + exists e. by rewrite lookup_alter_ne.
Qed.

(** For clients that follow the connection state machine (ids are not
    handed out twice; [create_room] and [join_room] come from unassigned
    connections only) the invariant of the data model holds: every
    participant of a room is a registered viewer of that room, and the
    admin of a room is a registered connection with role admin whose room
    field names it. *)
Theorem attached_when_disciplined st :
  reachable_disciplined st →
  participants_attached st ∧ admins_attached st.
Proof.
  intros Hreach. apply members_attached_split.
  induction Hreach as [|st ev st' out Hreach IH Hok Hrun].
  - intros R room p r Hr. simpl in Hr. by rewrite lookup_empty in Hr.
  - apply andb_prop in Hok as [Hok Hd].
    apply (transition_members_attached st); [|by eapply handle_event_transition|done].
    intros R room Hr. eapply reachable_room_nonempty; [|done].
    by apply reachable_disciplined_reachable.
Qed.

Lemma st_room_disciplined : reachable_disciplined st_room.
Proof.
  apply (run_events_by_reachable _ trace_room initial); [constructor|].
  vm_compute. reflexivity.
Qed.

Lemma attached_when_disciplined_witness :
  reachable_disciplined st_room
  ∧ participants_attached st_room ∧ admins_attached st_room.
Proof.
  split; [exact st_room_disciplined|].
  apply (attached_when_disciplined st_room). exact st_room_disciplined.
Defined.

(** ** The router *)

Lemma handleMessage_undecodable JSON_parse u socketId data st :
  JSON_parse data = None →
  handleMessage JSON_parse u socketId data st = (Normal (), st, []).
Proof. intros H. unfold handleMessage. by rewrite H. Qed.

(** A message whose [type] is none of the five is dropped. *)
Lemma dispatch_unrecognized u socketId l t st :
  assoc_get "type" l = Some (JString t) →
  t ≠ "create_room" → t ≠ "join_room" → t ≠ "send_offer" →
  t ≠ "send_answer" → t ≠ "ice_candidate" →
  dispatch u socketId (JObject l) st = (Normal (), st, []).
Proof.
  intros Ht H1 H2 H3 H4 H5. unfold dispatch. simpl. rewrite run_bind_ret, Ht. simpl.
  repeat match goal with
         | |- context [String.eqb t ?s] => destruct (String.eqb_spec t s); [done|]
         end.
  done.
Qed.

(** [dispatch] throws in the cases of [dispatch_throws] and in no other. *)
Lemma dispatch_completion u socketId parsed st :
  match dispatch u socketId parsed st with
  | (Normal _, _, _) => dispatch_throws st socketId parsed = false
  | (Abrupt _, st', out) => dispatch_throws st socketId parsed = true ∧ st' = st ∧ out = []
  end.
Proof.
  unfold dispatch, dispatch_throws, is_join_room.
  destruct parsed as [| |b|x|str|l|l]; simpl; try done.
  rewrite run_bind_ret.
  destruct (default JUndefined (assoc_get "type" l)) as [| |?|?|t|?|?]; try done.
  destruct (String.eqb_spec t "create_room") as [->|_].
  { rewrite handleCreateRoom_run. by destruct (sockets st !! socketId). }
  destruct (String.eqb t "join_room").
  { rewrite handleJoinRoom_run. simpl.
    destruct (sockets st !! socketId) as [e|].
    - rewrite (bool_decide_eq_true_2 (is_Some (Some e))) by eauto. simpl.
      destruct (requested_code _) as [code|]; [|done].
      by destruct (if String.eqb code "" then None else rooms st !! code).
    - rewrite (bool_decide_eq_false_2 (is_Some None)); [done|]. by intros [? ?]. }
  destruct (String.eqb t "send_offer"); [by rewrite handleOffer_run|].
  destruct (String.eqb t "send_answer").
  { rewrite handleAnswer_run. destruct (_ && _); [by rewrite sendToSocket_run|done]. }
  destruct (String.eqb t "ice_candidate").
  { rewrite handleIceCandidate_run. destruct (_ && _); [by rewrite sendToSocket_run|done]. }
  done.
Qed.

(** C3 fails on the text [null]: [JSON.parse] returns [null] without
    throwing, and destructuring [null], outside the [try], throws a
    [TypeError] out of [handleMessage]. *)
Theorem handleMessage_null_throws JSON_parse u socketId st :
  JSON_parse "null" = Some JNull →
  handleMessage JSON_parse u socketId "null" st =
  (Abrupt (TypeError "Cannot destructure property 'type'"), st, []).
Proof. intros H. unfold handleMessage. by rewrite H. Qed.

Lemma handleMessage_null_throws_witness :
  parse_literal "null" = Some JNull
  ∧ handleMessage parse_literal uuidR idB "null" st_room =
    (Abrupt (TypeError "Cannot destructure property 'type'"), st_room, []).
Proof.
  split; [reflexivity|].
  apply (handleMessage_null_throws parse_literal uuidR idB st_room). reflexivity.
Defined.

(** The other throw: B, registered, sends [join_room] with the number 5
    as [roomCode]; [(5).trim] is not a function. *)
Lemma join_room_number_throws :
  dispatch uuidR idB (msg_join_room (JNumber number_5)) st_open_room =
  (Abrupt (TypeError "trim is not a function"), st_open_room, []).
Proof. vm_compute. reflexivity. Qed.

(** ** Normalizing a requested code *)

Lemma toUpperCase_eqb_empty s : String.eqb (toUpperCase s) "" = String.eqb s "".
Proof.
  destruct (String.eqb_spec s "") as [->|Hs]; [done|].
  destruct (String.eqb_spec (toUpperCase s) "") as [E|_]; [|done].
  by apply toUpperCase_empty in E.
Qed.

(** The case of the letters does not matter. *)
Lemma requested_code_case s :
  requested_code (JObject [("roomCode", JString (toUpperCase s))]) =
  requested_code (JObject [("roomCode", JString s)]).
Proof.
  unfold requested_code, opt_chain, get_prop, js_or. simpl.
  rewrite toUpperCase_eqb_empty. destruct (String.eqb s ""); simpl; [done|].
  by rewrite trim_upper, toUpperCase_idem.
Qed.

(** A whole negotiation through the router: A offers to B, B answers,
    both exchange a candidate. *)
Lemma scenario_handshake :
  snd (forEach
         [message idA uuidS (msg_send_offer (JString idB) (JString "offer-sdp"));
          message idB uuidS (msg_send_answer (JString idA) (JString "answer-sdp"));
          message idA uuidS (msg_ice_candidate (JString idB) (JString "cand-a"));
          message idB uuidS (msg_ice_candidate (JString idA) (JString "cand-b"))]
         handle_event st_room) =
  [(idB, JObject [("type", JString "receive_offer"); ("offer", JString "offer-sdp");
                  ("adminId", JString idA)]);
   (idA, JObject [("type", JString "receive_answer"); ("viewerId", JString idB);
                  ("answer", JString "answer-sdp")]);
   (idB, JObject [("type", JString "ice_candidate"); ("candidate", JString "cand-a");
                  ("from", JString idA)]);
   (idA, JObject [("type", JString "ice_candidate"); ("candidate", JString "cand-b");
                  ("from", JString idB)])].
Proof. vm_compute. reflexivity. Qed.

(** * Further properties of the server *)

(** ** Writing to a channel *)

Lemma elem_of_delivered socks target message id msg :
  (id, msg) ∈ delivered socks target message ↔
  target = JString id ∧ msg = message ∧ open_channel socks id.
Proof.
  unfold delivered, Map_get, open_channel.
  destruct target as [| |?|?|t|?|?];
    try (split; [by intros ?%elem_of_nil | by intros [? _]]).
  destruct (socks !! t) as [e|] eqn:He; simpl.
  - destruct (readyState (ws e)) eqn:Ho;
      try (split; [by intros ?%elem_of_nil
                  | intros ([= ->] & _ & e' & He' & Ho'); congruence]).
    rewrite list_elem_of_singleton. split.
    + intros [= -> ->]. eauto.
    + by intros ([= ->] & -> & _).
  - split; [by intros ?%elem_of_nil|].
    intros ([= ->] & _ & e' & He' & _). congruence.
Qed.

Lemma delivered_length socks target message :
  length (delivered socks target message) ≤ 1.
Proof.
  unfold delivered. destruct (Map_get socks target) as [[id e]|]; simpl; [|lia].
  destruct (readyState (ws e)); simpl; lia.
Qed.

(** [sendToSocket] never throws and never touches the registries.  It
    writes its message once when the target is a string that names a
    registered connection with an open channel; for any other target (an
    unknown id, a value that is not a string, a channel that is not open)
    it writes nothing. *)
Theorem sendToSocket_outcome target type payload st :
  ∃ out,
    sendToSocket target type payload st = (Normal (), st, out)
    ∧ length out ≤ 1
    ∧ ∀ id msg, (id, msg) ∈ out ↔
        target = JString id ∧ msg = spread type payload
        ∧ open_channel (sockets st) id.
Proof.
  rewrite sendToSocket_run. eexists. split; [reflexivity|]. split.
  - apply delivered_length.
  - intros id msg. apply elem_of_delivered.
Qed.

Lemma elem_of_flat_map_delivered socks message ps id msg :
  (id, msg) ∈ flat_map (λ p, delivered socks (JString p) message) ps →
  id ∈ ps ∧ msg = message ∧ open_channel socks id.
Proof.
  intros (p & Hp & Hin)%list_elem_of_In%in_flat_map.
  apply list_elem_of_In, elem_of_delivered in Hin as ([= ->] & -> & Ho).
  by apply list_elem_of_In in Hp.
Qed.

Lemma well_addressed_delivered socks target t payload id msg :
  (id, msg) ∈ delivered socks target (spread t payload) →
  get_prop (spread t payload) "type" = JString t → t ∈ server_types →
  well_addressed socks (id, msg).
Proof.
  intros (_ & -> & Ho)%elem_of_delivered Ht Hin. split; [done|]. eauto.
Qed.

Ltac server_type := simpl; repeat (first [by left | right]).

Lemma dispatch_well_addressed u socketId parsed st c st' out sent :
  dispatch u socketId parsed st = (c, st', out) → sent ∈ out →
  well_addressed (sockets st) sent.
Proof.
  destruct sent as [id msg]. unfold dispatch.
  destruct parsed as [| |b|x|str|l|l]; simpl;
    try (intros [= _ _ <-] Hin; by apply elem_of_nil in Hin);
    rewrite run_bind_ret;
    try (intros [= _ _ <-] Hin; by apply elem_of_nil in Hin).
  destruct (default JUndefined (assoc_get "type" l)) as [| |?|?|t|?|?];
    try (intros [= _ _ <-] Hin; by apply elem_of_nil in Hin).
  destruct (String.eqb t "create_room").
  { rewrite handleCreateRoom_run. destruct (sockets st !! socketId).
    - intros [= _ _ <-] Hin. simpl in Hin. rewrite delivered_alter_ws in Hin by done.
      eapply well_addressed_delivered; [done|done|server_type].
    - intros [= _ _ <-] Hin. by apply elem_of_nil in Hin. }
  destruct (String.eqb t "join_room").
  { rewrite handleJoinRoom_run. destruct (sockets st !! socketId).
    - destruct (requested_code _) as [code|].
      + destruct (if String.eqb code "" then None else rooms st !! code) as [room|].
        * intros [= _ _ <-] Hin. simpl in Hin.
          rewrite !delivered_alter_ws in Hin by done.
          apply elem_of_app in Hin as [Hin|Hin];
            (eapply well_addressed_delivered; [done|done|server_type]).
        * intros [= _ _ <-] Hin.
          eapply well_addressed_delivered; [done|done|server_type].
      + intros [= _ _ <-] Hin. by apply elem_of_nil in Hin.
    - intros [= _ _ <-] Hin. by apply elem_of_nil in Hin. }
  destruct (String.eqb t "send_offer").
  { rewrite handleOffer_run. intros [= _ _ <-] Hin.
    destruct (offer_allowed _ _ _); [|by apply elem_of_nil in Hin].
    eapply well_addressed_delivered; [done|done|server_type]. }
  destruct (String.eqb t "send_answer").
  { rewrite handleAnswer_run. destruct (_ && _).
    - rewrite sendToSocket_run. intros [= _ _ <-] Hin.
      eapply well_addressed_delivered; [done|done|server_type].
    - intros [= _ _ <-] Hin. by apply elem_of_nil in Hin. }
  destruct (String.eqb t "ice_candidate").
  { rewrite handleIceCandidate_run. destruct (_ && _).
    - rewrite sendToSocket_run. intros [= _ _ <-] Hin.
      eapply well_addressed_delivered; [done|done|server_type].
    - intros [= _ _ <-] Hin. by apply elem_of_nil in Hin. }
  intros [= _ _ <-] Hin. by apply elem_of_nil in Hin.
Qed.

(** Whatever the event, every message the server writes has one of its
    nine types and goes to a connection that is registered with an open
    channel (for a new connection: once it is registered); the server
    never writes to an unknown or closed channel. *)
Theorem outbound_well_addressed ev st c st' out sent :
  handle_event ev st = (c, st', out) → sent ∈ out →
  well_addressed (sockets st) sent ∨ well_addressed (sockets st') sent.
Proof.
  destruct ev as [u|socketId u parsed|socketId|socketId s]; simpl.
  - unfold on_connection. rewrite run_bind_modify. unfold safeSend. simpl.
    intros [= _ <- <-] ->%list_elem_of_singleton. right. split; simpl.
    + eexists. by rewrite lookup_insert_eq.
    + eexists. split; [reflexivity|server_type].
  - intros Hrun Hin. left. by eapply dispatch_well_addressed.
  - rewrite cleanupSocket_run. destruct (sockets st !! socketId) as [e|].
    + destruct (current_room st e) as [[code room]|].
      * case_bool_decide.
        -- intros [= _ _ <-] Hin. left. destruct sent as [id msg].
           apply elem_of_flat_map_delivered in Hin as (_ & -> & Ho).
           split; [done|]. eexists. split; [reflexivity|server_type].
        -- intros [= _ _ <-] Hin. by apply elem_of_nil in Hin.
      * intros [= _ _ <-] Hin. by apply elem_of_nil in Hin.
    + intros [= _ _ <-] Hin. by apply elem_of_nil in Hin.
  - intros [= _ _ <-] Hin. by apply elem_of_nil in Hin.
Qed.

Lemma outbound_well_addressed_witness :
  let sent := (idB, JObject [("type", JString "room_closed")]) in
  ∃ st',
    handle_event (close idA) st_room = (Normal (), st', [sent])
    ∧ sent ∈ [sent]
    ∧ (well_addressed (sockets st_room) sent ∨ well_addressed (sockets st') sent).
Proof.
  intros sent. eexists.
  assert (handle_event (close idA) st_room
          = (Normal (), closed_room "0000AB12" idA
                          {| adminId := idA; participants := [idB] |} st_room, [sent]))
    as Hrun by (vm_compute; reflexivity).
  assert (sent ∈ [sent]) as Hin by (by left).
  split; [exact Hrun|]. split; [exact Hin|].
  exact (outbound_well_addressed _ _ _ _ _ _ Hrun Hin).
Defined.

(** ** More invariants of the registries *)

(** Where an entry of the connection registry comes from. *)
Lemma transition_entry D st st' p e' :
  transition D st st' → sockets st' !! p = Some e' →
  (roomCode e' = None ∧ role e' = None)
  ∨ (∃ u, is_uuid u = true ∧ roomCode e' = Some (shortRoomCode u)
          ∧ role e' = Some admin)
  ∨ (∃ code room, code ≠ "" ∧ rooms st !! code = Some room
                  ∧ roomCode e' = Some code ∧ role e' = Some viewer)
  ∨ (∃ e, sockets st !! p = Some e ∧ roomCode e' = roomCode e ∧ role e' = role e).
Proof.
  intros Ht He. destruct Ht as
    [ | u Hu _ | u socketId e0 Hu He0 _ | code socketId e0 room0 He0 _ Hne Hroom0
    | code socketId e0 room0 He0 Hc Hne Hroom0 Hadmin
    | code socketId e0 room0 He0 Hc Hne Hroom0 Hadmin
    | socketId e0 He0 Hnone | socketId s ]; simpl in He.
  - right; right; right. eauto.
  - apply lookup_insert_Some in He as [[_ <-]|[_ He]]; [by left|].
    right; right; right. eauto.
  - apply lookup_alter_Some in He as [(_ & e1 & He1 & ->)|[_ He]].
    + right; left. eauto.
    + right; right; right. eauto.
  - apply lookup_alter_Some in He as [(_ & e1 & He1 & ->)|[_ He]].
    + right; right; left. exists code, room0. eauto.
    + right; right; right. eauto.
  - apply lookup_delete_Some in He as [_ He].
    rewrite detach_all_lookup in He. case_bool_decide.
    + destruct (sockets st !! p); [|done]. injection He as <-. by left.
    + right; right; right. eauto.
  - apply lookup_delete_Some in He as [_ He]. right; right; right. eauto.
  - apply lookup_delete_Some in He as [_ He]. right; right; right. eauto.
  - apply lookup_alter_Some in He as [(_ & e1 & He1 & ->)|[_ He]];
      right; right; right; eauto.
Qed.

(** Every room code in use, as a key of the room registry or as the room
    field of a connection, is eight upper-case hexadecimal digits. *)
Theorem codes_in_use_wellformed st :
  reachable st →
  (∀ R room, rooms st !! R = Some room → is_room_code R)
  ∧ (∀ p e c, sockets st !! p = Some e → roomCode e = Some c → is_room_code c).
Proof.
  intros Hreach. induction Hreach as [|st st' [IHr IHs] Ht] using reachable_ind_transition.
  - split; [intros R room H | intros p e c H]; simpl in H; by rewrite lookup_empty in H.
  - split.
    + intros R room H.
      destruct (transition_rooms _ _ _ _ _ Ht H) as [(u & Hu & ->)|[r Hr]].
      * by apply shortRoomCode_shape.
      * by eapply IHr.
    + intros p e' c He Hc.
      destruct (transition_entry _ _ _ _ _ Ht He)
        as [[Hn _]|[(u & Hu & Hcode & _)|[(code & room & _ & Hroom & Hcode & _)
           |(e & Hold & Hcode & _)]]].
      * congruence.
      * rewrite Hcode in Hc. injection Hc as <-. by apply shortRoomCode_shape.
      * rewrite Hcode in Hc. injection Hc as <-. by eapply IHr.
      * eapply IHs; [done|]. congruence.
Qed.

Lemma codes_in_use_wellformed_witness :
  reachable st_moved
  ∧ (∀ R room, rooms st_moved !! R = Some room → is_room_code R)
  ∧ (∀ p e c, sockets st_moved !! p = Some e → roomCode e = Some c → is_room_code c).
Proof.
  split; [exact st_moved_reachable|].
  apply (codes_in_use_wellformed st_moved). exact st_moved_reachable.
Defined.

(** Role and room field go together: a registered connection has no
    role exactly when it has no room, and a connection with role admin or
    viewer always has a room field. *)
Theorem role_iff_room st p e :
  reachable st → sockets st !! p = Some e →
  (role e = None ↔ roomCode e = None).
Proof.
  intros Hreach. revert p e.
  induction Hreach as [|st st' IH Ht] using reachable_ind_transition.
  - intros p e H. simpl in H. by rewrite lookup_empty in H.
  - intros p e' He.
    destruct (transition_entry _ _ _ _ _ Ht He)
      as [[Hn Hr]|[(u & _ & Hcode & Hr)|[(code & room & _ & _ & Hcode & Hr)
         |(e & Hold & Hcode & Hr)]]].
    + by rewrite Hn, Hr.
    + rewrite Hcode, Hr. split; discriminate.
    + rewrite Hcode, Hr. split; discriminate.
    + rewrite Hcode, Hr. by apply (IH p).
Qed.

Lemma role_iff_room_witness :
  let e := {| ws := open_ws; roomCode := Some "0000CD34"; role := Some viewer |} in
  reachable st_moved
  ∧ sockets st_moved !! idB = Some e
  ∧ (role e = None ↔ roomCode e = None).
Proof.
  intros e. split; [exact st_moved_reachable|]. split; [reflexivity|].
  apply (role_iff_room st_moved idB e); [exact st_moved_reachable | reflexivity].
Defined.

Lemma Set_add_NoDup x s : NoDup s → NoDup (Set_add x s).
Proof.
  intros Hs. unfold Set_add. case_bool_decide as Hin; [done|].
  apply NoDup_app. split; [done|]. split.
  - intros y Hy ->%list_elem_of_singleton. done.
  - apply NoDup_singleton.
Qed.

Lemma Set_delete_NoDup x s : NoDup s → NoDup (Set_delete x s).
Proof. intros Hs. unfold Set_delete. by apply NoDup_filter. Qed.

(** Where the participants of a room come from. *)
Lemma transition_participants D st st' R room' :
  transition D st st' → rooms st' !! R = Some room' →
  participants room' = []
  ∨ ∃ room, rooms st !! R = Some room
      ∧ (participants room' = participants room
         ∨ (∃ x, participants room' = Set_add x (participants room))
         ∨ (∃ x, participants room' = Set_delete x (participants room))).
Proof.
  intros Ht Hl.
  assert (∀ room, rooms st !! R = Some room →
            participants room' = participants room →
            participants room' = []
            ∨ ∃ room, rooms st !! R = Some room
                ∧ (participants room' = participants room
                   ∨ (∃ x, participants room' = Set_add x (participants room))
                   ∨ (∃ x, participants room' = Set_delete x (participants room))))
    as Hsame by (intros room ? ?; right; exists room; auto).
  destruct Ht; simpl in Hl.
  - by eapply Hsame.
  - by eapply Hsame.
  - apply lookup_insert_Some in Hl as [[_ <-]|[_ Hl]]; [by left|]. by eapply Hsame.
  - apply lookup_alter_Some in Hl as [(_ & r & Hr & ->)|[_ Hl]]; [|by eapply Hsame].
    right. exists r. split; [done|]. right; left. by eexists.
  - apply lookup_delete_Some in Hl as [_ Hl]. by eapply Hsame.
  - apply lookup_alter_Some in Hl as [(_ & r & Hr & ->)|[_ Hl]]; [|by eapply Hsame].
    right. exists r. split; [done|]. right; right. by eexists.
  - by eapply Hsame.
  - by eapply Hsame.
Qed.

(** The participant list of a room never repeats an id: it is a set. *)
Lemma reachable_participants_NoDup st R room :
  reachable st → rooms st !! R = Some room → NoDup (participants room).
Proof.
  intros Hreach. revert R room.
  induction Hreach as [|st st' IH Ht] using reachable_ind_transition.
  - intros R room H. simpl in H. by rewrite lookup_empty in H.
  - intros R room' H.
    destruct (transition_participants _ _ _ _ _ Ht H)
      as [->|(room & Hr & [->|[[x ->]|[x ->]]])].
    + apply NoDup_nil_2.
    + by eapply IH.
    + eapply Set_add_NoDup, IH. done.
    + eapply Set_delete_NoDup, IH. done.
Qed.

Lemma flat_map_delivered_NoDup socks message ps :
  NoDup ps → NoDup (flat_map (λ p, delivered socks (JString p) message) ps).
Proof.
  induction 1 as [|p ps Hp Hps IH]; simpl; [apply NoDup_nil_2|].
  apply NoDup_app. split; [|split; [|done]].
  - pose proof (delivered_length socks (JString p) message) as Hlen.
    destruct (delivered socks (JString p) message) as [|x [|y l]]; simpl in Hlen;
      [apply NoDup_nil_2 | apply NoDup_singleton | lia].
  - intros [id msg] (Heq & _)%elem_of_delivered Hin.
    injection Heq as ->.
    by apply elem_of_flat_map_delivered in Hin as (Hin & _).
Qed.

(** When the admin of a room leaves, [room_closed] is written at most
    once per participant, and to no one who is not a participant. *)
Theorem room_closed_once st C e R room :
  reachable st →
  sockets st !! C = Some e →
  roomCode e = Some R →
  rooms st !! R = Some room →
  adminId room = C →
  ∃ st' out,
    cleanupSocket C st = (Normal (), st', out)
    ∧ NoDup out
    ∧ ∀ sent, sent ∈ out →
        sent.1 ∈ participants room
        ∧ sent.2 = JObject [("type", JString "room_closed")].
Proof.
  intros Hreach He Hc Hroom Hadmin.
  rewrite cleanupSocket_run, He, (current_room_reachable _ _ _ _ Hreach Hc Hroom).
  rewrite (bool_decide_eq_true_2 _ Hadmin).
  eexists _, _. split; [reflexivity|]. split.
  - apply flat_map_delivered_NoDup. by eapply reachable_participants_NoDup.
  - intros [id msg] Hin. by apply elem_of_flat_map_delivered in Hin as (? & ? & _).
Qed.

Lemma room_closed_once_witness :
  let e := {| ws := open_ws; roomCode := Some "0000AB12"; role := Some admin |} in
  let room := {| adminId := idA; participants := [idB] |} in
  reachable st_room
  ∧ sockets st_room !! idA = Some e
  ∧ roomCode e = Some "0000AB12"
  ∧ rooms st_room !! "0000AB12" = Some room
  ∧ adminId room = idA
  ∧ ∃ st' out,
      cleanupSocket idA st_room = (Normal (), st', out)
      ∧ NoDup out
      ∧ ∀ sent, sent ∈ out →
          sent.1 ∈ participants room
          ∧ sent.2 = JObject [("type", JString "room_closed")].
Proof.
  intros e room.
  split; [exact st_room_reachable|]. do 4 (split; [reflexivity|]).
  apply (room_closed_once st_room idA e "0000AB12" room);
    [exact st_room_reachable | reflexivity | reflexivity | reflexivity | reflexivity].
Defined.

(** ** Edge cases of the handlers *)

Lemma requested_code_spaces w1 s w2 :
  is_blank w1 = true → is_blank w2 = true → starts_character s = true →
  requested_code (JObject [("roomCode", JString (w1 +:+ s +:+ w2))]) =
  requested_code (JObject [("roomCode", JString s)]).
Proof.
  intros H1 H2 Hs. unfold requested_code, opt_chain, get_prop, js_or. simpl.
  destruct (String.eqb_spec (w1 +:+ s +:+ w2) "") as [Hall|_];
    destruct (String.eqb_spec s "") as [->|_]; simpl.
  - done.
  - destruct w1; [|done]. destruct s; done.
  - by rewrite trim_padded.
  - by rewrite trim_padded.
Qed.

(** [join_room] does not depend on white space around the code nor on
    the case of its letters: for every text [s], the request with [s]
    padded by white space of any kind ([trim] strips every [WhiteSpace]
    and [LineTerminator] code point), and the request with [s]
    upper-cased, do exactly what the request with [s] itself does. *)
Theorem join_room_normalizes socketId s w1 w2 st :
  is_text s = true →
  is_blank w1 = true →
  is_blank w2 = true →
  handleJoinRoom socketId (JObject [("roomCode", JString (w1 +:+ s +:+ w2))]) st
  = handleJoinRoom socketId (JObject [("roomCode", JString s)]) st
  ∧ handleJoinRoom socketId (JObject [("roomCode", JString (toUpperCase s))]) st
    = handleJoinRoom socketId (JObject [("roomCode", JString s)]) st.
Proof.
  intros Hs H1 H2. apply is_text_starts in Hs.
  by rewrite !handleJoinRoom_run, requested_code_spaces, requested_code_case.
Qed.

(** A no-break space and a tab before the code, an ideographic space and
    a space after it. *)
Lemma join_room_normalizes_witness :
  let before := utf8 0xA0 +:+ utf8 0x9 in
  let after := utf8 0x3000 +:+ " " in
  is_text "0000ab12" = true
  ∧ is_blank before = true
  ∧ is_blank after = true
  ∧ handleJoinRoom idB
      (JObject [("roomCode", JString (before +:+ "0000ab12" +:+ after))]) st_open_room
    = handleJoinRoom idB (JObject [("roomCode", JString "0000ab12")]) st_open_room
  ∧ handleJoinRoom idB
      (JObject [("roomCode", JString (toUpperCase "0000ab12"))]) st_open_room
    = handleJoinRoom idB (JObject [("roomCode", JString "0000ab12")]) st_open_room.
Proof.
  intros before after. do 3 (split; [reflexivity|]).
  apply (join_room_normalizes idB "0000ab12" before after st_open_room); reflexivity.
Defined.

(** What the router drops without a trace: a text [JSON.parse] rejects,
    and a value other than [null] whose [type] is missing, is not a
    string, or is a string other than the five the router knows (so also
    every number, boolean, string and array). *)
Theorem handleMessage_drops JSON_parse u socketId data st :
  match JSON_parse data with
  | None => True
  | Some parsed =>
      parsed ≠ JNull ∧ parsed ≠ JUndefined
      ∧ ∀ t, get_prop parsed "type" = JString t → t ∉ client_types
  end →
  handleMessage JSON_parse u socketId data st = (Normal (), st, []).
Proof.
  unfold handleMessage. destruct (JSON_parse data) as [parsed|]; [|done].
  intros (Hnull & Hundef & Htype). unfold dispatch.
  destruct parsed as [| |b|x|str|l|l]; simpl; try done.
  rewrite run_bind_ret. simpl in Htype.
  destruct (default JUndefined (assoc_get "type" l)) as [| |?|?|t|?|?]; try done.
  specialize (Htype t eq_refl).
  repeat match goal with
         | |- context [String.eqb t ?s] =>
             destruct (String.eqb_spec t s) as [->|_];
             [exfalso; apply Htype; unfold client_types; server_type|]
         end.
  done.
Qed.

Lemma handleMessage_drops_witness :
  match parse_literal "true" with
  | None => True
  | Some parsed =>
      parsed ≠ JNull ∧ parsed ≠ JUndefined
      ∧ ∀ t, get_prop parsed "type" = JString t → t ∉ client_types
  end
  ∧ handleMessage parse_literal uuidR idA "true" st_room = (Normal (), st_room, []).
Proof.
  assert (match parse_literal "true" with
          | None => True
          | Some parsed =>
              parsed ≠ JNull ∧ parsed ≠ JUndefined
              ∧ ∀ t, get_prop parsed "type" = JString t → t ∉ client_types
          end) as H.
  { simpl. split; [discriminate|]. split; [discriminate|]. intros t Ht. discriminate Ht. }
  split; [exact H|].
  exact (handleMessage_drops parse_literal uuidR idA "true" st_room H).
Defined.

(** A request in the name of an id that is not registered does nothing:
    [create_room], [join_room] (whatever its code, even one that is not a
    string), [send_offer] and the cleanup all return at [if (!entry)]. *)
Theorem unregistered_sender_ignored u socketId payload st :
  sockets st !! socketId = None →
  handleCreateRoom u socketId st = (Normal (), st, [])
  ∧ handleJoinRoom socketId payload st = (Normal (), st, [])
  ∧ handleOffer socketId payload st = (Normal (), st, [])
  ∧ cleanupSocket socketId st = (Normal (), st, []).
Proof.
  intros H. split_and!.
  - by rewrite handleCreateRoom_run, H.
  - by rewrite handleJoinRoom_run, H.
  - rewrite handleOffer_run. unfold offer_allowed. by rewrite H.
  - by rewrite cleanupSocket_run, H.
Qed.

Lemma unregistered_sender_ignored_witness :
  let payload := JObject [("roomCode", JNumber number_5); ("viewerId", JString idB);
                          ("offer", JString "sdp")] in
  sockets st_room !! idC = None
  ∧ handleCreateRoom uuidS idC st_room = (Normal (), st_room, [])
  ∧ handleJoinRoom idC payload st_room = (Normal (), st_room, [])
  ∧ handleOffer idC payload st_room = (Normal (), st_room, [])
  ∧ cleanupSocket idC st_room = (Normal (), st_room, []).
Proof.
  intros payload. split; [reflexivity|].
  apply (unregistered_sender_ignored uuidS idC payload st_room). reflexivity.
Defined.

(** The cleanup handler is idempotent for every connection and every
    state: [close] and [error] may both fire, and the second cleanup finds
    no entry and does nothing. *)
Theorem cleanup_idempotent socketId st :
  ∃ st' out,
    cleanupSocket socketId st = (Normal (), st', out)
    ∧ sockets st' !! socketId = None
    ∧ cleanupSocket socketId st' = (Normal (), st', []).
Proof.
  rewrite cleanupSocket_run.
  destruct (sockets st !! socketId) as [e|] eqn:He.
  - assert (∀ st1 : State, sockets st1 !! socketId = None →
              cleanupSocket socketId st1 = (Normal (), st1, [])) as Hagain.
    { intros st1 H1. by rewrite cleanupSocket_run, H1. }
    destruct (current_room st e) as [[code room]|]; [case_bool_decide|];
      eexists _, _; (split; [reflexivity|]);
      (assert (∀ m, delete socketId m !! socketId = (None : option SocketEntry)) as Hdel
         by (intros m; apply lookup_delete_eq));
      (split; [apply Hdel | apply Hagain, Hdel]).
  - eexists _, _. split; [reflexivity|]. split; [done|].
    by rewrite cleanupSocket_run, He.
Qed.

(** ** Life cycle of rooms and connections *)

(** A message leaves the registries alone, creates a room for its
    sender, or attaches its sender to a room. *)
Lemma dispatch_effect u socketId parsed st c st' out :
  dispatch u socketId parsed st = (c, st', out) →
  st' = st
  ∨ (is_Some (sockets st !! socketId) ∧ st' = created u socketId st)
  ∨ (∃ code room, is_Some (sockets st !! socketId) ∧ code ≠ ""
                  ∧ rooms st !! code = Some room ∧ st' = joined code socketId st).
Proof.
  unfold dispatch.
  destruct parsed as [| |b|x|str|l|l]; simpl; try (intros [= _ <- _]; by left);
    rewrite run_bind_ret; try (intros [= _ <- _]; by left).
  destruct (default JUndefined (assoc_get "type" l)) as [| |?|?|t|?|?];
    try (intros [= _ <- _]; by left).
  destruct (String.eqb t "create_room").
  { rewrite handleCreateRoom_run. destruct (sockets st !! socketId) eqn:He;
      intros [= _ <- _]; [right; left; eauto | by left]. }
  destruct (String.eqb t "join_room").
  { rewrite handleJoinRoom_run. destruct (sockets st !! socketId) eqn:He;
      [|intros [= _ <- _]; by left].
    destruct (requested_code _) as [code|]; [|intros [= _ <- _]; by left].
    destruct (String.eqb_spec code ""); [intros [= _ <- _]; by left|].
    destruct (rooms st !! code) as [room|] eqn:Hr; intros [= _ <- _]; [|by left].
    right; right. exists code, room. eauto. }
  destruct (String.eqb t "send_offer").
  { rewrite handleOffer_run. intros [= _ <- _]. by left. }
  destruct (String.eqb t "send_answer").
  { rewrite handleAnswer_run.
    destruct (_ && _); [rewrite sendToSocket_run|]; intros [= _ <- _]; by left. }
  destruct (String.eqb t "ice_candidate").
  { rewrite handleIceCandidate_run.
    destruct (_ && _); [rewrite sendToSocket_run|]; intros [= _ <- _]; by left. }
  intros [= _ <- _]. by left.
Qed.

(** Nothing but a close takes an entry out of a registry: a connection
    disappears only through its own close (or error) event, and a room
    only through the close of its admin, at a moment when the admin's room
    field names that room.  No message, whatever it holds, removes a room
    or a connection. *)
Theorem removed_only_by_close ev st c st' out :
  handle_event ev st = (c, st', out) →
  (∀ p e, sockets st !! p = Some e → sockets st' !! p = None → ev = close p)
  ∧ (∀ R room, rooms st !! R = Some room → rooms st' !! R = None →
       ev = close (adminId room)
       ∧ ∃ e, sockets st !! adminId room = Some e ∧ roomCode e = Some R).
Proof.
  destruct ev as [u|socketId u parsed|socketId|socketId s]; simpl.
  - unfold on_connection. rewrite run_bind_modify. unfold safeSend. simpl.
    intros [= _ <- _]. split.
    + intros p e He Hnone. simpl in Hnone.
      apply lookup_insert_None in Hnone as [Hnone _]. congruence.
    + intros R room Hr Hnone. simpl in Hnone. congruence.
  - intros Hrun.
    destruct (dispatch_effect _ _ _ _ _ _ _ Hrun)
      as [->|[[_ ->]|(code & room0 & _ & _ & _ & ->)]]; split;
      intros ? ? Hsome Hnone; simpl in Hnone; try congruence.
    + apply lookup_alter_None in Hnone. congruence.
    + apply lookup_insert_None in Hnone as [Hnone _]. congruence.
    + apply lookup_alter_None in Hnone. congruence.
    + apply lookup_alter_None in Hnone. congruence.
  - rewrite cleanupSocket_run. destruct (sockets st !! socketId) as [e0|] eqn:He0.
    + destruct (current_room st e0) as [[code room0]|] eqn:Hcur.
      * apply current_room_Some in Hcur as (Hc & Hne & Hroom0).
        case_bool_decide as Hadmin; intros [= _ <- _]; split;
          intros ? ? Hsome Hnone; simpl in Hnone.
        -- apply lookup_delete_None in Hnone as [->|Hnone]; [done|].
           rewrite detach_all_lookup in Hnone.
           case_bool_decide; rewrite Hsome in Hnone; done.
        -- apply lookup_delete_None in Hnone as [->|Hnone]; [|congruence].
           rewrite Hroom0 in Hsome. injection Hsome as <-.
           rewrite Hadmin. eauto.
        -- apply lookup_delete_None in Hnone as [->|Hnone]; [done|congruence].
        -- apply lookup_alter_None in Hnone. congruence.
      * intros [= _ <- _]. split; intros ? ? Hsome Hnone; simpl in Hnone.
        -- apply lookup_delete_None in Hnone as [->|Hnone]; [done|congruence].
        -- congruence.
    + intros [= _ <- _]. split; intros ? ? Hsome Hnone; congruence.
  - intros [= _ <- _]. split; intros ? ? Hsome Hnone; simpl in Hnone.
    + apply lookup_alter_None in Hnone. congruence.
    + congruence.
Qed.

Lemma removed_only_by_close_witness :
  ∃ st' out,
    handle_event (close idA) st_room = (Normal (), st', out)
    ∧ (∀ p e, sockets st_room !! p = Some e → sockets st' !! p = None → close idA = close p)
    ∧ (∀ R room, rooms st_room !! R = Some room → rooms st' !! R = None →
         close idA = close (adminId room)
         ∧ ∃ e, sockets st_room !! adminId room = Some e ∧ roomCode e = Some R).
Proof.
  eexists _, _.
  assert (handle_event (close idA) st_room
          = (Normal (), closed_room "0000AB12" idA
                          {| adminId := idA; participants := [idB] |} st_room,
             [(idB, JObject [("type", JString "room_closed")])]))
    as Hrun by (vm_compute; reflexivity).
  split; [exact Hrun|].
  exact (removed_only_by_close _ _ _ _ _ Hrun).
Defined.

(** ** Who a relayed message comes from *)

Lemma sender_stamped socks target t payload id msg k socketId :
  (id, msg) ∈ delivered socks target (spread t payload) →
  get_prop (spread t payload) "type" = JString t →
  sender_field t = Some k →
  get_prop (spread t payload) k = JString socketId →
  ∃ t', get_prop msg "type" = JString t'
        ∧ ∀ k', sender_field t' = Some k' → get_prop msg k' = JString socketId.
Proof.
  intros (_ & -> & _)%elem_of_delivered Ht Hk Hv.
  exists t. split; [done|]. intros k' Hk'. congruence.
Qed.

Lemma unsigned_delivered socks target t payload id msg socketId :
  (id, msg) ∈ delivered socks target (spread t payload) →
  get_prop (spread t payload) "type" = JString t →
  sender_field t = None →
  ∃ t', get_prop msg "type" = JString t'
        ∧ ∀ k', sender_field t' = Some k' → get_prop msg k' = JString socketId.
Proof.
  intros (_ & -> & _)%elem_of_delivered Ht Hk.
  exists t. split; [done|]. intros k' Hk'. congruence.
Qed.

(** The sender named in a relayed message is the connection the message
    came in on: [receive_offer] carries it as [adminId], [receive_answer]
    and [viewer_joined] as [viewerId], [ice_candidate] as [from], and
    nothing the payload holds (an [adminId], [viewerId], [from] or [type]
    of its own) changes that. *)
Theorem relayed_sender_authentic u socketId parsed st c st' out id msg :
  dispatch u socketId parsed st = (c, st', out) → (id, msg) ∈ out →
  ∃ t, get_prop msg "type" = JString t
       ∧ ∀ k, sender_field t = Some k → get_prop msg k = JString socketId.
Proof.
  unfold dispatch.
  destruct parsed as [| |b|x|str|l|l]; simpl;
    try (intros [= _ _ <-] Hin; by apply elem_of_nil in Hin);
    rewrite run_bind_ret;
    try (intros [= _ _ <-] Hin; by apply elem_of_nil in Hin).
  destruct (default JUndefined (assoc_get "type" l)) as [| |?|?|t|?|?];
    try (intros [= _ _ <-] Hin; by apply elem_of_nil in Hin).
  destruct (String.eqb t "create_room").
  { rewrite handleCreateRoom_run. destruct (sockets st !! socketId).
    - intros [= _ _ <-] Hin. by eapply unsigned_delivered.
    - intros [= _ _ <-] Hin. by apply elem_of_nil in Hin. }
  destruct (String.eqb t "join_room").
  { rewrite handleJoinRoom_run. destruct (sockets st !! socketId).
    - destruct (requested_code _) as [code|].
      + destruct (if String.eqb code "" then None else rooms st !! code) as [room|].
        * intros [= _ _ <-] Hin. apply elem_of_app in Hin as [Hin|Hin].
          -- by eapply unsigned_delivered.
          -- by eapply sender_stamped.
        * intros [= _ _ <-] Hin. by eapply unsigned_delivered.
      + intros [= _ _ <-] Hin. by apply elem_of_nil in Hin.
    - intros [= _ _ <-] Hin. by apply elem_of_nil in Hin. }
  destruct (String.eqb t "send_offer").
  { rewrite handleOffer_run. intros [= _ _ <-] Hin.
    destruct (offer_allowed _ _ _); [|by apply elem_of_nil in Hin].
    by eapply sender_stamped. }
  destruct (String.eqb t "send_answer").
  { rewrite handleAnswer_run. destruct (_ && _).
    - rewrite sendToSocket_run. intros [= _ _ <-] Hin. by eapply sender_stamped.
    - intros [= _ _ <-] Hin. by apply elem_of_nil in Hin. }
  destruct (String.eqb t "ice_candidate").
  { rewrite handleIceCandidate_run. destruct (_ && _).
    - rewrite sendToSocket_run. intros [= _ _ <-] Hin. by eapply sender_stamped.
    - intros [= _ _ <-] Hin. by apply elem_of_nil in Hin. }
  intros [= _ _ <-] Hin. by apply elem_of_nil in Hin.
Qed.

(** B answers A and puts C's id into the payload as [viewerId]; A is
    told the answer comes from B. *)
Lemma relayed_sender_authentic_witness :
  let parsed := JObject [("type", JString "send_answer"); ("adminId", JString idA);
                         ("answer", JString "sdp"); ("viewerId", JString idC)] in
  let msg := JObject [("type", JString "receive_answer"); ("viewerId", JString idB);
                      ("answer", JString "sdp")] in
  dispatch uuidS idB parsed st_room = (Normal (), st_room, [(idA, msg)])
  ∧ (idA, msg) ∈ [(idA, msg)]
  ∧ ∃ t, get_prop msg "type" = JString t
         ∧ ∀ k, sender_field t = Some k → get_prop msg k = JString idB.
Proof.
  intros parsed msg.
  assert (dispatch uuidS idB parsed st_room = (Normal (), st_room, [(idA, msg)]))
    as Hrun by (vm_compute; reflexivity).
  assert ((idA, msg) ∈ [(idA, msg)]) as Hin by (by left).
  split; [exact Hrun|]. split; [exact Hin|].
  exact (relayed_sender_authentic _ _ _ _ _ _ _ _ _ Hrun Hin).
Defined.

(** ** Ids in the registries *)

Lemma transition_ids D st st' :
  transition D st st' →
  (∀ p, is_Some (sockets st' !! p) → is_uuid p = true ∨ is_Some (sockets st !! p))
  ∧ (∀ R room', rooms st' !! R = Some room' →
       (is_Some (sockets st !! adminId room') ∧ participants room' = [])
       ∨ ∃ room, rooms st !! R = Some room ∧ adminId room' = adminId room
           ∧ ∀ p, p ∈ participants room' →
               p ∈ participants room ∨ is_Some (sockets st !! p)).
Proof.
  intros Ht.
  assert (∀ R room', rooms st !! R = Some room' →
            (is_Some (sockets st !! adminId room') ∧ participants room' = [])
            ∨ ∃ room, rooms st !! R = Some room ∧ adminId room' = adminId room
                ∧ ∀ p, p ∈ participants room' →
                    p ∈ participants room ∨ is_Some (sockets st !! p)) as Hsame.
  { intros R room' Hr. right. exists room'. auto. }
  destruct Ht as
    [ | u Hu _ | u socketId e0 Hu He0 _ | code socketId e0 room0 He0 _ Hne Hroom0
    | code socketId e0 room0 He0 Hc Hne Hroom0 Hadmin
    | code socketId e0 room0 He0 Hc Hne Hroom0 Hadmin
    | socketId e0 He0 Hnone | socketId s ]; simpl; (split; [intros p Hp|intros R room' Hr]).
  - auto.
  - auto.
  - destruct (decide (u = p)) as [<-|Hne]; [by left|].
    rewrite lookup_insert_ne in Hp by done. auto.
  - auto.
  - right. destruct Hp as [x Hx].
    apply lookup_alter_Some in Hx as [(<- & ? & ? & _)|[_ Hx]]; eauto.
  - apply lookup_insert_Some in Hr as [[_ <-]|[_ Hr]]; [|auto].
    left. simpl. eauto.
  - right. destruct Hp as [x Hx].
    apply lookup_alter_Some in Hx as [(<- & ? & ? & _)|[_ Hx]]; eauto.
  - apply lookup_alter_Some in Hr as [(_ & r & Hr & ->)|[_ Hr]]; [|auto].
    right. exists r. simpl. split; [done|]. split; [done|].
    intros p [->|Hp]%Set_add_elem_iff; eauto.
  - right. destruct Hp as [x Hx]. apply lookup_delete_Some in Hx as [_ Hx].
    rewrite detach_all_lookup in Hx. case_bool_decide; [|eauto].
    destruct (sockets st !! p); [eauto|done].
  - apply lookup_delete_Some in Hr as [_ Hr]. auto.
  - right. destruct Hp as [x Hx]. apply lookup_delete_Some in Hx as [_ Hx]. eauto.
  - apply lookup_alter_Some in Hr as [(_ & r & Hr & ->)|[_ Hr]]; [|auto].
    right. exists r. simpl. split; [done|]. split; [done|].
    intros p [_ Hp]%Set_delete_elem_iff. auto.
  - right. destruct Hp as [x Hx]. apply lookup_delete_Some in Hx as [_ Hx]. eauto.
  - auto.
  - right. destruct Hp as [x Hx].
    apply lookup_alter_Some in Hx as [(<- & ? & ? & _)|[_ Hx]]; eauto.
  - auto.
Qed.

Lemma reachable_ids_issued st :
  reachable st →
  (∀ p, is_Some (sockets st !! p) → is_uuid p = true)
  ∧ (∀ R room, rooms st !! R = Some room →
       is_uuid (adminId room) = true
       ∧ ∀ p, p ∈ participants room → is_uuid p = true).
Proof.
  intros Hreach.
  induction Hreach as [|st st' [IHs IHr] Ht] using reachable_ind_transition.
  - split.
    + intros p [x Hx]. simpl in Hx. by rewrite lookup_empty in Hx.
    + intros R room H. simpl in H. by rewrite lookup_empty in H.
  - destruct (transition_ids _ _ _ Ht) as [Hs Hr]. split.
    + intros p Hp. destruct (Hs p Hp); auto.
    + intros R room' Hroom'.
      destruct (Hr R room' Hroom') as [[Ha ->]|(room & Hroom & -> & Hp)].
      * split; [auto|]. by intros p ?%elem_of_nil.
      * destruct (IHr R room Hroom) as [Ha Hps]. split; [done|].
        intros p Hin. destruct (Hp p Hin); auto.
Qed.

(** Only a [connection] event puts a new key into the connection
    registry: the id drawn at that connection. *)
Lemma handle_event_registers ev st c st' out p :
  handle_event ev st = (c, st', out) →
  is_Some (sockets st' !! p) →
  is_Some (sockets st !! p) ∨ ev = connection p.
Proof.
  destruct ev as [u|socketId u parsed|socketId|socketId s]; simpl.
  - unfold on_connection. rewrite run_bind_modify. unfold safeSend. simpl.
    intros [= _ <- _] Hp. simpl in Hp.
    destruct (decide (u = p)) as [->|Hne]; [by right|].
    rewrite lookup_insert_ne in Hp by done. by left.
  - intros Hrun [x Hx]. left.
    destruct (dispatch_effect _ _ _ _ _ _ _ Hrun)
      as [->|[[_ ->]|(code & room0 & _ & _ & _ & ->)]]; simpl in Hx; [eauto| |];
      apply lookup_alter_Some in Hx as [(_ & ? & ? & _)|[_ Hx]]; eauto.
  - rewrite cleanupSocket_run. intros Hrun [x Hx]. left.
    destruct (sockets st !! socketId) as [e0|] eqn:He0;
      [|injection Hrun as _ <- _; eauto].
    destruct (current_room st e0) as [[code room0]|];
      [case_bool_decide|]; injection Hrun as _ <- _; simpl in Hx;
      apply lookup_delete_Some in Hx as [_ Hx]; eauto.
    rewrite detach_all_lookup in Hx. case_bool_decide; [|eauto].
    destruct (sockets st !! p); [eauto|done].
  - intros [= _ <- _] [x Hx]. left. simpl in Hx.
    apply lookup_alter_Some in Hx as [(_ & ? & ? & _)|[_ Hx]]; eauto.
Qed.

Lemma run_events_ids evs : ∀ st st' (ids : string → Prop),
  run_events evs st = Some st' →
  ids_among ids st →
  ids_among (λ p, ids p ∨ connection p ∈ evs) st'.
Proof.
  induction evs as [|ev evs IH]; intros st st' ids Hrun [Hs Hr].
  - injection Hrun as <-. split; [by left; apply Hs|].
    intros R room Hroom. destruct (Hr R room Hroom) as [Ha Hp]. split; [by left|].
    intros p Hin. left. by apply Hp.
  - unfold run_events in Hrun. simpl in Hrun.
    destruct (event_ok ev) eqn:Hok; [|done].
    destruct (handle_event ev st) as [[[[]|e] st1] out] eqn:Hev; [|done].
    assert (ids_among (λ p, ids p ∨ p ∈ match ev with connection u => [u] | _ => [] end) st1)
      as Hmid.
    { split.
      - intros p Hp.
        destruct (handle_event_registers _ _ _ _ _ p Hev Hp) as [Hold| ->];
          [left; by apply Hs | right; by left].
      - intros R room' Hroom'.
        pose proof (handle_event_transition False _ _ _ _ Hok (λ f, False_ind _ f) Hev) as Ht.
        destruct (transition_ids _ _ _ Ht) as [_ Hrooms].
        destruct (Hrooms R room' Hroom') as [[Ha ->]|(room & Hroom & -> & Hp)].
        + split; [left; by apply Hs|]. by intros p ?%elem_of_nil.
        + destruct (Hr R room Hroom) as [Ha Hps]. split; [by left|].
          intros p Hin. left. destruct (Hp p Hin); auto. }
    destruct (IH st1 st' _ Hrun Hmid) as [Hs' Hr'].
    assert (∀ p, (ids p ∨ p ∈ match ev with connection u => [u] | _ => [] end)
                 ∨ connection p ∈ evs → ids p ∨ connection p ∈ ev :: evs) as Hweak.
    { intros p [[Hi|Hin]|Hin]; [by left| |right; by right].
      right. destruct ev; try by apply elem_of_nil in Hin.
      apply list_elem_of_singleton in Hin as ->. by left. }
    split; [intros p Hp; apply Hweak, Hs', Hp|].
    intros R room Hroom. destruct (Hr' R room Hroom) as [Ha Hp].
    split; [by apply Hweak|]. intros p Hin. by apply Hweak, Hp.
Qed.

Lemma run_events_issued_uuid evs : ∀ st st' u,
  run_events evs st = Some st' → connection u ∈ evs → is_uuid u = true.
Proof.
  induction evs as [|ev evs IH]; intros st st' u Hrun Hin; [by apply elem_of_nil in Hin|].
  unfold run_events in Hrun. simpl in Hrun.
  destruct (event_ok ev) eqn:Hok; [|done].
  destruct (handle_event ev st) as [[[[]|e] st1] out] eqn:Hev; [|done].
  apply elem_of_cons in Hin as [<-|Hin]; [done|]. by apply (IH st1 st').
Qed.

(** Every id the registries hold was handed out by the server.  After
    any sequence of events from the empty registries, each key of the
    connection registry, the admin of every room and every participant of
    every room is the id drawn at one of the [connection] events of that
    sequence, and so a UUID; no handler ever stores an id a client
    supplied in a message. *)
Theorem ids_are_issued evs st :
  run_events evs initial = Some st →
  (∀ p, is_Some (sockets st !! p) → connection p ∈ evs ∧ is_uuid p = true)
  ∧ (∀ R room, rooms st !! R = Some room →
       (connection (adminId room) ∈ evs ∧ is_uuid (adminId room) = true)
       ∧ ∀ p, p ∈ participants room → connection p ∈ evs ∧ is_uuid p = true).
Proof.
  intros Hrun.
  assert (ids_among (λ _, False) initial) as H0.
  { split; [intros p [x Hx]|intros R room Hroom]; simpl in *;
      by rewrite lookup_empty in *. }
  destruct (run_events_ids evs initial st _ Hrun H0) as [Hs Hr].
  assert (∀ p, False ∨ connection p ∈ evs → connection p ∈ evs ∧ is_uuid p = true) as Hin.
  { intros p [[]|Hp]. split; [done|]. by apply (run_events_issued_uuid evs initial st). }
  split; [intros p Hp; by apply Hin, Hs|].
  intros R room Hroom. destruct (Hr R room Hroom) as [Ha Hp].
  split; [by apply Hin|]. intros p Hp'. by apply Hin, Hp.
Qed.

Lemma ids_are_issued_witness :
  run_events trace_moved initial = Some st_moved
  ∧ (∀ p, is_Some (sockets st_moved !! p) → connection p ∈ trace_moved ∧ is_uuid p = true)
  ∧ (∀ R room, rooms st_moved !! R = Some room →
       (connection (adminId room) ∈ trace_moved ∧ is_uuid (adminId room) = true)
       ∧ ∀ p, p ∈ participants room → connection p ∈ trace_moved ∧ is_uuid p = true).
Proof.
  split; [exact st_moved_run|].
  apply (ids_are_issued trace_moved st_moved). exact st_moved_run.
Defined.

(** ** Sessions that end where they began *)

Lemma State_eta st : {| rooms := rooms st; sockets := sockets st |} = st.
Proof. by destruct st. Qed.

Lemma Set_delete_not_in x s : x ∉ s → Set_delete x s = s.
Proof.
  unfold Set_delete. induction s as [|y s IH]; [done|].
  intros Hx. apply not_elem_of_cons in Hx as [Hne Hx].
  rewrite filter_cons_True by done. by rewrite IH.
Qed.

Lemma Set_delete_add x s : x ∉ s → Set_delete x (Set_add x s) = s.
Proof.
  intros Hx. unfold Set_add. rewrite bool_decide_eq_false_2 by done.
  unfold Set_delete. rewrite filter_app, filter_cons_False, filter_nil, app_nil_r.
  - by apply Set_delete_not_in.
  - by intros H.
Qed.

(** A connection that closes before it asked for anything leaves no
    trace: the registries are what they were before it was accepted. *)
Theorem connect_then_close u st :
  sockets st !! u = None →
  ∃ st1,
    on_connection u st =
      (Normal (), st1,
       [(u, JObject [("type", JString "socket_id"); ("socketId", JString u)])])
    ∧ sockets st1 !! u =
        Some {| ws := {| readyState := OPEN |}; roomCode := None; role := None |}
    ∧ cleanupSocket u st1 = (Normal (), st, []).
Proof.
  intros Hfresh. unfold on_connection. rewrite run_bind_modify. unfold safeSend. simpl.
  eexists. split; [reflexivity|]. split; [simpl; apply lookup_insert_eq|].
  rewrite cleanupSocket_run. simpl. rewrite lookup_insert_eq. simpl.
  unfold unregistered. simpl.
  by rewrite delete_insert_eq, delete_id, State_eta.
Qed.

Lemma connect_then_close_witness :
  sockets st_room !! idC = None
  ∧ ∃ st1,
      on_connection idC st_room =
        (Normal (), st1,
         [(idC, JObject [("type", JString "socket_id"); ("socketId", JString idC)])])
      ∧ sockets st1 !! idC =
          Some {| ws := {| readyState := OPEN |}; roomCode := None; role := None |}
      ∧ cleanupSocket idC st1 = (Normal (), st_room, []).
Proof.
  split; [reflexivity|]. apply (connect_then_close idC st_room). reflexivity.
Defined.

(** A room nobody joined goes as it came: when a connection creates a
    room under a code not in use and then closes, the room registry is
    what it was, nothing is written at the close, and only the
    connection's entry is gone. *)
Theorem create_then_close u socketId e st :
  is_uuid u = true →
  sockets st !! socketId = Some e →
  rooms st !! shortRoomCode u = None →
  ∃ st1 out1,
    handleCreateRoom u socketId st = (Normal (), st1, out1)
    ∧ rooms st1 !! shortRoomCode u = Some {| adminId := socketId; participants := [] |}
    ∧ cleanupSocket socketId st1 =
        (Normal (), {| rooms := rooms st; sockets := delete socketId (sockets st) |}, []).
Proof.
  intros Hu He Hfresh. rewrite handleCreateRoom_run, He.
  eexists _, _. split; [reflexivity|]. split; [simpl; apply lookup_insert_eq|].
  rewrite cleanupSocket_run. simpl. rewrite lookup_alter_eq, He. simpl.
  unfold current_room, code_truthy. simpl.
  destruct (String.eqb_spec (shortRoomCode u) "") as [Hempty|_].
  { by apply shortRoomCode_nonempty in Hempty. }
  simpl. rewrite lookup_insert_eq. simpl.
  rewrite bool_decide_eq_true_2 by done.
  unfold closed_room, detach_all. simpl.
  by rewrite delete_insert_eq, delete_id, delete_alter_eq.
Qed.

Lemma create_then_close_witness :
  is_uuid uuidR = true
  ∧ sockets st_lobby !! idA = Some unassigned_entry
  ∧ rooms st_lobby !! shortRoomCode uuidR = None
  ∧ ∃ st1 out1,
      handleCreateRoom uuidR idA st_lobby = (Normal (), st1, out1)
      ∧ rooms st1 !! shortRoomCode uuidR = Some {| adminId := idA; participants := [] |}
      ∧ cleanupSocket idA st1 =
          (Normal (), {| rooms := rooms st_lobby; sockets := delete idA (sockets st_lobby) |},
           []).
Proof.
  do 3 (split; [reflexivity|]).
  apply (create_then_close uuidR idA unassigned_entry st_lobby); reflexivity.
Defined.

(** Joining and leaving cancel out: when a connection that is neither
    the admin nor yet a participant of a room joins it and then closes,
    the room registry is exactly what it was before the join (the room
    keeps its admin and its participants, in their order), nothing is
    written at the close, and only the connection's entry is gone. *)
Theorem join_then_leave socketId e payload code room st :
  reachable st →
  sockets st !! socketId = Some e →
  requested_code payload = Some code →
  rooms st !! code = Some room →
  socketId ∉ participants room →
  adminId room ≠ socketId →
  ∃ st1 out1,
    handleJoinRoom socketId payload st = (Normal (), st1, out1)
    ∧ (∃ room1, rooms st1 !! code = Some room1 ∧ socketId ∈ participants room1)
    ∧ cleanupSocket socketId st1 =
        (Normal (), {| rooms := rooms st; sockets := delete socketId (sockets st) |}, []).
Proof.
  intros Hreach He Hc Hroom Hin Hadmin. rewrite handleJoinRoom_run, He, Hc.
  pose proof (reachable_room_nonempty _ _ _ Hreach Hroom) as Hne.
  destruct (String.eqb_spec code ""); [done|]. rewrite Hroom.
  eexists _, _. split; [reflexivity|]. split.
  { eexists. simpl. rewrite lookup_alter_eq, Hroom. simpl. split; [done|].
    apply Set_add_elem. }
  rewrite cleanupSocket_run. simpl. rewrite lookup_alter_eq, He. simpl.
  unfold current_room, code_truthy. simpl.
  destruct (String.eqb_spec code ""); [done|]. simpl.
  rewrite lookup_alter_eq, Hroom. simpl.
  rewrite bool_decide_eq_false_2 by done.
  unfold left_room. simpl. rewrite alter_alter_eq, delete_alter_eq, alter_id; [done|].
  intros r Hr. rewrite Hroom in Hr. injection Hr as <-. simpl.
  rewrite Set_delete_add by done. by destruct room.
Qed.

Lemma join_then_leave_witness :
  let payload := JObject [("roomCode", JString "0000ab12")] in
  let room := {| adminId := idA; participants := [] |} in
  reachable st_open_room
  ∧ sockets st_open_room !! idB = Some unassigned_entry
  ∧ requested_code payload = Some "0000AB12"
  ∧ rooms st_open_room !! "0000AB12" = Some room
  ∧ (idB ∉ participants room)
  ∧ adminId room ≠ idB
  ∧ ∃ st1 out1,
      handleJoinRoom idB payload st_open_room = (Normal (), st1, out1)
      ∧ (∃ room1, rooms st1 !! "0000AB12" = Some room1 ∧ idB ∈ participants room1)
      ∧ cleanupSocket idB st1 =
          (Normal (), {| rooms := rooms st_open_room;
                         sockets := delete idB (sockets st_open_room) |}, []).
Proof.
  intros payload room.
  assert (Hin : idB ∉ participants room) by (simpl; apply not_elem_of_nil).
  assert (Hadmin : adminId room ≠ idB) by (simpl; discriminate).
  split; [exact st_open_room_reachable|]. do 3 (split; [reflexivity|]).
  split; [exact Hin|]. split; [exact Hadmin|].
  apply (join_then_leave idB unassigned_entry payload "0000AB12" room st_open_room);
    [exact st_open_room_reachable | reflexivity | reflexivity | reflexivity
    | exact Hin | exact Hadmin].
Defined.

(** ** After a room is closed, and after a viewer joined *)

(** Once the admin whose room field names it has gone, a room is gone
    for everyone: after the cleanup of a connection [C] whose room field
    names a room [R] with [adminId] [C], whoever asks for the code of [R]
    gets [room_error] and stays as it was.  (A room that its admin's room
    field no longer names is not closed by that cleanup, and can still be
    joined.) *)
Theorem closed_room_cannot_be_joined st C e R room payload :
  reachable st →
  sockets st !! C = Some e →
  roomCode e = Some R →
  rooms st !! R = Some room →
  adminId room = C →
  requested_code payload = Some R →
  ∃ st1 out1,
    cleanupSocket C st = (Normal (), st1, out1)
    ∧ ∀ q eq, sockets st1 !! q = Some eq →
        handleJoinRoom q payload st1 =
        (Normal (), st1,
         delivered (sockets st1) (JString q)
           (JObject [("type", JString "room_error");
                     ("message", JString "Room does not exist")])).
Proof.
  intros Hreach He Hc Hroom Hadmin Hpay.
  rewrite cleanupSocket_run, He, (current_room_reachable _ _ _ _ Hreach Hc Hroom).
  rewrite (bool_decide_eq_true_2 _ Hadmin).
  eexists _, _. split; [reflexivity|].
  intros q eq Hq. rewrite handleJoinRoom_run, Hq, Hpay. simpl.
  rewrite lookup_delete_eq. by destruct (String.eqb R "").
Qed.

Lemma closed_room_cannot_be_joined_witness :
  let e := {| ws := open_ws; roomCode := Some "0000AB12"; role := Some admin |} in
  let room := {| adminId := idA; participants := [idB] |} in
  let payload := JObject [("roomCode", JString "0000ab12")] in
  reachable st_room
  ∧ sockets st_room !! idA = Some e
  ∧ roomCode e = Some "0000AB12"
  ∧ rooms st_room !! "0000AB12" = Some room
  ∧ adminId room = idA
  ∧ requested_code payload = Some "0000AB12"
  ∧ ∃ st1 out1,
      cleanupSocket idA st_room = (Normal (), st1, out1)
      ∧ ∀ q eq, sockets st1 !! q = Some eq →
          handleJoinRoom q payload st1 =
          (Normal (), st1,
           delivered (sockets st1) (JString q)
             (JObject [("type", JString "room_error");
                       ("message", JString "Room does not exist")])).
Proof.
  intros e room payload.
  split; [exact st_room_reachable|]. do 5 (split; [reflexivity|]).
  apply (closed_room_cannot_be_joined st_room idA e "0000AB12" room payload);
    [exact st_room_reachable | reflexivity..].
Defined.

(** An admin can reach every viewer that joins its room: right after
    another connection, with an open channel, joined the room the admin's
    room field names, the admin's [send_offer] for that connection is
    delivered to it, carrying the offer and the admin's id. *)
Theorem offer_reaches_new_viewer st A eA B eB R room payload offer :
  reachable st →
  sockets st !! A = Some eA → role eA = Some admin → roomCode eA = Some R →
  rooms st !! R = Some room →
  sockets st !! B = Some eB → readyState (ws eB) = OPEN →
  A ≠ B →
  requested_code payload = Some R →
  truthy offer = true →
  ∃ st1 out1,
    handleJoinRoom B payload st = (Normal (), st1, out1)
    ∧ handleOffer A (JObject [("viewerId", JString B); ("offer", offer)]) st1 =
      (Normal (), st1,
       [(B, JObject [("type", JString "receive_offer"); ("offer", offer);
                     ("adminId", JString A)])]).
Proof.
  intros Hreach HA Hrole Hcode Hroom HB Hopen Hne Hpay Hoffer.
  rewrite handleJoinRoom_run, HB, Hpay.
  pose proof (reachable_room_nonempty _ _ _ Hreach Hroom) as HR.
  destruct (String.eqb_spec R ""); [done|]. rewrite Hroom.
  eexists _, _. split; [reflexivity|].
  assert (B ≠ "") as HBne.
  { intros ->. destruct (reachable_ids_issued st Hreach) as [Hids _].
    specialize (Hids "" (mk_is_Some _ _ HB)). discriminate Hids. }
  rewrite handleOffer_run. unfold offer_allowed. simpl.
  rewrite lookup_alter_ne, HA, Hrole, Hcode by done. simpl.
  rewrite lookup_alter_eq, Hroom. simpl.
  unfold payload_field, js_or. simpl.
  destruct (String.eqb_spec B ""); [done|]. simpl. rewrite Hoffer. simpl.
  rewrite (bool_decide_eq_true_2 _ (Set_add_elem B (participants room))).
  rewrite delivered_alter_ws by done.
  by rewrite (delivered_open _ _ eB).
Qed.

Lemma offer_reaches_new_viewer_witness :
  let eA := {| ws := open_ws; roomCode := Some "0000AB12"; role := Some admin |} in
  let room := {| adminId := idA; participants := [] |} in
  let payload := JObject [("roomCode", JString "0000ab12")] in
  reachable st_open_room
  ∧ sockets st_open_room !! idA = Some eA ∧ role eA = Some admin
  ∧ roomCode eA = Some "0000AB12"
  ∧ rooms st_open_room !! "0000AB12" = Some room
  ∧ sockets st_open_room !! idB = Some unassigned_entry
  ∧ readyState (ws unassigned_entry) = OPEN
  ∧ idA ≠ idB
  ∧ requested_code payload = Some "0000AB12"
  ∧ truthy (JString "sdp") = true
  ∧ ∃ st1 out1,
      handleJoinRoom idB payload st_open_room = (Normal (), st1, out1)
      ∧ handleOffer idA (JObject [("viewerId", JString idB); ("offer", JString "sdp")]) st1 =
        (Normal (), st1,
         [(idB, JObject [("type", JString "receive_offer"); ("offer", JString "sdp");
                         ("adminId", JString idA)])]).
Proof.
  intros eA room payload.
  assert (Hne : idA ≠ idB) by discriminate.
  split; [exact st_open_room_reachable|]. do 6 (split; [reflexivity|]).
  split; [exact Hne|]. do 2 (split; [reflexivity|]).
  apply (offer_reaches_new_viewer st_open_room idA eA idB unassigned_entry
           "0000AB12" room payload (JString "sdp"));
    [exact st_open_room_reachable | reflexivity | reflexivity | reflexivity
    | reflexivity | reflexivity | reflexivity | exact Hne | reflexivity | reflexivity].
Defined.

(** * Properties of the page *)

(** ** The queue of the signaling client *)

Lemma sent_app acts1 acts2 :
  Client.sent (acts1 ++ acts2) = Client.sent acts1 ++ Client.sent acts2.
Proof. unfold Client.sent. apply omap_app. Qed.

Lemma each_ws_send l pg :
  Client.each l (λ message, Client.act (Client.ws_send message)) pg =
  (Normal (), pg, Client.ws_send <$> l).
Proof.
  revert pg. induction l as [|m l IH]; intros pg; [done|].
  simpl. unfold mbind, Client.P_bind. simpl. by rewrite IH.
Qed.

Lemma sent_ws_send l : Client.sent (Client.ws_send <$> l) = l.
Proof.
  unfold Client.sent. induction l as [|m l IH]; [done|]. simpl. by f_equal.
Qed.

Lemma step_queue ev pg pg' acts :
  queue_settled (Client.socket pg) →
  Client.step ev pg = Some (pg', acts) →
  queue_settled (Client.socket pg')
  ∧ Client.sent acts ++ Client.queuedMessages (Client.socket pg') =
    Client.queuedMessages (Client.socket pg) ++ Client.emitted [ev].
Proof.
  intros [Hclosed Hempty]. destruct pg as [[o r q ls] g]. simpl in *.
  destruct ev as [t payload| | |]; simpl.
  - unfold Client.emit, mbind, Client.P_bind, Client.read, Client.sendable. simpl.
    destruct o, r; simpl; intros [= <- <-]; simpl;
      try (split; [split; simpl; [done|intros [=]] | done]).
    + split; [by split|]. by rewrite (Hempty eq_refl).
    + by destruct Hclosed.
  - destruct r; try done.
    cbv beta iota zeta delta
      [mbind Client.P_bind Client.set_ready Client.update_socket Client.on_open
       Client.read Client.socket Client.globals Client.queuedMessages Client.readyState
       Client.isOpen Client.listeners].
    rewrite each_ws_send. simpl. intros [= <- <-]. simpl.
    split; [by split|]. by rewrite sent_ws_send, !app_nil_r.
  - destruct r; try done; simpl; intros [= <- <-]; simpl;
      (split; [by split|]); by rewrite app_nil_r.
  - destruct r; try done; simpl; intros [= <- <-]; simpl;
      (split; [by split|]); by rewrite app_nil_r.
Qed.

Lemma run_queue evs pg pg' acts :
  queue_settled (Client.socket pg) →
  Client.run evs pg = Some (pg', acts) →
  queue_settled (Client.socket pg')
  ∧ Client.sent acts ++ Client.queuedMessages (Client.socket pg') =
    Client.queuedMessages (Client.socket pg) ++ Client.emitted evs.
Proof.
  revert pg acts. induction evs as [|ev evs IH]; intros pg acts Hq; simpl.
  - intros [= <- <-]. split; [done|]. by rewrite app_nil_r.
  - destruct (Client.step ev pg) as [[pg1 acts1]|] eqn:Hstep; [|done]. simpl.
    destruct (Client.run evs pg1) as [[pg2 acts2]|] eqn:Hrun; [|done]. simpl.
    intros [= <- <-].
    destruct (step_queue _ _ _ _ Hq Hstep) as [Hq1 H1].
    destruct (IH _ _ Hq1 Hrun) as [Hq2 H2]. split; [done|].
    rewrite sent_app, <- app_assoc, H2, app_assoc, H1, <- app_assoc.
    f_equal. by destruct ev.
Qed.

(** No message of the page is lost, repeated or overtaken: whatever the
    page emits and whenever the browser opens and closes the channel, the
    messages written to the channel followed by the messages still queued
    are the messages emitted, in the order of the calls of [emit].  While
    the channel is OPEN the queue is empty, so everything emitted has been
    written. *)
Theorem emitted_in_order evs pg acts :
  Client.run evs Client.loaded = Some (pg, acts) →
  Client.sent acts ++ Client.queuedMessages (Client.socket pg) = Client.emitted evs
  ∧ (Client.readyState (Client.socket pg) = OPEN → Client.sent acts = Client.emitted evs).
Proof.
  intros Hrun.
  destruct (run_queue evs Client.loaded pg acts) as [[_ Hempty] Heq]; [by split|done|].
  simpl in Heq. split; [done|].
  intros Hopen. rewrite (Hempty Hopen), app_nil_r in Heq. done.
Qed.

Lemma emitted_in_order_witness :
  let evs := [Client.emits "create_room" []; Client.opens;
              Client.emits "send_offer" [("viewerId", JString idB)]] in
  ∃ pg acts,
    Client.run evs Client.loaded = Some (pg, acts)
    ∧ Client.sent acts ++ Client.queuedMessages (Client.socket pg) = Client.emitted evs
    ∧ (Client.readyState (Client.socket pg) = OPEN →
       Client.sent acts = Client.emitted evs).
Proof.
  intros evs.
  destruct (Client.run evs Client.loaded) as [[pg acts]|] eqn:Hrun;
    [|vm_compute in Hrun; discriminate Hrun].
  exists pg, acts. split; [reflexivity|].
  exact (emitted_in_order evs pg acts Hrun).
Defined.

(** ** Asking to join a room *)

(** The code the page sends is already in the form the server looks up. *)
Lemma requested_code_normal s :
  trim s ≠ "" →
  requested_code (JObject [("roomCode", JString (toUpperCase (trim s)))]) =
  Some (toUpperCase (trim s)).
Proof.
  intros Hs. unfold requested_code, opt_chain, get_prop, js_or. simpl.
  destruct (String.eqb_spec (toUpperCase (trim s)) "") as [Hempty|_].
  { by apply toUpperCase_empty in Hempty. }
  simpl. by rewrite trim_upper, trim_idem, toUpperCase_idem.
Qed.

(** Client and server agree on the room code.  When the user asks to
    join with a code that is not blank, the page sends the code trimmed
    and upper-cased and remembers it; the server, if that room exists,
    answers the requester with [room_joined] carrying that very code; and
    when the answer is routed to the page's [room_joined] handler the
    comparison with the remembered code succeeds, so the viewer's peer
    connection is set up. *)
Theorem join_code_round_trip value pg u B eB room st :
  let code := toUpperCase (trim value) in
  let request := JObject [("type", JString "join_room"); ("roomCode", JString code)] in
  let reply := JObject [("type", JString "room_joined"); ("roomCode", JString code)] in
  trim value ≠ "" →
  Client.sendable (Client.socket pg) = true →
  reachable st →
  sockets st !! B = Some eB → readyState (ws eB) = OPEN →
  rooms st !! code = Some room →
  ∃ pg1 acts st1 out pg2,
    Client.joinRoom (Some value) pg = (Normal (), pg1, acts)
    ∧ Client.sent acts = [request]
    ∧ dispatch u B request st = (Normal (), st1, out)
    ∧ (B, reply) ∈ out
    ∧ Client.on_room_joined (JObject [("roomCode", JString code)]) pg1
      = (Normal (), pg2, [Client.peer_new])
    ∧ Client.viewerPeer (Client.globals pg2) = true.
Proof.
  intros code request reply Hvalue Hsend Hreach HB Hopen Hroom.
  destruct pg as [[o r q ls] [sid rc adm peer target buf]].
  unfold Client.sendable in Hsend. simpl in Hsend.
  apply andb_prop in Hsend as [-> Hr]. destruct r; try done.
  assert (String.eqb (trim value) "" = false) as Hnb
    by (by destruct (String.eqb_spec (trim value) "")).
  assert (∃ pg1 acts,
            Client.joinRoom (Some value)
              {| Client.socket := {| Client.isOpen := true; Client.readyState := OPEN;
                                     Client.queuedMessages := q; Client.listeners := ls |};
                 Client.globals := {| Client.mySocketId := sid; Client.roomCode := rc;
                                      Client.isAdmin := adm; Client.viewerPeer := peer;
                                      Client.viewerAdminId := target;
                                      Client.bufferedViewerCandidates := buf |} |}
            = (Normal (), pg1, acts)
            ∧ Client.sent acts = [request]
            ∧ Client.globals pg1 =
                {| Client.mySocketId := sid; Client.roomCode := JString code;
                   Client.isAdmin := false; Client.viewerPeer := false;
                   Client.viewerAdminId := JNull;
                   Client.bufferedViewerCandidates := [] |})
    as (pg1 & acts & Hjoin & Hsent & Hglobals).
  { unfold Client.joinRoom. rewrite Hnb.
    destruct peer; eexists _, _; (split; [reflexivity|]); split; reflexivity. }
  destruct pg1 as [s1 g1]. simpl in Hglobals. subst g1.
  eexists _, acts, _, _, _. split_and!.
  - exact Hjoin.
  - exact Hsent.
  - pose proof (reachable_room_nonempty _ _ _ Hreach Hroom) as Hne.
    unfold dispatch, request, code in *. simpl. rewrite run_bind_ret. simpl.
    rewrite handleJoinRoom_run, HB, (requested_code_normal value Hvalue).
    assert (String.eqb (toUpperCase (trim value)) "" = false) as ->
      by (by destruct (String.eqb_spec (toUpperCase (trim value)) "")).
    rewrite Hroom. reflexivity.
  - apply elem_of_app. left. simpl. rewrite delivered_alter_ws by done.
    rewrite (delivered_open _ _ eB) by done. by left.
  - unfold Client.on_room_joined, mbind, Client.P_bind, Client.read. simpl.
    rewrite String.eqb_refl. simpl. reflexivity.
  - reflexivity.
Qed.

(** The user typed a no-break space, the code in lower case and a space. *)
Lemma join_code_round_trip_witness :
  let padded := utf8 0xA0 +:+ "0000ab12 " in
  let code := "0000AB12" in
  let request := JObject [("type", JString "join_room"); ("roomCode", JString code)] in
  let reply := JObject [("type", JString "room_joined"); ("roomCode", JString code)] in
  trim padded ≠ ""
  ∧ Client.sendable (Client.socket page_open) = true
  ∧ reachable st_open_room
  ∧ sockets st_open_room !! idB = Some unassigned_entry
  ∧ readyState (ws unassigned_entry) = OPEN
  ∧ rooms st_open_room !! code = Some {| adminId := idA; participants := [] |}
  ∧ ∃ pg1 acts st1 out pg2,
      Client.joinRoom (Some padded) page_open = (Normal (), pg1, acts)
      ∧ Client.sent acts = [request]
      ∧ dispatch uuidS idB request st_open_room = (Normal (), st1, out)
      ∧ (idB, reply) ∈ out
      ∧ Client.on_room_joined (JObject [("roomCode", JString code)]) pg1
        = (Normal (), pg2, [Client.peer_new])
      ∧ Client.viewerPeer (Client.globals pg2) = true.
Proof.
  intros padded code request reply.
  assert (Hvalue : trim padded ≠ "") by (vm_compute; discriminate).
  split; [exact Hvalue|]. split; [reflexivity|].
  split; [exact st_open_room_reachable|]. do 3 (split; [reflexivity|]).
  apply (join_code_round_trip padded page_open uuidS idB unassigned_entry
           {| adminId := idA; participants := [] |} st_open_room);
    [exact Hvalue | reflexivity | exact st_open_room_reachable
    | reflexivity | reflexivity | reflexivity].
Defined.

(** A blank code never leaves the page: when the input is missing,
    empty or only white space (of any kind [trim] strips), [joinRoom]
    shows an alert and does nothing else; no message is sent or queued
    and the page keeps its room, its role and its peer connection. *)
Theorem join_blank_refused joinInput pg :
  match joinInput with
  | Some value => is_blank value = true
  | None => True
  end →
  Client.joinRoom joinInput pg =
  (Normal (), pg, [Client.alert (JString "Enter room code first!")]).
Proof.
  intros H. unfold Client.joinRoom.
  destruct joinInput as [value|]; [rewrite (trim_blank value H)|]; reflexivity.
Qed.

(** A no-break space, an em space, a space and a tab. *)
Lemma join_blank_refused_witness :
  let spaces := utf8 0xA0 +:+ utf8 0x2003 +:+ " " +:+ utf8 0x9 in
  is_blank spaces = true
  ∧ Client.joinRoom (Some spaces) page_open =
    (Normal (), page_open, [Client.alert (JString "Enter room code first!")]).
Proof.
  intros spaces. split; [reflexivity|].
  apply (join_blank_refused (Some spaces) page_open). reflexivity.
Defined.

(** ** The viewer's candidates *)

Lemma each_buffered cs pg :
  truthy (Client.viewerAdminId (Client.globals pg)) = false →
  Forall (λ c, truthy c = true) cs →
  Client.each cs Client.onicecandidate pg =
  (Normal (),
   with_buffer (Client.bufferedViewerCandidates (Client.globals pg) ++ cs)
     (Client.viewerAdminId (Client.globals pg)) pg, []).
Proof.
  intros Htarget Hcs. revert pg Htarget.
  induction Hcs as [|c cs Hc _ IH]; intros pg Htarget; simpl.
  - rewrite app_nil_r. by destruct pg as [s []].
  - unfold mbind, Client.P_bind, Client.onicecandidate at 1. rewrite Hc.
    unfold mbind, Client.P_bind, Client.read. rewrite Htarget. simpl.
    rewrite IH by done. simpl. by rewrite <- app_assoc.
Qed.

Lemma each_emitted cs target pg :
  Client.sendable (Client.socket pg) = true →
  Client.each cs (λ candidate,
    Client.emit "ice_candidate" [("target", target); ("candidate", candidate)]) pg =
  (Normal (), pg, Client.ws_send <$> (candidate_message target <$> cs)).
Proof.
  intros Hsend. induction cs as [|c cs IH]; [done|]. simpl.
  unfold mbind, Client.P_bind, Client.emit at 1.
  unfold mbind, Client.P_bind, Client.read. rewrite Hsend. simpl. by rewrite IH.
Qed.

(** No candidate of the viewer is lost while the admin is unknown.  The
    candidates the peer connection produces before the offer has arrived
    are kept, in order, and nothing is sent; when the offer arrives they
    are all sent to the admin named in it, in that order, before the offer
    is applied, and the buffer is empty; from then on a candidate is sent
    at once. *)
Theorem candidates_kept_until_offer cs c rest pg :
  let target := get_prop rest "adminId" in
  let kept := Client.bufferedViewerCandidates (Client.globals pg) ++ cs in
  Client.sendable (Client.socket pg) = true →
  Client.isAdmin (Client.globals pg) = false →
  Client.viewerPeer (Client.globals pg) = true →
  truthy (Client.viewerAdminId (Client.globals pg)) = false →
  Forall (λ c, truthy c = true) cs →
  truthy c = true →
  truthy target = true →
  ∃ pg1 pg2,
    Client.each cs Client.onicecandidate pg = (Normal (), pg1, [])
    ∧ Client.bufferedViewerCandidates (Client.globals pg1) = kept
    ∧ Client.on_receive_offer rest pg1 =
      (Normal (), pg2,
       (Client.ws_send <$> (candidate_message target <$> kept))
       ++ [Client.setRemoteDescription (get_prop rest "offer")])
    ∧ Client.bufferedViewerCandidates (Client.globals pg2) = []
    ∧ Client.onicecandidate c pg2 =
      (Normal (), pg2, [Client.ws_send (candidate_message target c)]).
Proof.
  intros target kept Hsend Hadmin Hpeer Hnone Hcs Hc Htarget.
  destruct pg as [s [sid rc adm peer adminId buf]]. simpl in *. subst adm peer.
  eexists _, _. split; [by apply each_buffered|]. split; [reflexivity|].
  assert (Client.on_receive_offer rest
            (with_buffer (buf ++ cs) adminId
               {| Client.socket := s;
                  Client.globals :=
                    {| Client.mySocketId := sid; Client.roomCode := rc;
                       Client.isAdmin := false; Client.viewerPeer := true;
                       Client.viewerAdminId := adminId;
                       Client.bufferedViewerCandidates := buf |} |})
          = (Normal (),
             with_buffer [] target
               {| Client.socket := s;
                  Client.globals :=
                    {| Client.mySocketId := sid; Client.roomCode := rc;
                       Client.isAdmin := false; Client.viewerPeer := true;
                       Client.viewerAdminId := adminId;
                       Client.bufferedViewerCandidates := buf |} |},
             (Client.ws_send <$> (candidate_message target <$> kept))
             ++ [Client.setRemoteDescription (get_prop rest "offer")])) as Hoffer.
  { unfold Client.on_receive_offer, with_buffer, mbind, Client.P_bind, Client.read.
    simpl. unfold Client.flushBufferedViewerCandidates, mbind, Client.P_bind, Client.read.
    simpl. fold target. rewrite Htarget. simpl. subst kept. simpl.
    destruct (buf ++ cs) as [|k ks] eqn:Hkept.
    - reflexivity.
    - rewrite bool_decide_eq_false_2 by done. simpl.
      unfold mbind, Client.P_bind. simpl.
      pose proof (each_emitted (k :: ks) target
        {| Client.socket := s;
           Client.globals :=
             {| Client.mySocketId := sid; Client.roomCode := rc;
                Client.isAdmin := false; Client.viewerPeer := true;
                Client.viewerAdminId := target;
                Client.bufferedViewerCandidates := [] |} |} Hsend) as Heach.
      simpl in Heach. unfold mbind, Client.P_bind in Heach.
      by rewrite Heach. }
  split; [exact Hoffer|]. split; [reflexivity|].
  unfold Client.onicecandidate, with_buffer. rewrite Hc.
  unfold mbind, Client.P_bind, Client.read. simpl. fold target. rewrite Htarget.
  unfold Client.emit, mbind, Client.P_bind, Client.read. simpl. by rewrite Hsend.
Qed.

Lemma candidates_kept_until_offer_witness :
  let cs := [JString "candidate-1"; JString "candidate-2"] in
  let c := JString "candidate-3" in
  let rest := JObject [("offer", JString "sdp"); ("adminId", JString idA)] in
  let target := get_prop rest "adminId" in
  let kept := Client.bufferedViewerCandidates (Client.globals page_viewer) ++ cs in
  Client.sendable (Client.socket page_viewer) = true
  ∧ Client.isAdmin (Client.globals page_viewer) = false
  ∧ Client.viewerPeer (Client.globals page_viewer) = true
  ∧ truthy (Client.viewerAdminId (Client.globals page_viewer)) = false
  ∧ Forall (λ c, truthy c = true) cs
  ∧ truthy c = true
  ∧ truthy target = true
  ∧ ∃ pg1 pg2,
      Client.each cs Client.onicecandidate page_viewer = (Normal (), pg1, [])
      ∧ Client.bufferedViewerCandidates (Client.globals pg1) = kept
      ∧ Client.on_receive_offer rest pg1 =
        (Normal (), pg2,
         (Client.ws_send <$> (candidate_message target <$> kept))
         ++ [Client.setRemoteDescription (get_prop rest "offer")])
      ∧ Client.bufferedViewerCandidates (Client.globals pg2) = []
      ∧ Client.onicecandidate c pg2 =
        (Normal (), pg2, [Client.ws_send (candidate_message target c)]).
Proof.
  intros cs c rest target kept.
  assert (Hcs : Forall (λ c, truthy c = true) cs)
    by (repeat constructor).
  do 4 (split; [reflexivity|]). split; [exact Hcs|]. do 2 (split; [reflexivity|]).
  apply (candidates_kept_until_offer cs c rest page_viewer);
    [reflexivity | reflexivity | reflexivity | reflexivity | exact Hcs
    | reflexivity | reflexivity].
Defined.

(** ** Routing what arrives *)

Lemma on_run type handler pg :
  ∃ pg',
    Client.on type handler pg = (Normal (), pg', [])
    ∧ ∀ t, handlers_of pg' t =
           if decide (type = t) then Client.add_handler handler (handlers_of pg t)
           else handlers_of pg t.
Proof.
  eexists. split; [reflexivity|]. intros t. unfold handlers_of. simpl.
  rewrite lookup_insert. by destruct (decide (type = t)) as [->|].
Qed.

Lemma add_handler_NoDup handler handlers :
  NoDup handlers → NoDup (Client.add_handler handler handlers).
Proof.
  intros Hs. unfold Client.add_handler. case_bool_decide as Hin; [done|].
  apply NoDup_app. split; [done|]. split.
  - intros y Hy ->%list_elem_of_singleton. done.
  - apply NoDup_singleton.
Qed.

Lemma elem_of_add_handler handler handlers h :
  h ∈ Client.add_handler handler handlers ↔ h = handler ∨ h ∈ handlers.
Proof.
  unfold Client.add_handler. case_bool_decide as Hin.
  - split; [by right | by intros [->|?]].
  - rewrite elem_of_app, list_elem_of_singleton. tauto.
Qed.

Lemma registrations_run regs pg :
  ∃ pg',
    Client.each regs (λ r, Client.on r.1 r.2) pg = (Normal (), pg', [])
    ∧ ∀ t, (NoDup (handlers_of pg t) → NoDup (handlers_of pg' t))
           ∧ ∀ h, h ∈ handlers_of pg' t ↔ h ∈ handlers_of pg t ∨ (t, h) ∈ regs.
Proof.
  revert pg. induction regs as [|[type handler] regs IH]; intros pg.
  - exists pg. split; [done|]. intros t. split; [done|]. intros h.
    split; [by left | by intros [?|?%elem_of_nil]].
  - destruct (on_run type handler pg) as (pg1 & Hon & H1).
    destruct (IH pg1) as (pg2 & Hrest & H2).
    exists pg2. split.
    + simpl. unfold mbind, Client.P_bind. simpl in Hon. rewrite Hon, Hrest. done.
    + intros t. destruct (H2 t) as [Hnd Hin]. rewrite H1 in Hnd. split.
      * intros Hpg. apply Hnd. destruct (decide (type = t)); [|done].
        by apply add_handler_NoDup.
      * intros h. rewrite Hin, H1, elem_of_cons.
        destruct (decide (type = t)) as [->|Hne].
        -- rewrite elem_of_add_handler. split.
           ++ intros [[->|?]|?]; auto.
           ++ intros [?|[[= ->]|?]]; auto.
        -- split.
           ++ intros [?|?]; auto.
           ++ intros [?|[[= <- _]|?]]; [auto|done|auto].
Qed.

(** A message is handed to the handlers registered for its type, and to
    no others: after any series of registrations on a fresh client, a
    message of type [t] makes one call per handler that was registered for
    [t], however often it was registered, each with the message less its
    [type]; the listener changes nothing and sends nothing. *)
Theorem routed_to_registered regs l t pg :
  handlers_of pg t = [] →
  assoc_get "type" l = Some (JString t) →
  ∃ pg' handlers,
    Client.each regs (λ r, Client.on r.1 r.2) pg = (Normal (), pg', [])
    ∧ Client.on_message (JObject l) pg' =
      (Normal ((λ h, (h, JObject (assoc_remove "type" l))) <$> handlers), pg', [])
    ∧ NoDup handlers
    ∧ ∀ h, h ∈ handlers ↔ (t, h) ∈ regs.
Proof.
  intros Hfresh Ht.
  destruct (registrations_run regs pg) as (pg' & Hregs & Hall).
  destruct (Hall t) as [Hnd Hin]. rewrite Hfresh in Hnd, Hin.
  exists pg', (handlers_of pg' t). split; [done|]. split_and!.
  - unfold Client.on_message, mbind, Client.P_bind, Client.read, get_prop, handlers_of.
    rewrite Ht. simpl.
    by destruct (Client.listeners (Client.socket pg') !! t).
  - apply Hnd, NoDup_nil_2.
  - intros h. rewrite Hin. split; [by intros [?%elem_of_nil|?] | auto].
Qed.

Lemma routed_to_registered_witness :
  let regs := [("room_joined", 1%nat); ("room_error", 2%nat); ("room_joined", 1%nat);
               ("room_joined", 3%nat)] in
  let l := [("type", JString "room_joined"); ("roomCode", JString "0000AB12")] in
  handlers_of Client.loaded "room_joined" = []
  ∧ assoc_get "type" l = Some (JString "room_joined")
  ∧ ∃ pg' handlers,
      Client.each regs (λ r, Client.on r.1 r.2) Client.loaded = (Normal (), pg', [])
      ∧ Client.on_message (JObject l) pg' =
        (Normal ((λ h, (h, JObject (assoc_remove "type" l))) <$> handlers), pg', [])
      ∧ NoDup handlers
      ∧ ∀ h, h ∈ handlers ↔ ("room_joined", h) ∈ regs.
Proof.
  intros regs l. do 2 (split; [reflexivity|]).
  apply (routed_to_registered regs l "room_joined" Client.loaded); reflexivity.
Defined.

(** ** Creating a room, and a join that fails *)

(** Client and server agree on the room a page created.  [createRoom]
    sends [create_room]; the server stores a room under a fresh code with
    this connection as admin and answers [room_created] with that code;
    the page's handler remembers the code, so that the page's room code is
    the key of its room in the registry, and a second [createRoom] does
    nothing. *)
Theorem create_room_round_trip codeEl pg u A eA st :
  let code := shortRoomCode u in
  let request := JObject [("type", JString "create_room")] in
  let reply := JObject [("type", JString "room_created"); ("roomCode", JString code)] in
  truthy (Client.roomCode (Client.globals pg)) = false →
  Client.sendable (Client.socket pg) = true →
  is_uuid u = true →
  sockets st !! A = Some eA → readyState (ws eA) = OPEN →
  ∃ pg1 st1 out pg2 shown,
    Client.createRoom pg = (Normal (), pg1, [Client.ws_send request])
    ∧ dispatch u A request st = (Normal (), st1, out)
    ∧ out = [(A, reply)]
    ∧ rooms st1 !! code = Some {| adminId := A; participants := [] |}
    ∧ Client.on_room_created codeEl (JObject [("roomCode", JString code)]) pg1
      = (Normal (), pg2, shown)
    ∧ Client.roomCode (Client.globals pg2) = JString code
    ∧ Client.createRoom pg2 = (Normal (), pg2, []).
Proof.
  intros code request reply Hnone Hsend Hu HA Hopen.
  destruct pg as [[o r q ls] [sid rc adm peer target buf]].
  unfold Client.sendable in Hsend. simpl in Hsend, Hnone.
  apply andb_prop in Hsend as [-> Hr]. destruct r; try done.
  assert (String.eqb code "" = false) as Hcode.
  { destruct (String.eqb_spec code "") as [Hempty|]; [|done].
    by apply shortRoomCode_nonempty in Hempty. }
  destruct codeEl; eexists _, _, _, _, _; split_and!.
  all: try (unfold Client.createRoom, mbind, Client.P_bind, Client.read; simpl;
            rewrite Hnone; reflexivity).
  all: try (unfold dispatch, request; simpl; rewrite run_bind_ret; simpl;
            rewrite handleCreateRoom_run, HA; reflexivity).
  all: try (simpl; rewrite delivered_alter_ws by done;
            by rewrite (delivered_open _ _ eA)).
  all: try (simpl; apply lookup_insert_eq).
  all: try (unfold Client.on_room_created, mbind, Client.P_bind, Client.read; simpl;
            reflexivity).
  all: try reflexivity.
  all: unfold Client.createRoom, mbind, Client.P_bind, Client.read; simpl;
    fold code; by rewrite Hcode.
Qed.

Lemma create_room_round_trip_witness :
  let code := shortRoomCode uuidR in
  let request := JObject [("type", JString "create_room")] in
  let reply := JObject [("type", JString "room_created"); ("roomCode", JString code)] in
  truthy (Client.roomCode (Client.globals page_open)) = false
  ∧ Client.sendable (Client.socket page_open) = true
  ∧ is_uuid uuidR = true
  ∧ sockets st_lobby !! idA = Some unassigned_entry
  ∧ readyState (ws unassigned_entry) = OPEN
  ∧ ∃ pg1 st1 out pg2 shown,
      Client.createRoom page_open = (Normal (), pg1, [Client.ws_send request])
      ∧ dispatch uuidR idA request st_lobby = (Normal (), st1, out)
      ∧ out = [(idA, reply)]
      ∧ rooms st1 !! code = Some {| adminId := idA; participants := [] |}
      ∧ Client.on_room_created true (JObject [("roomCode", JString code)]) pg1
        = (Normal (), pg2, shown)
      ∧ Client.roomCode (Client.globals pg2) = JString code
      ∧ Client.createRoom pg2 = (Normal (), pg2, []).
Proof.
  intros code request reply. do 5 (split; [reflexivity|]).
  apply (create_room_round_trip true page_open uuidR idA unassigned_entry st_lobby);
    reflexivity.
Defined.

(** A join that fails is told to the user: when the code the page sends
    names no room, the server changes nothing and answers [room_error],
    and the page's handler shows the server's message. *)
Theorem join_error_shown value pg u B eB st :
  let code := toUpperCase (trim value) in
  let request := JObject [("type", JString "join_room"); ("roomCode", JString code)] in
  let reply := JObject [("type", JString "room_error");
                        ("message", JString "Room does not exist")] in
  trim value ≠ "" →
  Client.sendable (Client.socket pg) = true →
  sockets st !! B = Some eB → readyState (ws eB) = OPEN →
  rooms st !! code = None →
  ∃ pg1 acts,
    Client.joinRoom (Some value) pg = (Normal (), pg1, acts)
    ∧ Client.sent acts = [request]
    ∧ dispatch u B request st = (Normal (), st, [(B, reply)])
    ∧ Client.on_room_error (JObject [("message", JString "Room does not exist")]) pg1
      = (Normal (), pg1, [Client.alert (JString "Room does not exist")]).
Proof.
  intros code request reply Hvalue Hsend HB Hopen Hroom.
  destruct pg as [[o r q ls] [sid rc adm peer target buf]].
  unfold Client.sendable in Hsend. simpl in Hsend.
  apply andb_prop in Hsend as [-> Hr]. destruct r; try done.
  assert (String.eqb (trim value) "" = false) as Hnb
    by (by destruct (String.eqb_spec (trim value) "")).
  assert (∃ pg1 acts,
            Client.joinRoom (Some value)
              {| Client.socket := {| Client.isOpen := true; Client.readyState := OPEN;
                                     Client.queuedMessages := q; Client.listeners := ls |};
                 Client.globals := {| Client.mySocketId := sid; Client.roomCode := rc;
                                      Client.isAdmin := adm; Client.viewerPeer := peer;
                                      Client.viewerAdminId := target;
                                      Client.bufferedViewerCandidates := buf |} |}
            = (Normal (), pg1, acts)
            ∧ Client.sent acts = [request]
            ∧ Client.isAdmin (Client.globals pg1) = false)
    as (pg1 & acts & Hjoin & Hsent & Hadmin).
  { unfold Client.joinRoom. rewrite Hnb.
    destruct peer; eexists _, _; (split; [reflexivity|]); split; reflexivity. }
  exists pg1, acts. split_and!; [done|done| |].
  - unfold dispatch, request, code in *. simpl. rewrite run_bind_ret. simpl.
    rewrite handleJoinRoom_run, HB, (requested_code_normal value Hvalue), Hroom.
    destruct (String.eqb (toUpperCase (trim value)) "");
      rewrite (delivered_open (sockets st) B eB _ HB Hopen);
      reflexivity.
  - unfold Client.on_room_error, mbind, Client.P_bind, Client.read. simpl.
    by rewrite Hadmin.
Qed.

(** The user typed a no-break space and zzzz; the page sends ZZZZ. *)
Lemma join_error_shown_witness :
  let value := utf8 0xA0 +:+ "zzzz" in
  let code := "ZZZZ" in
  let request := JObject [("type", JString "join_room"); ("roomCode", JString code)] in
  let reply := JObject [("type", JString "room_error");
                        ("message", JString "Room does not exist")] in
  trim value ≠ ""
  ∧ Client.sendable (Client.socket page_open) = true
  ∧ sockets st_open_room !! idB = Some unassigned_entry
  ∧ readyState (ws unassigned_entry) = OPEN
  ∧ rooms st_open_room !! code = None
  ∧ ∃ pg1 acts,
      Client.joinRoom (Some value) page_open = (Normal (), pg1, acts)
      ∧ Client.sent acts = [request]
      ∧ dispatch uuidS idB request st_open_room = (Normal (), st_open_room, [(idB, reply)])
      ∧ Client.on_room_error (JObject [("message", JString "Room does not exist")]) pg1
        = (Normal (), pg1, [Client.alert (JString "Room does not exist")]).
Proof.
  intros value code request reply.
  assert (Hvalue : trim value ≠ "") by (vm_compute; discriminate).
  split; [exact Hvalue|]. do 4 (split; [reflexivity|]).
  apply (join_error_shown value page_open uuidS idB unassigned_entry st_open_room);
    [exact Hvalue | reflexivity | reflexivity | reflexivity | reflexivity].
Defined.
